(** * Generation lifecycle of the AI clothing visualizer

    A shallow embedding of the create/poll API of the repository: the two
    route handlers (try-on and composite, each with POST and GET), the
    provider adapters [idm-vton.ts] and [image-combiner.ts], the Supabase
    helpers [getImageUrl], [uploadImage], [deleteImage], and the Zod request
    schemas.

    Conventions.
    - JavaScript values that cross a JSON boundary are [JsVal]s.  Numbers are
      restricted to integers; a string is a Rocq [string], one character per
      UTF-16 code unit, so [String.length] is the [.length] Zod compares.
    - Everything outside the process (provider HTTP API, artifact store,
      clock, random source, environment variables) is an oracle in [Env],
      indexed by the instant of the call.  The record store is a finite map
      that returns what was written to it.
    - Awaited calls run in sequence inside one handler invocation: handlers
      are functions [World -> Outcome A * World] and every external call is
      appended, with its result, to the [trace] of the world. *)

From Stdlib Require Import ZArith NArith String Ascii List Bool Lia.
From stdpp Require Import base option strings gmap pretty.
Import ListNotations.
Local Open Scope string_scope.
Local Open Scope Z_scope.
Set Warnings "-register-all".

(** ** JavaScript values *)

Module Js.

Inductive JsVal : Type :=
| JUndefined
| JNull
| JBool (b : bool)
| JNum (n : Z)
| JStr (s : string)
| JArr (items : list JsVal)
| JObj (fields : list (string * JsVal)).

(** [!!v] *)
Definition truthy (v : JsVal) : bool :=
  match v with
  | JUndefined | JNull => false
  | JBool b => b
  | JNum n => negb (n =? 0)
  | JStr s => negb (String.eqb s "")
  | JArr _ | JObj _ => true
  end.

(** [typeof v] *)
Definition typeof (v : JsVal) : string :=
  match v with
  | JUndefined => "undefined"
  | JNull => "object"
  | JBool _ => "boolean"
  | JNum _ => "number"
  | JStr _ => "string"
  | JArr _ | JObj _ => "object"
  end.

(** [a || b] *)
Definition or (a b : JsVal) : JsVal := if truthy a then a else b.

Fixpoint assoc (k : string) (fields : list (string * JsVal)) : JsVal :=
  match fields with
  | [] => JUndefined
  | (k', v) :: rest => if String.eqb k k' then v else assoc k rest
  end.

(** [v[k]] for a string key that is none of the built-in properties; reading
    a property of [undefined] or [null] is not covered here, callers guard
    it. *)
Definition get (v : JsVal) (k : string) : JsVal :=
  match v with
  | JObj fields => assoc k fields
  | _ => JUndefined
  end.

(** [arr[0]] *)
Definition first (items : list JsVal) : JsVal :=
  match items with
  | [] => JUndefined
  | x :: _ => x
  end.

Fixpoint join (sep : string) (parts : list string) : string :=
  match parts with
  | [] => ""
  | [p] => p
  | p :: rest => p +:+ sep +:+ join sep rest
  end.

(** [String(v)], the conversion a template literal applies. *)
Fixpoint toString (v : JsVal) : string :=
  match v with
  | JUndefined => "undefined"
  | JNull => "null"
  | JBool true => "true"
  | JBool false => "false"
  | JNum n => pretty n
  | JStr s => s
  | JArr items =>
      join "," (map (fun x => match x with
                              | JUndefined | JNull => ""
                              | _ => toString x
                              end) items)
  | JObj _ => "[object Object]"
  end.

(** An object literal as [JSON.stringify] sends it: members whose value is
    [undefined] are left out. *)
Definition isUndefined (v : JsVal) : bool :=
  match v with
  | JUndefined => true
  | _ => false
  end.

Definition object (fields : list (string * JsVal)) : JsVal :=
  JObj (List.filter (fun kv => negb (isUndefined (snd kv))) fields).

Definition ofOption (o : option string) : JsVal :=
  match o with
  | Some s => JStr s
  | None => JUndefined
  end.

Definition nullable (o : option string) : JsVal :=
  match o with
  | Some s => JStr s
  | None => JNull
  end.

(** The double-quote character, and a string between two of them. *)
Definition dquote : string :=
  String (Ascii false true false false false true false false) EmptyString.

Definition quoted (s : string) : string := dquote +:+ s +:+ dquote.

(** [s.includes(needle)] *)
Fixpoint includes (needle s : string) : bool :=
  String.prefix needle s ||
  match s with
  | EmptyString => false
  | String _ rest => includes needle rest
  end.

(** [s.startsWith(p)] *)
Definition startsWith (p s : string) : bool := String.prefix p s.

(** [s.split(sep)] for a one-character separator. *)
Fixpoint split_go (sep : ascii) (cur : string) (s : string) : list string :=
  match s with
  | EmptyString => [String.rev cur]
  | String c rest =>
      if Ascii.eqb c sep then String.rev cur :: split_go sep "" rest
      else split_go sep (String c cur) rest
  end.

Definition split (sep : ascii) (s : string) : list string := split_go sep "" s.

End Js.

Import Js.

(** ** Request schemas ([types/schemas.ts])

    Zod is a library; what is modelled of it is what the two request schemas
    use: [z.string()] with [min]/[max] and their messages, [optional],
    [default], and [z.object] collecting the issues of every member. *)

Module Zod.

Record Issue := mkIssue { issue_path : string; issue_message : string }.

(** Outcome of parsing one member: the parsed value, or issues. *)
Definition Parsed : Type := JsVal + list string.

Definition receivedType (v : JsVal) : string :=
  match v with
  | JNull => "null"
  | JArr _ => "array"
  | _ => typeof v
  end.

Record StringCheck := mkCheck { check_ok : string -> bool; check_message : string }.

Definition min (n : nat) (message : string) : StringCheck :=
  mkCheck (fun s => (n <=? String.length s)%nat) message.

Definition max (n : nat) (message : string) : StringCheck :=
  mkCheck (fun s => (String.length s <=? n)%nat) message.

(** [z.string().min(..).max(..)]: every failing check reports its message. *)
Definition zstring (checks : list StringCheck) (v : JsVal) : Parsed :=
  match v with
  | JStr s =>
      match List.filter (fun c => negb (check_ok c s)) checks with
      | [] => inl (JStr s)
      | failed => inr (map check_message failed)
      end
  | JUndefined => inr ["Required"]
  | _ => inr ["Expected string, received " +:+ receivedType v]
  end.

(** [.optional()] *)
Definition optional (inner : JsVal -> Parsed) (v : JsVal) : Parsed :=
  match v with
  | JUndefined => inl JUndefined
  | _ => inner v
  end.

(** [.default(d)]: a missing member is parsed as [d]. *)
Definition default (inner : JsVal -> Parsed) (d : JsVal) (v : JsVal) : Parsed :=
  match v with
  | JUndefined => inner d
  | _ => inner v
  end.

Definition Shape : Type := list (string * (JsVal -> Parsed)).

Fixpoint parseMembers (shape : Shape) (input : JsVal)
  : list (string * JsVal) * list Issue :=
  match shape with
  | [] => ([], [])
  | (k, schema) :: rest =>
      let '(data, issues) := parseMembers rest input in
      match schema (Js.get input k) with
      | inl v => ((k, v) :: data, issues)
      | inr msgs => (data, (map (mkIssue k) msgs ++ issues)%list)
      end
  end.

Inductive SafeParse :=
| Success (data : list (string * JsVal))
| Failure (issues : list Issue).

(** [z.object(shape).safeParse(input)]; unknown members are stripped. *)
Definition safeParse (shape : Shape) (input : JsVal) : SafeParse :=
  match input with
  | JObj _ =>
      match parseMembers shape input with
      | (data, []) => Success data
      | (_, issues) => Failure issues
      end
  | JUndefined => Failure [mkIssue "" "Required"]
  | _ => Failure [mkIssue "" ("Expected object, received " +:+ receivedType input)]
  end.

(** [error.format()]: the messages grouped under their member. *)
Definition messagesAt (k : string) (issues : list Issue) : list JsVal :=
  map (fun i => JStr (issue_message i))
      (List.filter (fun i => String.eqb (issue_path i) k) issues).

Fixpoint paths (seen : list string) (issues : list Issue) : list string :=
  match issues with
  | [] => []
  | i :: rest =>
      let k := issue_path i in
      if String.eqb k "" || existsb (String.eqb k) seen then paths seen rest
      else k :: paths (k :: seen) rest
  end.

Definition format (issues : list Issue) : JsVal :=
  JObj (("_errors", JArr (messagesAt "" issues))
        :: map (fun k => (k, JObj [("_errors", JArr (messagesAt k issues))]))
               (paths [] issues)).

End Zod.

Definition TryOnRequestSchema : Zod.Shape :=
  [ ("modelImageBase64",
      Zod.zstring [Zod.min 1 "Model image data is required"]);
    ("clothingImageBase64",
      Zod.zstring [Zod.min 1 "Clothing image data is required"]);
    ("modelImageId", Zod.optional (Zod.zstring []));
    ("clothingImageId", Zod.optional (Zod.zstring []));
    ("prompt",
      Zod.default
        (Zod.zstring
           [Zod.min 5 "Please provide a descriptive prompt (at least 5 characters)";
            Zod.max 1000 "Prompt is too long (maximum 1000 characters)"])
        (JStr "A person wearing clothing")) ].

Definition CompositeRequestSchema : Zod.Shape :=
  [ ("figureImageBase64",
      Zod.zstring [Zod.min 1 "Figure image data is required"]);
    ("sceneImageBase64",
      Zod.zstring [Zod.min 1 "Scene image data is required"]);
    ("figureImageId", Zod.optional (Zod.zstring []));
    ("sceneImageId", Zod.optional (Zod.zstring []));
    ("prompt",
      Zod.zstring
        [Zod.min 10 "Please provide a detailed prompt (at least 10 characters)";
         Zod.max 1000 "Prompt is too long (maximum 1000 characters)"]) ].

(** ** The world outside the handlers *)

(** What a [catch] clause receives.  [error instanceof Error] holds for
    [ThrownError]; every [throw] in the repository throws an [Error]. *)
Inductive Thrown :=
| ThrownError (message : string)
| ThrownOther.

Inductive Outcome (A : Type) :=
| Ret (a : A)
| Throw (t : Thrown).
Arguments Ret {A} a.
Arguments Throw {A} t.

(** An HTTP response as [fetch] resolves it.  [resp_json] is [JSON.parse] of
    [resp_text], a throw when the text is not JSON; [resp_bodyError] is set
    when reading the body ([text()], [json()], [blob()]) rejects. *)
Record Response := mkResponse {
  resp_ok : bool;
  resp_status : Z;
  resp_statusText : string;
  resp_text : string;
  resp_json : Outcome JsVal;
  resp_bodyError : option Thrown
}.

(** The requests the repository sends with [fetch]. *)
Inductive Request :=
| ReplicateCreate (modelImage clothingImage prompt : string)
| ReplicateGet (predictionId : JsVal)
| CombinerCreate (input_image_1 input_image_2 prompt : string)
| CombinerGet (predictionId : JsVal)
| Download (input : JsVal).

Definition isProviderRequest (r : Request) : bool :=
  match r with
  | Download _ => false
  | _ => true
  end.

(** A call of the Supabase storage client: [{ data, error }], or a throw. *)
Inductive StorageReply (A : Type) :=
| StorageOk (data : A)
| StorageError (message : string)
| StorageThrows (t : Thrown).
Arguments StorageOk {A} data.
Arguments StorageError {A} message.
Arguments StorageThrows {A} t.

(** A row of the [generations] table (README, "Generations table"). *)
Record Generation := mkGeneration {
  g_id : string;
  g_user_id : string;
  g_type : string;
  g_status : string;
  g_external_id : JsVal;
  g_storage_path : option string;
  g_error : JsVal;
  g_progress : option Z;
  g_metadata : JsVal;
  g_created_at : string;
  g_updated_at : string
}.

(** The columns a status check writes. *)
Record Patch := mkPatch {
  p_status : string;
  p_progress : Z;
  p_storage_path : option string;
  p_error : JsVal;
  p_updated_at : string
}.

Definition applyPatch (p : Patch) (g : Generation) : Generation :=
  {| g_id := g_id g; g_user_id := g_user_id g; g_type := g_type g;
     g_status := p_status p;
     g_external_id := g_external_id g;
     g_storage_path := p_storage_path p;
     g_error := p_error p;
     g_progress := Some (p_progress p);
     g_metadata := g_metadata g;
     g_created_at := g_created_at g;
     g_updated_at := p_updated_at p |}.

Inductive Event :=
| EvFetch (req : Request) (out : Outcome Response)
| EvUpload (bucket path : string) (out : StorageReply unit)
| EvSign (bucket : string) (path : option string) (out : StorageReply string)
| EvRemove (bucket path : string) (out : StorageReply unit)
| EvListBuckets
| EvSelect (id : string)
| EvInsert (row : Generation)
| EvUpdate (id : string) (patch : Patch).

Definition isProviderCall (e : Event) : bool :=
  match e with
  | EvFetch req _ => isProviderRequest req
  | _ => false
  end.

Definition isArtifactStoreCall (e : Event) : bool :=
  match e with
  | EvUpload _ _ _ | EvSign _ _ _ | EvRemove _ _ _ | EvListBuckets => true
  | _ => false
  end.

Definition isRecordWrite (e : Event) : bool :=
  match e with
  | EvInsert _ | EvUpdate _ _ => true
  | _ => false
  end.

(** Oracles for everything the process does not decide itself.  The first
    argument of an oracle is the instant (milliseconds) of the call. *)
Record Env := mkEnv {
  NEXT_PUBLIC_SUPABASE_URL : option string;
  NEXT_PUBLIC_API_MARKET_KEY : option string;
  (** [generateId] of [@/utils/helpers], which is not part of the sources. *)
  generateId : N -> string;
  (** [new Date(t).toISOString()] *)
  toISOString : N -> string;
  (** [Math.random().toString(36)] *)
  random36 : N -> string;
  atob : string -> Outcome string;
  http : N -> Request -> Outcome Response;
  latency : N -> N;
  storage_upload : N -> string -> string -> StorageReply unit;
  storage_createSignedUrl : N -> string -> option string -> StorageReply string;
  storage_remove : N -> string -> string -> StorageReply unit;
  (** message of the error [.single()] reports when no row matches *)
  noRowMessage : string
}.

Record World := mkWorld {
  db : gmap string Generation;
  objects : gset (string * string);
  now : N;
  trace : list Event
}.

(** ** Sequencing awaited calls *)

Definition M (A : Type) : Type := World -> Outcome A * World.

Definition ret {A} (a : A) : M A := fun w => (Ret a, w).

Definition throw {A} (t : Thrown) : M A := fun w => (Throw t, w).

Definition bind {A B} (m : M A) (k : A -> M B) : M B :=
  fun w =>
    match m w with
    | (Ret a, w') => k a w'
    | (Throw t, w') => (Throw t, w')
    end.

(** [try { m } catch (e) { handler e }] *)
Definition try_catch {A} (m : M A) (handler : Thrown -> M A) : M A :=
  fun w =>
    match m w with
    | (Ret a, w') => (Ret a, w')
    | (Throw t, w') => handler t w'
    end.

Notation "'let*' x ':=' m 'in' k" := (bind m (fun x => k))
  (at level 10, x pattern, m at level 100, k at level 200).
Notation "'do' m 'in' k" := (bind m (fun _ => k))
  (at level 10, m at level 100, k at level 200).

(** [new Error(message)] thrown *)
Definition throwError {A} (message : string) : M A := throw (ThrownError message).

(** [error instanceof Error ? error.message : fallback] *)
Definition messageOr (fallback : string) (t : Thrown) : string :=
  match t with
  | ThrownError m => m
  | ThrownOther => fallback
  end.

(** One external call: time passes, the call and its result are recorded. *)
Definition record (env : Env) (e : Event) (w : World) : World :=
  {| db := db w; objects := objects w;
     now := (now w + latency env (now w))%N;
     trace := (trace w ++ [e])%list |}.

Definition Date_now : M N := fun w => (Ret (now w), w).

(** [await delay(ms)] *)
Definition delay (ms : N) : M unit :=
  fun w => (Ret tt, {| db := db w; objects := objects w;
                       now := (now w + ms)%N; trace := trace w |}).

Definition fetch (env : Env) (req : Request) : M Response :=
  fun w =>
    let out := http env (now w) req in
    (out, record env (EvFetch req out) w).

(** [await response.text()] *)
Definition text (r : Response) : M string :=
  match resp_bodyError r with
  | Some t => throw t
  | None => ret (resp_text r)
  end.

(** [await response.json()] *)
Definition json (r : Response) : M JsVal :=
  let* body := text r in
  fun w => (resp_json r, w).

(** [await response.blob()] *)
Definition blob (r : Response) : M unit :=
  do text r in ret tt.

(** [v.k]: a [TypeError] on [undefined] and [null]. *)
Definition member (v : JsVal) (k : string) : M JsVal :=
  match v with
  | JUndefined | JNull =>
      throwError ("Cannot read properties of " +:+ Js.toString v +:+
                  " (reading '" +:+ k +:+ "')")
  | _ => ret (Js.get v k)
  end.

(** [Object.keys(v)], used by the log statements of the combiner adapter. *)
Definition Object_keys (v : JsVal) : M unit :=
  match v with
  | JUndefined | JNull => throwError "Cannot convert undefined or null to object"
  | _ => ret tt
  end.

(** *** Record store *)

Definition db_select (env : Env) (id : string) : M (option Generation) :=
  fun w => (Ret (db w !! id), record env (EvSelect id) w).

(** [insert]: a row whose primary key is taken is refused; the handlers do
    not look at the result. *)
Definition db_insert (env : Env) (row : Generation) : M unit :=
  fun w =>
    let w' := record env (EvInsert row) w in
    (Ret tt,
     {| db := match db w !! g_id row with
              | Some _ => db w
              | None => <[g_id row := row]> (db w)
              end;
        objects := objects w'; now := now w'; trace := trace w' |}).

(** [update(patch).eq('id', id)] *)
Definition db_update (env : Env) (id : string) (p : Patch) : M unit :=
  fun w =>
    let w' := record env (EvUpdate id p) w in
    (Ret tt,
     {| db := match db w !! id with
              | Some g => <[id := applyPatch p g]> (db w)
              | None => db w
              end;
        objects := objects w'; now := now w'; trace := trace w' |}).

(** ** Supabase helpers ([lib/supabase/client.ts]) *)

Definition envString (o : option string) : string :=
  match o with
  | Some s => s
  | None => "undefined"
  end.

Definition pathString (path : option string) : string :=
  match path with
  | Some p => p
  | None => "null"
  end.

Definition getPublicUrl (env : Env) (bucket : string) (path : option string) : string :=
  envString (NEXT_PUBLIC_SUPABASE_URL env) +:+ "/storage/v1/object/public/" +:+
  bucket +:+ "/" +:+ pathString path.

(** [supabase.storage.from(bucket).createSignedUrl(path, 60 * 60)] *)
Definition createSignedUrl (env : Env) (bucket : string) (path : option string)
  : M string :=
  fun w =>
    let out := storage_createSignedUrl env (now w) bucket path in
    let w' := record env (EvSign bucket path out) w in
    match out with
    | StorageOk url => (Ret url, w')
    | StorageError _ => (Ret (getPublicUrl env bucket path), w')
    | StorageThrows t => (Throw t, w')
    end.

(** [getImageUrl]: the signed URL, and the public URL when signing reports an
    error or throws. *)
Definition getImageUrl (env : Env) (bucket : string) (path : option string)
  : M string :=
  try_catch (createSignedUrl env bucket path)
            (fun _ => ret (getPublicUrl env bucket path)).

Definition bucketMissing (message : string) : bool :=
  negb (String.eqb message "") &&
  (Js.includes "bucket" message || Js.includes "not found" message ||
   Js.includes "does not exist" message).

Definition listBuckets (env : Env) : M unit :=
  fun w => (Ret tt, record env EvListBuckets w).

(** [supabase.storage.from(bucket).upload(path, file, ...)]; a stored object
    is added to [objects]. *)
Definition storageUpload (env : Env) (bucket path : string)
  : M (StorageReply unit) :=
  fun w =>
    let out := storage_upload env (now w) bucket path in
    let w' := record env (EvUpload bucket path out) w in
    (Ret out,
     {| db := db w';
        objects := match out with
                   | StorageOk _ => {[ (bucket, path) ]} ∪ objects w
                   | _ => objects w
                   end;
        now := now w'; trace := trace w' |}).

(** [uploadImage]: [None] is [{ data, error: null }], [Some m] is an [error]
    whose message is [m].  The bytes of the file play no part. *)
Definition uploadImage (env : Env) (bucket path : string) : M (option string) :=
  let* out := storageUpload env bucket path in
  match out with
  | StorageOk _ => ret None
  | StorageError message =>
      if bucketMissing message then
        do listBuckets env in
        ret (Some ("Upload failed. Please ensure the " +:+ Js.quoted bucket +:+
                   " bucket exists in your Supabase project and has proper permissions."))
      else ret (Some message)
  | StorageThrows t => ret (Some (messageOr "Unknown error during upload" t))
  end.

(** [supabase.storage.from(bucket).remove([path])] *)
Definition storageRemove (env : Env) (bucket path : string) : M unit :=
  fun w =>
    let out := storage_remove env (now w) bucket path in
    let w' := record env (EvRemove bucket path out) w in
    let w'' := {| db := db w';
                  objects := match out with
                             | StorageOk _ => objects w ∖ {[ (bucket, path) ]}
                             | _ => objects w
                             end;
                  now := now w'; trace := trace w' |} in
    match out with
    | StorageThrows t => (Throw t, w'')
    | _ => (Ret tt, w'')
    end.

Definition deleteImage (env : Env) (bucket path : string) : M unit :=
  storageRemove env bucket path.

(** ** [generateUniqueFilename] ([utils/image-processing.ts]) *)

Definition extensionOf (originalFilename : string) : string :=
  let last := List.last (Js.split "." originalFilename) "" in
  if String.eqb last "" then "jpg" else last.

Definition generateUniqueFilename (env : Env) (originalFilename : string) : M string :=
  let extension := extensionOf originalFilename in
  let* timestamp := Date_now in
  let randomString := String.substring 2 8 (random36 env timestamp) in
  ret (pretty timestamp +:+ "-" +:+ randomString +:+ "." +:+ extension).

(** ** LangSmith ([lib/langsmith/client.ts]): console output only *)

Definition logGeneration : M unit := ret tt.
Definition updateGeneration : M unit := ret tt.

(** ** IDM-VTON adapter ([lib/ai-services/idm-vton.ts]) *)

(** What the status functions of both adapters return. *)
Record ProviderStatus := mkStatus {
  ps_status : JsVal;
  ps_output : JsVal;
  ps_error : JsVal
}.

Definition replicateError (response : Response) : M string :=
  let* errorData := json response in
  let* detail := member errorData "detail" in
  ret ("IDM-VTON API error: " +:+
       Js.toString (Js.or detail (JStr (resp_statusText response)))).

(** [generateTryOn]: the id of the created prediction. *)
Definition generateTryOn (env : Env) (modelImage clothingImage prompt : string)
  : M JsVal :=
  try_catch
    (let* response := fetch env (ReplicateCreate modelImage clothingImage prompt) in
     if negb (resp_ok response) then
       let* message := replicateError response in
       throwError message
     else
       let* prediction := json response in
       member prediction "id")
    (fun error => throw error).

Definition checkPredictionStatus (env : Env) (predictionId : JsVal)
  : M ProviderStatus :=
  try_catch
    (let* response := fetch env (ReplicateGet predictionId) in
     if negb (resp_ok response) then
       let* message := replicateError response in
       throwError message
     else
       let* prediction := json response in
       let* status := member prediction "status" in
       let* output := member prediction "output" in
       let* error := member prediction "error" in
       ret (mkStatus status output error))
    (fun error => throw error).

(** ** AI Image Combiner adapter ([lib/ai-services/image-combiner.ts]) *)

Definition MAX_TIMEOUT : N := 600000.
Definition POLL_INTERVAL : N := 2000.

(** [v === s] for a string literal [s] *)
Definition isString (s : string) (v : JsVal) : bool :=
  match v with
  | JStr s' => String.eqb s' s
  | _ => false
  end.

(** [base64ToFile]: the promise rejects when [atob] throws. *)
Definition base64ToFile (env : Env) (base64String : string) : M unit :=
  let base64Data :=
    match Js.split "," base64String with
    | _ :: second :: _ => if String.eqb second "" then base64String else second
    | _ => base64String
    end in
  fun w => (match atob env base64Data with
            | Ret _ => Ret tt
            | Throw t => Throw t
            end, w).

Record TempPaths := mkPaths {
  modelPath : option string;
  scenePath : option string
}.

(** [Object.keys(paths).length] *)
Definition keyCount (paths : TempPaths) : nat :=
  length (option_list (modelPath paths)) + length (option_list (scenePath paths)).

Definition uploadImagesToSupabase (env : Env) (modelImage sceneImage : string)
  : M (string * string * TempPaths) :=
  let* t := Date_now in
  let tempId := generateId env t in
  let modelPath := "temp/" +:+ tempId +:+ "-model.jpg" in
  let scenePath := "temp/" +:+ tempId +:+ "-scene.jpg" in
  try_catch
    (do base64ToFile env modelImage in
     do base64ToFile env sceneImage in
     let* modelUpload := uploadImage env "temp-bucket" modelPath in
     let* sceneUpload := uploadImage env "temp-bucket" scenePath in
     match modelUpload, sceneUpload with
     | Some message, _ => throwError ("Failed to upload model image: " +:+ message)
     | None, Some message => throwError ("Failed to upload scene image: " +:+ message)
     | None, None =>
         let* modelUrl := getImageUrl env "temp-bucket" (Some modelPath) in
         let* sceneUrl := getImageUrl env "temp-bucket" (Some scenePath) in
         ret (modelUrl, sceneUrl, mkPaths (Some modelPath) (Some scenePath))
     end)
    (fun error => throw error).

Definition nonEmpty (o : option string) : option string :=
  match o with
  | Some s => if String.eqb s "" then None else Some s
  | None => None
  end.

Definition cleanupTempImages (env : Env) (paths : TempPaths) : M unit :=
  try_catch
    (do match nonEmpty (modelPath paths) with
        | Some p => deleteImage env "temp-bucket" p
        | None => ret tt
        end in
     match nonEmpty (scenePath paths) with
     | Some p => deleteImage env "temp-bucket" p
     | None => ret tt
     end)
    (fun _ => ret tt).

Definition timedOut : string := "Prediction timed out after 10 minutes".

(** One turn of the [while] loop of [pollForResults]: [Some output] when the
    function returns, [None] when the loop goes round again. *)
Definition pollOnce (env : Env) (predictionId : JsVal) : M (option JsVal) :=
  try_catch
    (let* response := fetch env (CombinerGet predictionId) in
     if negb (resp_ok response) then
       let* errorText := text response in
       throwError ("API error: " +:+ pretty (resp_status response) +:+ " " +:+
                   resp_statusText response)
     else
       let* prediction := json response in
       let* status := member prediction "status" in
       do Object_keys prediction in
       if isString "succeeded" status then
         let* output := member prediction "output" in
         ret (Some output)
       else if isString "failed" status then
         let* error := member prediction "error" in
         throwError ("Prediction failed: " +:+
                     Js.toString (Js.or error (JStr "Unknown error")))
       else
         do delay POLL_INTERVAL in
         ret None)
    (fun error => throw error).

(** The loop, by recursion on a number of turns.  Every turn that goes round
    lets [POLL_INTERVAL] pass, so the test on the clock ends the loop within
    [pollTurns] turns and the turn count never runs out first
    ([pollLoop_turns] below). *)
Fixpoint pollLoop (env : Env) (turns : nat) (startTime : N) (predictionId : JsVal)
  : M JsVal :=
  match turns with
  | O => throwError timedOut
  | S turns' =>
      let* t := Date_now in
      if (t - startTime <? MAX_TIMEOUT)%N then
        let* result := pollOnce env predictionId in
        match result with
        | Some output => ret output
        | None => pollLoop env turns' startTime predictionId
        end
      else throwError timedOut
  end.

Definition pollTurns : nat := 301.

Definition pollForResults (env : Env) (predictionId : JsVal) : M JsVal :=
  let* startTime := Date_now in
  pollLoop env pollTurns startTime predictionId.

Definition missingKey : string :=
  "API Market Key is missing. Please check your .env.local file for NEXT_PUBLIC_API_MARKET_KEY.".

Definition hasKey (env : Env) : bool :=
  match nonEmpty (NEXT_PUBLIC_API_MARKET_KEY env) with
  | Some _ => true
  | None => false
  end.

(** The first part of the [try] block of [generateComposite], up to the
    assignment of [tempImagePaths]: the sources the provider is given. *)
Definition prepareSources (env : Env) (figureImage sceneImage : string)
  (useSupabaseUrls : bool) : M (string * string * TempPaths) :=
  if negb (hasKey env) then throwError missingKey
  else if useSupabaseUrls &&
          (Js.startsWith "data:" figureImage || Js.startsWith "data:" sceneImage)
  then uploadImagesToSupabase env figureImage sceneImage
  else ret (figureImage, sceneImage, mkPaths None None).

(** [if (Object.keys(tempImagePaths).length > 0) await cleanupTempImages(..)] *)
Definition cleanupIfAny (env : Env) (tempImagePaths : TempPaths) : M unit :=
  if (0 <? keyCount tempImagePaths)%nat then cleanupTempImages env tempImagePaths
  else ret tt.

(** The message of the error thrown for a response that is not [ok]. *)
Definition combinerError (withTitle : bool) (response : Response)
  : M string :=
  let* errorText := text response in
  let* errorData :=
    try_catch
      (fun w => (resp_json response, w))
      (fun _ => throwError ("AI Image Combiner API error: " +:+
                            resp_statusText response +:+ " - " +:+ errorText)) in
  let* message := member errorData "message" in
  let* error := member errorData "error" in
  let* title := if withTitle then member errorData "title" else ret JUndefined in
  ret ("AI Image Combiner API error: " +:+
       Js.toString (Js.or message (Js.or error
                      (Js.or title (JStr (resp_statusText response)))))).

(** Step 1 and step 2 of [generateComposite]: create the prediction, then
    poll for its result.  [(result, predictionId)]. *)
Definition createAndPoll (env : Env) (figureImageUrl sceneImageUrl prompt : string)
  : M (JsVal * JsVal) :=
  let* response :=
    fetch env (CombinerCreate figureImageUrl sceneImageUrl prompt) in
  if negb (resp_ok response) then
    let* message := combinerError true response in
    throwError message
  else
    let* prediction := json response in
    let* predictionId := member prediction "id" in
    do Object_keys prediction in
    let* result := pollForResults env predictionId in
    ret (result, predictionId).

(** [generateComposite]: [(imageUrl, jobId)].  [tempImagePaths] is assigned
    once, when [uploadImagesToSupabase] has returned; a throw before that
    reaches the [catch] clause with the variable still empty, one after it
    with the paths. *)
Definition generateComposite (env : Env) (figureImage sceneImage prompt : string)
  (useSupabaseUrls : bool) : M (JsVal * JsVal) :=
  let* (figureImageUrl, sceneImageUrl, tempImagePaths) :=
    try_catch (prepareSources env figureImage sceneImage useSupabaseUrls)
              (fun error =>
                 do cleanupIfAny env (mkPaths None None) in
                 throw error) in
  try_catch
    (let* (result, predictionId) :=
       createAndPoll env figureImageUrl sceneImageUrl prompt in
     do cleanupIfAny env tempImagePaths in
     ret (result, predictionId))
    (fun error =>
       do cleanupIfAny env tempImagePaths in
       throw error).

(** [checkJobStatus] *)
Definition checkJobStatus (env : Env) (jobId : JsVal) : M ProviderStatus :=
  try_catch
    (if negb (hasKey env) then throwError missingKey
     else
       let* response := fetch env (CombinerGet jobId) in
       if negb (resp_ok response) then
         let* message := combinerError false response in
         throwError message
       else
         let* prediction := json response in
         let* status := member prediction "status" in
         let* output := member prediction "output" in
         let* error := member prediction "error" in
         ret (mkStatus status output error))
    (fun error => throw error).

(** ** Route handlers: shared vocabulary *)

(** [defaultCorsHeaders] ([utils/corsUtils.ts]) *)
Definition defaultCorsHeaders : list (string * string) :=
  [ ("Access-Control-Allow-Origin", "*");
    ("Access-Control-Allow-Methods", "GET, POST, PUT, DELETE, OPTIONS");
    ("Access-Control-Allow-Headers", "authorization, x-client-info, apikey, content-type");
    ("Access-Control-Max-Age", "86400") ].

Record Reply := mkReply {
  reply_status : Z;
  reply_body : JsVal;
  reply_headers : list (string * string)
}.

(** [corsNextResponse(body, { status })] *)
Definition corsNextResponse (body : JsVal) (status : Z) : Reply :=
  mkReply status body defaultCorsHeaders.

Record PostRequest := mkPost {
  (** [await request.json()] *)
  post_json : Outcome JsVal;
  (** [request.headers.get('x-user-id')] *)
  post_user : option string
}.

Record GetRequest := mkGet {
  (** [url.searchParams.get('id')] *)
  get_id : option string
}.

(** Members of validated data are strings, or [undefined] when optional. *)
Definition stringOf (v : JsVal) : string :=
  match v with
  | JStr s => s
  | _ => ""
  end.

Definition optionOf (v : JsVal) : option string :=
  match v with
  | JStr s => Some s
  | _ => None
  end.

(** A value written to a column: a missing value is stored as [null]. *)
Definition column (v : JsVal) : JsVal :=
  match v with
  | JUndefined => JNull
  | _ => v
  end.

(** The mutable locals of a status check. *)
Record Vars := mkVars {
  newStatus : string;
  progress : Z;
  storagePath : option string;
  error : JsVal
}.

(** [generation.progress || 0] *)
Definition progressOr0 (p : option Z) : Z :=
  match p with
  | Some n => n
  | None => 0
  end.

Definition initialVars (generation : Generation) : Vars :=
  mkVars (g_status generation) (progressOr0 (g_progress generation))
         (g_storage_path generation) (g_error generation).

(** The check on the message of an upload error in both status handlers. *)
Definition bucketIssue (message : string) : bool :=
  negb (String.eqb message "") &&
  (Js.includes "bucket" message || Js.includes "does not exist" message).

Definition storageConfigurationIssue (bucket message : string) : string :=
  "Storage configuration issue: " +:+ message +:+ ". Please ensure the " +:+
  Js.quoted bucket +:+ " bucket exists in your Supabase project.".

Definition failedToStore (message : string) : string :=
  "Failed to store the generated image: " +:+ message.

Definition failedToDownload : string :=
  "Failed to download or process the generated image".

(** The locals after [uploadImage] has returned [uploadError], with
    [storagePath] already assigned: the [if (uploadError)] block. *)
Definition afterUpload (bucket : string) (vars : Vars) (storagePath : string)
  (uploadError : option string) : Vars :=
  match uploadError with
  | Some message =>
      if bucketIssue message then
        mkVars "failed" (progress vars) (Some storagePath)
               (JStr (storageConfigurationIssue bucket message))
      else
        mkVars "failed" (progress vars) (Some storagePath)
               (JStr (failedToStore message))
  | None =>
      mkVars (newStatus vars) (progress vars) (Some storagePath) (error vars)
  end.

(** The locals after the [catch (downloadError)] clause. *)
Definition downloadFailed (vars : Vars) : Vars :=
  mkVars "failed" (progress vars) (storagePath vars) (JStr failedToDownload).

(** The [try]/[catch] around download and upload, the same in both status
    handlers up to the bucket and the file name.  [uploadImage] does not
    throw, so when the [catch] clause runs [storagePath] has not been
    assigned yet. *)
Definition downloadAndStore (env : Env) (bucket prefix generationId : string)
  (imageUrl : JsVal) (vars : Vars) : M Vars :=
  try_catch
    (let* imageResponse := fetch env (Download imageUrl) in
     do blob imageResponse in
     let name := prefix +:+ "-" +:+ generationId +:+ ".png" in
     let* filename := generateUniqueFilename env name in
     let storagePath := generationId +:+ "/" +:+ filename in
     let* uploadError := uploadImage env bucket storagePath in
     ret (afterUpload bucket vars storagePath uploadError))
    (fun downloadError => ret (downloadFailed vars)).

Definition patchOf (env : Env) (vars : Vars) (t : N) : Patch :=
  mkPatch (newStatus vars) (progress vars) (storagePath vars) (error vars)
          (toISOString env t).

(** [supabase.from('generations').update({...}).eq('id', generationId)] with
    [updated_at: new Date().toISOString()] *)
Definition persist (env : Env) (generationId : string) (vars : Vars) : M unit :=
  let* t := Date_now in
  db_update env generationId (patchOf env vars t).

Definition statusError (message : string) : Reply :=
  corsNextResponse
    (Js.object [("error", JStr "Failed to check generation status");
                ("message", JStr message)])
    500.

Definition notFound (env : Env) : Reply :=
  corsNextResponse
    (Js.object [("error", JStr "Generation not found");
                ("message", JStr (if String.eqb (noRowMessage env) ""
                                  then "Unknown error" else noRowMessage env))])
    404.

Definition missingId : Reply :=
  corsNextResponse (Js.object [("error", JStr "Missing generation ID")]) 400.

Definition invalidRequest (issues : list Zod.Issue) : Reply :=
  corsNextResponse
    (Js.object [("error", JStr "Invalid request data");
                ("details", Zod.format issues)])
    400.

(** The body of a status reply. *)
Definition projection (idKey bucket generationId : string) (status : string)
  (progress : Z) (imageUrl : JsVal) (error : JsVal) (generation : Generation)
  (storagePath : option string) (updatedAt : string) : JsVal :=
  Js.object
    [("id", JStr generationId);
     ("status", JStr status);
     ("progress", JNum progress);
     ("imageUrl", imageUrl);
     ("error", error);
     ("debug", Js.object
        [(idKey, g_external_id generation);
         ("storagePath", Js.nullable storagePath);
         ("bucketName", JStr bucket);
         ("metadata", g_metadata generation);
         ("updatedAt", JStr updatedAt)])].

(** ** Try-on route ([app/api/generate-try-on/route.ts]) *)

Module TryOn.

Definition bucketName : string := "try-on-images".

Definition submitError (message : string) : Reply :=
  corsNextResponse
    (Js.object [("error", JStr "Failed to initiate try-on generation");
                ("message", JStr message)])
    500.

Definition missingImages : Reply :=
  corsNextResponse
    (Js.object [("error",
       JStr "Missing image data. Both model and clothing images are required.")])
    400.

Definition metadataOf (modelImageId clothingImageId : JsVal) (prompt : string)
  : JsVal :=
  Js.object [("modelImageId", modelImageId);
             ("clothingImageId", clothingImageId);
             ("prompt", JStr prompt)].

Definition newRow (env : Env) (t : N) (generationId : string) (user : option string)
  (predictionId : JsVal) (metadata : JsVal) : Generation :=
  {| g_id := generationId;
     g_user_id := match nonEmpty user with Some u => u | None => "anonymous" end;
     g_type := "try-on";
     g_status := "processing";
     g_external_id := column predictionId;
     g_storage_path := None;
     g_error := JNull;
     g_progress := None;
     g_metadata := metadata;
     g_created_at := toISOString env t;
     g_updated_at := toISOString env t |}.

Definition accepted (env : Env) (t : N) (generationId : string)
  (modelImageId clothingImageId : JsVal) : Reply :=
  corsNextResponse
    (Js.object
       [("id", JStr generationId);
        ("status", JStr "processing");
        ("message", JStr "Try-on generation has been initiated");
        ("estimatedTimeSeconds", JNum 15);
        ("debug", Js.object
           [("modelImageId", modelImageId);
            ("clothingImageId", clothingImageId);
            ("hasModelImageBase64", JBool true);
            ("hasClothingImageBase64", JBool true);
            ("timestamp", JStr (toISOString env t))])])
    200.

(** The inner [try]/[catch] of [POST]: submit to the provider, then insert
    the record.  [Some reply] is the early return of the [catch] clause. *)
Definition submit (env : Env) (generationId : string) (user : option string)
  (modelImageBase64 clothingImageBase64 prompt : string) (metadata : JsVal)
  : M (option Reply) :=
  try_catch
    (let* predictionId :=
       generateTryOn env modelImageBase64 clothingImageBase64 prompt in
     let* t := Date_now in
     do db_insert env (newRow env t generationId user predictionId metadata) in
     do updateGeneration in
     ret None)
    (fun error =>
       do updateGeneration in
       ret (Some (submitError (messageOr "Unknown error" error)))).

Definition POST (env : Env) (request : PostRequest) : M Reply :=
  try_catch
    (let* body := (fun w => (post_json request, w)) in
     match Zod.safeParse TryOnRequestSchema body with
     | Zod.Failure issues => ret (invalidRequest issues)
     | Zod.Success data =>
         let modelImageId := Js.assoc "modelImageId" data in
         let clothingImageId := Js.assoc "clothingImageId" data in
         let prompt := stringOf (Js.assoc "prompt" data) in
         let* t0 := Date_now in
         let generationId := generateId env t0 in
         do logGeneration in
         let modelImageBase64 := Js.assoc "modelImageBase64" data in
         let clothingImageBase64 := Js.assoc "clothingImageBase64" data in
         if negb (Js.truthy modelImageBase64) || negb (Js.truthy clothingImageBase64)
         then ret missingImages
         else
           let* failure :=
             submit env generationId (post_user request)
                    (stringOf modelImageBase64) (stringOf clothingImageBase64)
                    prompt (metadataOf modelImageId clothingImageId prompt) in
           match failure with
           | Some reply => ret reply
           | None =>
               let* t := Date_now in
               ret (accepted env t generationId modelImageId clothingImageId)
           end
     end)
    (fun error =>
       ret (corsNextResponse
              (Js.object [("error", JStr "Failed to generate try-on image");
                          ("message", JStr (messageOr "Unknown error" error))])
              500)).

Definition possibleProps : list string :=
  ["image"; "url"; "output"; "result"; "generated_image"].

(** The [for] loop over [possibleProps]: the first member that is truthy and
    is a string or a non-empty array decides, and ends the loop. *)
Fixpoint probe (output : JsVal) (props : list string) : JsVal :=
  match props with
  | [] => JNull
  | prop :: rest =>
      let v := Js.get output prop in
      if Js.truthy v then
        match v with
        | JStr _ => v
        | JArr (x :: _) => x
        | _ => probe output rest
        end
      else probe output rest
  end.

(** The value of [imageUrl] after the three cases; it starts as [null]. *)
Definition extractImageUrl (output : JsVal) : JsVal :=
  if Js.truthy output then
    match output with
    | JStr _ => output
    | JArr (x :: _) => x
    | JArr [] | JObj _ => probe output possibleProps
    | _ => JNull
    end
  else JNull.

Definition noOutputImage (output : JsVal) : string :=
  "No output image received from the API. Output format: " +:+ Js.typeof output.

(** [JSON.stringify(output).substring(0, 200)] in the log statement of the
    [succeeded] branch: [JSON.stringify(undefined)] is [undefined]. *)
Definition logOutput (output : JsVal) : M unit :=
  if Js.isUndefined output
  then throwError "Cannot read properties of undefined (reading 'substring')"
  else ret tt.

(** The [if]/[else if]/[else] on the status the provider reports. *)
Definition advance (env : Env) (generationId : string) (generation : Generation)
  (predictionStatus : ProviderStatus) : M Vars :=
  let vars := initialVars generation in
  if isString "succeeded" (ps_status predictionStatus) then
    let vars := mkVars "completed" 100 (storagePath vars) (error vars) in
    do logOutput (ps_output predictionStatus) in
    let imageUrl := extractImageUrl (ps_output predictionStatus) in
    if Js.truthy imageUrl then
      downloadAndStore env bucketName "try-on" generationId imageUrl vars
    else
      ret (mkVars "failed" (progress vars) (storagePath vars)
                  (JStr (noOutputImage (ps_output predictionStatus))))
  else if isString "failed" (ps_status predictionStatus) then
    ret (mkVars "failed" (progress vars) (storagePath vars)
                (Js.or (ps_error predictionStatus) (JStr "Generation failed")))
  else
    ret (mkVars (newStatus vars)
                (if isString "processing" (ps_status predictionStatus) then 50 else 25)
                (storagePath vars) (error vars)).

(** The [if (!imageUrl)] block: a direct public URL as a last resort. *)
Definition lastResort (env : Env) (path : option string) (imageUrl : string)
  : JsVal :=
  if String.eqb imageUrl "" then
    match nonEmpty (NEXT_PUBLIC_SUPABASE_URL env) with
    | Some supabaseUrl =>
        JStr (supabaseUrl +:+ "/storage/v1/object/public/try-on-images/" +:+
              pathString path)
    | None => JStr imageUrl
    end
  else JStr imageUrl.

(** [imageUrl] of a reply: signed when the generation is completed and has a
    storage path. *)
Definition resolveImageUrl (env : Env) (status : string) (path : option string)
  : M JsVal :=
  if String.eqb status "completed" && Js.truthy (Js.nullable path) then
    let* imageUrl := getImageUrl env bucketName path in
    ret (lastResort env path imageUrl)
  else ret JUndefined.

Definition isFinal (status : string) : bool :=
  String.eqb status "completed" || String.eqb status "failed".

(** The reply for a generation found in a final state: stored columns, and
    [progress: 100]. *)
Definition storedReply (generationId : string) (generation : Generation)
  (imageUrl : JsVal) : Reply :=
  corsNextResponse
    (projection "predictionId" bucketName generationId
       (g_status generation) 100 imageUrl (g_error generation)
       generation (g_storage_path generation) (g_updated_at generation))
    200.

(** The reply of a status check that polled: the locals as just persisted. *)
Definition liveReply (env : Env) (generationId : string) (generation : Generation)
  (vars : Vars) (imageUrl : JsVal) (t : N) : Reply :=
  corsNextResponse
    (projection "predictionId" bucketName generationId
       (newStatus vars) (progress vars) imageUrl (error vars)
       generation (storagePath vars) (toISOString env t))
    200.

(** The branch for a generation that is already completed or failed. *)
Definition storedStatus (env : Env) (generationId : string) (generation : Generation)
  : M Reply :=
  let* imageUrl :=
    resolveImageUrl env (g_status generation) (g_storage_path generation) in
  ret (storedReply generationId generation imageUrl).

(** From the update of the record to the reply. *)
Definition finish (env : Env) (generationId : string) (generation : Generation)
  (vars : Vars) : M Reply :=
  do persist env generationId vars in
  do (if String.eqb (newStatus vars) "completed"
      then do getImageUrl env bucketName (storagePath vars) in ret tt
      else ret tt) in
  do updateGeneration in
  let* imageUrl := resolveImageUrl env (newStatus vars) (storagePath vars) in
  let* t := Date_now in
  ret (liveReply env generationId generation vars imageUrl t).

(** The inner [try]/[catch]: poll the provider and advance the record. *)
Definition liveStatus (env : Env) (generationId : string) (generation : Generation)
  : M Reply :=
  try_catch
    (let* predictionStatus :=
       checkPredictionStatus env (g_external_id generation) in
     let* vars := advance env generationId generation predictionStatus in
     finish env generationId generation vars)
    (fun error =>
       do updateGeneration in
       ret (statusError (messageOr "Unknown error" error))).

Definition GET (env : Env) (request : GetRequest) : M Reply :=
  try_catch
    (match nonEmpty (get_id request) with
     | None => ret missingId
     | Some generationId =>
         let* found := db_select env generationId in
         match found with
         | None => ret (notFound env)
         | Some generation =>
             if isFinal (g_status generation)
             then storedStatus env generationId generation
             else liveStatus env generationId generation
         end
     end)
    (fun error => ret (statusError (messageOr "Unknown error" error))).

End TryOn.

(** ** Composite route ([app/api/generate-composite/route.ts]) *)

Module Composite.

Definition bucketName : string := "composite-images".

Definition submitError (message : string) : Reply :=
  corsNextResponse
    (Js.object [("error", JStr "Failed to initiate composite generation");
                ("message", JStr message)])
    500.

Definition missingImages : Reply :=
  corsNextResponse
    (Js.object [("error",
       JStr "Missing image data. Both figure and scene images are required.")])
    400.

Definition metadataOf (figureImageId sceneImageId : JsVal) (prompt : string)
  : JsVal :=
  Js.object [("figureImageId", figureImageId);
             ("sceneImageId", sceneImageId);
             ("prompt", JStr prompt)].

Definition newRow (env : Env) (t : N) (generationId : string) (user : option string)
  (jobId : JsVal) (metadata : JsVal) : Generation :=
  {| g_id := generationId;
     g_user_id := match nonEmpty user with Some u => u | None => "anonymous" end;
     g_type := "composite";
     g_status := "processing";
     g_external_id := column jobId;
     g_storage_path := None;
     g_error := JNull;
     g_progress := None;
     g_metadata := metadata;
     g_created_at := toISOString env t;
     g_updated_at := toISOString env t |}.

Definition accepted (env : Env) (t : N) (generationId : string)
  (figureImageId sceneImageId : JsVal) (prompt : string) : Reply :=
  corsNextResponse
    (Js.object
       [("id", JStr generationId);
        ("status", JStr "processing");
        ("message", JStr "Composite generation has been initiated");
        ("estimatedTimeSeconds", JNum 20);
        ("debug", Js.object
           [("figureImageId", figureImageId);
            ("sceneImageId", sceneImageId);
            ("prompt", JStr prompt);
            ("hasFigureImageBase64", JBool true);
            ("hasSceneImageBase64", JBool true);
            ("timestamp", JStr (toISOString env t))])])
    200.

(** The inner [try]/[catch] of [POST]: submit to the provider, then insert
    the record.  [Some reply] is the early return of the [catch] clause. *)
Definition submit (env : Env) (generationId : string) (user : option string)
  (figureImageBase64 sceneImageBase64 prompt : string) (metadata : JsVal)
  : M (option Reply) :=
  try_catch
    (let* (_, jobId) :=
       generateComposite env figureImageBase64 sceneImageBase64 prompt true in
     let* t := Date_now in
     do db_insert env (newRow env t generationId user jobId metadata) in
     do updateGeneration in
     ret None)
    (fun error =>
       do updateGeneration in
       ret (Some (submitError (messageOr "Unknown error" error)))).

Definition POST (env : Env) (request : PostRequest) : M Reply :=
  try_catch
    (let* body := (fun w => (post_json request, w)) in
     match Zod.safeParse CompositeRequestSchema body with
     | Zod.Failure issues => ret (invalidRequest issues)
     | Zod.Success data =>
         let figureImageId := Js.assoc "figureImageId" data in
         let sceneImageId := Js.assoc "sceneImageId" data in
         let prompt := stringOf (Js.assoc "prompt" data) in
         let* t0 := Date_now in
         let generationId := generateId env t0 in
         do logGeneration in
         let figureImageBase64 := Js.assoc "figureImageBase64" data in
         let sceneImageBase64 := Js.assoc "sceneImageBase64" data in
         if negb (Js.truthy figureImageBase64) || negb (Js.truthy sceneImageBase64)
         then ret missingImages
         else
           let* failure :=
             submit env generationId (post_user request)
                    (stringOf figureImageBase64) (stringOf sceneImageBase64)
                    prompt (metadataOf figureImageId sceneImageId prompt) in
           match failure with
           | Some reply => ret reply
           | None =>
               let* t := Date_now in
               ret (accepted env t generationId figureImageId sceneImageId prompt)
           end
     end)
    (fun error =>
       ret (corsNextResponse
              (Js.object [("error", JStr "Failed to generate composite image");
                          ("message", JStr (messageOr "Unknown error" error))])
              500)).

Definition noOutputImage : string := "No output image received from the API".

Definition isDone (status : string) : bool :=
  String.eqb status "completed" || String.eqb status "succeeded".

(** The [if]/[else if]/[else] on the status the provider reports;
    [jobStatus.imageUrl] is the [output] of the prediction as it came. *)
Definition advance (env : Env) (generationId : string) (generation : Generation)
  (jobStatus : ProviderStatus) : M Vars :=
  let vars := initialVars generation in
  if isString "completed" (ps_status jobStatus) ||
     isString "succeeded" (ps_status jobStatus) then
    let vars := mkVars "completed" 100 (storagePath vars) (error vars) in
    if Js.truthy (ps_output jobStatus) then
      downloadAndStore env bucketName "composite" generationId
                       (ps_output jobStatus) vars
    else
      ret (mkVars "failed" (progress vars) (storagePath vars) (JStr noOutputImage))
  else if isString "failed" (ps_status jobStatus) then
    ret (mkVars "failed" (progress vars) (storagePath vars)
                (Js.or (ps_error jobStatus) (JStr "Generation failed")))
  else
    ret (mkVars (newStatus vars)
                (if isString "processing" (ps_status jobStatus) then 50 else 25)
                (storagePath vars) (error vars)).

(** [(status is completed or succeeded) ? await getImageUrl(..) : undefined] *)
Definition resolveImageUrl (env : Env) (status : string) (path : option string)
  : M JsVal :=
  if isDone status then
    let* imageUrl := getImageUrl env bucketName path in
    ret (JStr imageUrl)
  else ret JUndefined.

Definition isFinal (status : string) : bool :=
  String.eqb status "completed" || String.eqb status "succeeded" ||
  String.eqb status "failed".

(** The reply for a generation found in a final state: stored columns, and
    [progress: 100]. *)
Definition storedReply (generationId : string) (generation : Generation)
  (imageUrl : JsVal) : Reply :=
  corsNextResponse
    (projection "jobId" bucketName generationId
       (g_status generation) 100 imageUrl (g_error generation)
       generation (g_storage_path generation) (g_updated_at generation))
    200.

(** The reply of a status check that polled: the locals as just persisted. *)
Definition liveReply (env : Env) (generationId : string) (generation : Generation)
  (vars : Vars) (imageUrl : JsVal) (t : N) : Reply :=
  corsNextResponse
    (projection "jobId" bucketName generationId
       (newStatus vars) (progress vars) imageUrl (error vars)
       generation (storagePath vars) (toISOString env t))
    200.

(** The branch for a generation that is already in a final state. *)
Definition storedStatus (env : Env) (generationId : string) (generation : Generation)
  : M Reply :=
  let* imageUrl :=
    resolveImageUrl env (g_status generation) (g_storage_path generation) in
  ret (storedReply generationId generation imageUrl).

(** From the update of the record to the reply. *)
Definition finish (env : Env) (generationId : string) (generation : Generation)
  (vars : Vars) : M Reply :=
  do persist env generationId vars in
  do resolveImageUrl env (newStatus vars) (storagePath vars) in
  do updateGeneration in
  let* imageUrl := resolveImageUrl env (newStatus vars) (storagePath vars) in
  let* t := Date_now in
  ret (liveReply env generationId generation vars imageUrl t).

(** The inner [try]/[catch]: poll the provider and advance the record. *)
Definition liveStatus (env : Env) (generationId : string) (generation : Generation)
  : M Reply :=
  try_catch
    (let* jobStatus := checkJobStatus env (g_external_id generation) in
     let* vars := advance env generationId generation jobStatus in
     finish env generationId generation vars)
    (fun error =>
       do updateGeneration in
       ret (statusError (messageOr "Unknown error" error))).

Definition GET (env : Env) (request : GetRequest) : M Reply :=
  try_catch
    (match nonEmpty (get_id request) with
     | None => ret missingId
     | Some generationId =>
         let* found := db_select env generationId in
         match found with
         | None => ret (notFound env)
         | Some generation =>
             if isFinal (g_status generation)
             then storedStatus env generationId generation
             else liveStatus env generationId generation
         end
     end)
    (fun error => ret (statusError (messageOr "Unknown error" error))).

End Composite.

(** ** Image checks ([utils/image-processing.ts]) *)

Module ImageProcessing.

(** [{ valid, error? }] *)
Record Verdict := mkVerdict { valid : bool; error : option string }.

(** What the checks read of a [File]; [file_image] is what loading it as an
    image gives: its width and height, or nothing when the load fails. *)
Record File := mkFile {
  file_name : string;
  file_type : string;
  file_size : Z;
  file_lastModified : Z;
  file_image : option (Z * Z)
}.

Definition validateImageDimensions
  (width height minWidth minHeight maxWidth maxHeight : Z) : Verdict :=
  if (width <? minWidth) || (height <? minHeight) then
    mkVerdict false
      (Some ("Image dimensions too small. Minimum size is " +:+ pretty minWidth +:+
             "x" +:+ pretty minHeight +:+ " pixels."))
  else if (width >? maxWidth) || (height >? maxHeight) then
    mkVerdict false
      (Some ("Image dimensions too large. Maximum size is " +:+ pretty maxWidth +:+
             "x" +:+ pretty maxHeight +:+ " pixels."))
  else mkVerdict true None.

Definition validateImageFileSize (fileSize maxSizeInMB : Z) : Verdict :=
  let maxSizeInBytes := maxSizeInMB * 1024 * 1024 in
  if fileSize >? maxSizeInBytes then
    mkVerdict false
      (Some ("File size exceeds the maximum limit of " +:+ pretty maxSizeInMB +:+ "MB."))
  else mkVerdict true None.

(** [getImageDimensions]: resolves with the size of the loaded image,
    rejects when the image does not load. *)
Definition getImageDimensions (file : File) : Outcome (Z * Z) :=
  match file_image file with
  | Some dimensions => Ret dimensions
  | None => Throw (ThrownError "Failed to load image")
  end.

Record Metadata := mkMetadata {
  dimensions : Z * Z;
  size : Z;
  type : string;
  lastModified : Z
}.

Definition extractImageMetadata (file : File) : Outcome Metadata :=
  match getImageDimensions file with
  | Ret dimensions =>
      Ret (mkMetadata dimensions (file_size file) (file_type file)
                      (file_lastModified file))
  | Throw t => Throw t
  end.

Record Options := mkOptions {
  minWidth : Z;
  minHeight : Z;
  maxWidth : Z;
  maxHeight : Z;
  maxSizeInMB : Z;
  allowedTypes : list string
}.

(** The default value of the [options] parameter. *)
Definition defaultOptions : Options :=
  mkOptions 256 256 4096 4096 10 ["image/jpeg"; "image/png"; "image/svg+xml"].

(** [list.includes(s)] *)
Definition includes (s : string) (list : list string) : bool :=
  existsb (String.eqb s) list.

Definition validateImageForAI (file : File) (options : Options) : Verdict :=
  if negb (includes (file_type file) (allowedTypes options)) then
    mkVerdict false
      (Some ("Invalid file type. Allowed types: " +:+
             Js.join ", " (allowedTypes options)))
  else
    let sizeValidation :=
      validateImageFileSize (file_size file) (maxSizeInMB options) in
    if negb (valid sizeValidation) then sizeValidation
    else
      match getImageDimensions file with
      | Ret (width, height) =>
          let dimensionValidation :=
            validateImageDimensions width height
              (minWidth options) (minHeight options)
              (maxWidth options) (maxHeight options) in
          if negb (valid dimensionValidation) then dimensionValidation
          else mkVerdict true None
      | Throw _ => mkVerdict false (Some "Failed to validate image dimensions")
      end.

End ImageProcessing.

(** ** Image helpers of the pages ([utils/imageUtils.ts]) *)

Module ImageUtils.

(** [validateImageFile]: [true], or the thrown error. *)
Definition validateImageFile (file : ImageProcessing.File) : Outcome bool :=
  let validTypes :=
    ["image/jpeg"; "image/png"; "image/svg+xml"; "image/webp"; "image/gif"] in
  if negb (ImageProcessing.includes (ImageProcessing.file_type file) validTypes) then
    Throw (ThrownError "File must be an image (JPEG, PNG, SVG, WEBP, or GIF)")
  else
    let maxSize := 10 * 1024 * 1024 in
    if ImageProcessing.file_size file >? maxSize then
      Throw (ThrownError "Image size must be less than 10MB")
    else Ret true.

Definition getImageTypeLabel (type : string) : string :=
  if String.eqb type "scene" then "Background Scene"
  else if String.eqb type "model" then "Person/Model"
  else if String.eqb type "clothing" then "Clothing Item"
  else if String.eqb type "generated" then "Generated Result"
  else "Image".

(** What is thrown at an [await]: an [Error] with its message, or another
    value with what [String] makes of it. *)
Inductive Rejection :=
| RejectedError (message : string)
| RejectedOther (asString : string).

(** What [FileReader.readAsDataURL] ends with: [reader.result] as a string,
    a result that is not a string, or the error event. *)
Inductive Read :=
| ReadString (result : string)
| ReadOther
| ReadFailed.

(** The page the helpers run in, if any: [isBrowser()], and what fetching a
    blob URL and reading the blob give. *)
Record Browser := mkBrowser {
  isBrowser : bool;
  fetchBlob : string -> Rejection + Read
}.

(** [blobUrlToBase64].  The promise of the reader is returned, not awaited,
    inside the [try]: its rejections pass the [catch] clause by. *)
Definition blobUrlToBase64 (browser : Browser) (blobUrl : string) : Outcome string :=
  let failed (message : string) : Outcome string :=
    Throw (ThrownError ("Failed to convert image: " +:+ message)) in
  if Js.startsWith "data:" blobUrl then Ret blobUrl
  else if negb (isBrowser browser) then
    failed "Cannot convert blob URLs in a server context. Convert to base64 on the client before sending to the server."
  else if negb (Js.startsWith "blob:" blobUrl) then Ret blobUrl
  else
    match fetchBlob browser blobUrl with
    | inl (RejectedError message) => failed message
    | inl (RejectedOther asString) => failed asString
    | inr (ReadString result) => Ret result
    | inr ReadOther => Throw (ThrownError "Failed to convert blob to base64")
    | inr ReadFailed => Throw ThrownOther
    end.

Definition ensureBase64ForServer (browser : Browser) (imageUrl : string)
  : Outcome string :=
  if Js.startsWith "data:" imageUrl then Ret imageUrl
  else if Js.startsWith "blob:" imageUrl then blobUrlToBase64 browser imageUrl
  else Ret imageUrl.

End ImageUtils.

(** ** CORS helpers ([utils/corsUtils.ts]) and the middleware ([middleware.ts])

    [Headers] is an interface of the platform.  What is modelled of it: names
    match without regard to case, so a header list is a finite map from the
    name in lower case to the value; [set] strips the white space around the
    value and throws a [TypeError] when the name is no token or the value
    holds a NUL, a line feed or a carriage return. *)

Module Cors.

Definition Headers : Type := gmap string string.

Definition lowerChar (c : ascii) : ascii :=
  let n := nat_of_ascii c in
  if (65 <=? n)%nat && (n <=? 90)%nat then ascii_of_nat (n + 32) else c.

Fixpoint lower (s : string) : string :=
  match s with
  | EmptyString => EmptyString
  | String c rest => String (lowerChar c) (lower rest)
  end.

Definition isTokenChar (c : ascii) : bool :=
  let n := nat_of_ascii c in
  ((48 <=? n) && (n <=? 57) || (65 <=? n) && (n <=? 90) ||
   (97 <=? n) && (n <=? 122))%nat ||
  existsb (Ascii.eqb c)
    ["!"; "#"; "$"; "%"; "&"; "'"; "*"; "+"; "-"; "."; "^"; "_"; "`"; "|"; "~"]%char.

Fixpoint allChars (p : ascii -> bool) (s : string) : bool :=
  match s with
  | EmptyString => true
  | String c rest => p c && allChars p rest
  end.

Definition validName (name : string) : bool :=
  negb (String.eqb name "") && allChars isTokenChar name.

Definition isWhitespace (c : ascii) : bool :=
  let n := nat_of_ascii c in
  ((n =? 9) || (n =? 10) || (n =? 13) || (n =? 32))%nat.

Fixpoint stripLeading (s : string) : string :=
  match s with
  | EmptyString => EmptyString
  | String c rest => if isWhitespace c then stripLeading rest else s
  end.

Definition normalize (value : string) : string :=
  String.rev (stripLeading (String.rev (stripLeading value))).

Definition validValue (value : string) : bool :=
  allChars (fun c => let n := nat_of_ascii c in
                     negb ((n =? 0) || (n =? 10) || (n =? 13))%nat) value.

(** [headers.set(name, value)]; [None] when it throws. *)
Definition set (name value : string) (headers : Headers) : option Headers :=
  if validName name && validValue (normalize value)
  then Some (<[lower name := normalize value]> headers)
  else None.

(** [headers.get(name)] *)
Definition get (name : string) (headers : Headers) : option string :=
  headers !! lower name.

(** [Object.entries(object).forEach(([key, value]) => headers.set(key, value))],
    with the entries in the order of [Object.entries]; the headers set before
    a throw stay set. *)
Fixpoint setAll (entries : list (string * string)) (headers : Headers)
  : option unit * Headers :=
  match entries with
  | [] => (Some tt, headers)
  | (key, value) :: rest =>
      match set key value headers with
      | Some headers' => setAll rest headers'
      | None => (None, headers)
      end
  end.

Record Response (Body : Type) := mkResponse {
  status : Z;
  statusText : string;
  headers : Headers;
  body : Body
}.

Arguments mkResponse {Body}.
Arguments status {Body}.
Arguments statusText {Body}.
Arguments headers {Body}.
Arguments body {Body}.

(** The header list the platform builds from [defaultCorsHeaders]. *)
Definition defaultHeaders : Headers := snd (setAll defaultCorsHeaders ∅).

(** [handleCorsPreflightRequest]: no body. *)
Definition handleCorsPreflightRequest : Response unit :=
  mkResponse 204 "" defaultHeaders tt.

(** The two loops that both helpers run on a header list. *)
Definition withCors (customHeaders : option (list (string * string)))
  (headers : Headers) : option unit * Headers :=
  match setAll defaultCorsHeaders headers with
  | (Some _, headers') =>
      match customHeaders with
      | Some custom => setAll custom headers'
      | None => (Some tt, headers')
      end
  | failed => failed
  end.

(** [addCorsHeadersToNextResponse]: the headers of the response it was given
    are changed in place, so the response is as changed also when a [set]
    throws; the first component says whether the call returned. *)
Definition addCorsHeadersToNextResponse {Body} (response : Response Body)
  (customHeaders : option (list (string * string)))
  : option unit * Response Body :=
  let (returned, newHeaders) := withCors customHeaders (headers response) in
  (returned,
   mkResponse (status response) (statusText response) newHeaders (body response)).

(** What the middleware reads of the request. *)
Record MiddlewareRequest := mkMiddlewareRequest {
  method : string;
  pathname : string
}.

(** The middleware answers itself, or lets the request through with the
    response of [NextResponse.next()]. *)
Inductive Handled :=
| Answered (response : Response unit)
| Passed (response : Response unit).

(** [middleware]; [next] is what [NextResponse.next()] gives. *)
Definition middleware (next : Response unit) (req : MiddlewareRequest) : Handled :=
  if String.eqb (method req) "OPTIONS" && Js.startsWith "/api/" (pathname req) then
    Answered handleCorsPreflightRequest
  else if Js.startsWith "/api/" (pathname req) then
    Passed (snd (addCorsHeadersToNextResponse next None))
  else Passed next.

End Cors.

(** ** The API test script ([part_009]) *)

Module TestScript.

(** The object that [testTryOnGeneration] sends as the body of its POST. *)
Definition tryOnBody (modelImageId clothingImageId : string) : list (string * JsVal) :=
  [("modelImageId", JStr modelImageId); ("clothingImageId", JStr clothingImageId)].

(** The object that [testCompositeGeneration] sends. *)
Definition compositeBody (tryOnImageId sceneImageId prompt : string)
  : list (string * JsVal) :=
  [("tryOnImageId", JStr tryOnImageId); ("sceneImageId", JStr sceneImageId);
   ("prompt", JStr prompt)].

Section Poll.

(** The type of a status and its [status] member. *)
Context {T : Type} (statusOf : T -> string).

(** [status.status === 'completed' || status.status === 'failed'] *)
Definition final (status : T) : bool :=
  String.eqb (statusOf status) "completed" || String.eqb (statusOf status) "failed".

Definition didNotComplete (maxAttempts : Z) : string :=
  "Generation did not complete after " +:+ pretty maxAttempts +:+ " polling attempts".

(** The [while] loop of [pollGenerationStatus], by recursion on the turns
    that [attempts < maxAttempts] leaves.  [checkStatusFn] is a function of
    the caller: [checkStatusFn id k] is what its call number [k] (from 0)
    gives.  The result comes with the number of calls made. *)
Fixpoint pollFrom (turns : nat) (attempts : nat) (generationId : string)
  (checkStatusFn : string -> nat -> Outcome T) (maxAttempts : Z)
  : Outcome T * nat :=
  match turns with
  | O => (Throw (ThrownError (didNotComplete maxAttempts)), attempts)
  | S turns' =>
      match checkStatusFn generationId attempts with
      | Ret status =>
          if final status then (Ret status, S attempts)
          else pollFrom turns' (S attempts) generationId checkStatusFn maxAttempts
      | Throw error => (Throw error, S attempts)
      end
  end.

(** [pollGenerationStatus]; the interval only sets how long the function
    waits between two calls. *)
Definition pollGenerationStatus (generationId : string)
  (checkStatusFn : string -> nat -> Outcome T) (maxAttempts : Z)
  : Outcome T * nat :=
  pollFrom (Z.to_nat maxAttempts) 0 generationId checkStatusFn maxAttempts.

End Poll.

End TestScript.

(** ** Scenarios

    Concrete environments, rows and requests on which the handlers are run. *)

Module Scenario.

Definition okJson (v : JsVal) : Response :=
  mkResponse true 200 "OK" "" (Ret v) None.

Definition prediction (status : string) (output : JsVal) (error : JsVal) : JsVal :=
  JObj [("id", JStr "pred-1"); ("status", JStr status); ("output", output);
        ("error", error)].

Definition unreachable : Outcome Response := Throw (ThrownError "fetch failed").

(** A deployment whose provider answers as [respond] says; uploads, signing
    and deletion succeed, and a signed URL carries a token of its instant. *)
Definition deployment (respond : N -> Request -> Outcome Response) : Env :=
  {| NEXT_PUBLIC_SUPABASE_URL := Some "https://project.supabase.co";
     NEXT_PUBLIC_API_MARKET_KEY := Some "market-key";
     generateId := fun t => "gen-" +:+ pretty t;
     toISOString := fun t => pretty t;
     random36 := fun _ => "0.k3j9x2m7qp";
     atob := fun s => Ret s;
     http := respond;
     latency := fun _ => 7%N;
     storage_upload := fun _ _ _ => StorageOk tt;
     storage_createSignedUrl := fun t bucket path =>
       StorageOk ("https://project.supabase.co/storage/v1/object/sign/" +:+
                  bucket +:+ "/" +:+ pathString path +:+ "?token=" +:+ pretty t);
     storage_remove := fun _ _ _ => StorageOk tt;
     noRowMessage := "JSON object requested, multiple (or no) rows returned" |}.

Definition row (id type status : string) (path : option string) (error : JsVal)
  (progress : option Z) : Generation :=
  {| g_id := id; g_user_id := "anonymous"; g_type := type; g_status := status;
     g_external_id := JStr "pred-1"; g_storage_path := path; g_error := error;
     g_progress := progress;
     g_metadata := JObj [("prompt", JStr "A person wearing clothing")];
     g_created_at := "0"; g_updated_at := "0" |}.

Definition processing (id type : string) : Generation :=
  row id type "processing" None JNull None.

Definition world (rows : list Generation) : World :=
  {| db := list_to_map (map (fun g => (g_id g, g)) rows);
     objects := ∅; now := 1000%N; trace := [] |}.

(** A Replicate-style provider that reports [status] with [output]; a
    download is served when its input, as a string, is an https URL. *)
Definition reports (status : string) (output error : JsVal)
  : N -> Request -> Outcome Response :=
  fun _ req =>
    match req with
    | ReplicateGet _ | CombinerGet _ => Ret (okJson (prediction status output error))
    | ReplicateCreate _ _ _ | CombinerCreate _ _ _ =>
        Ret (okJson (prediction "starting" JNull JNull))
    | Download input =>
        if Js.startsWith "https://" (Js.toString input)
        then Ret (mkResponse true 200 "OK" "" (Throw (ThrownError "Unexpected token")) None)
        else Throw (ThrownError "Failed to parse URL")
    end.

Definition get (id : string) : GetRequest := mkGet (Some id).

(** Request bodies with inline image data and the given [prompt] member. *)
Definition tryOnBody (prompt : JsVal) : list (string * JsVal) :=
  [("modelImageBase64", JStr "data:image/png;base64,iVBORw0KGgo=");
   ("clothingImageBase64", JStr "data:image/png;base64,R0lGODlhAQ==");
   ("modelImageId", JStr "model-1");
   ("prompt", prompt)].

Definition compositeBody (prompt : JsVal) : list (string * JsVal) :=
  [("figureImageBase64", JStr "data:image/png;base64,iVBORw0KGgo=");
   ("sceneImageBase64", JStr "data:image/png;base64,R0lGODlhAQ==");
   ("sceneImageId", JStr "scene-1");
   ("prompt", prompt)].

(** A prompt of [n] characters. *)
Fixpoint filler (n : nat) : string :=
  match n with
  | O => EmptyString
  | S k => String "a" (filler k)
  end.

(** A deployment whose provider cannot be reached. *)
Definition offline : Env := deployment (fun _ _ => unreachable).

(** A provider that turns the submission down with a JSON error body. *)
Definition rejecting : Env :=
  deployment (fun _ req =>
    match req with
    | ReplicateCreate _ _ _ | CombinerCreate _ _ _ =>
        Ret (mkResponse false 422 "Unprocessable Entity" "{ message }"
               (Ret (JObj [("message", JStr "Invalid input");
                           ("detail", JStr "Invalid input")])) None)
    | _ => unreachable
    end).

Definition tryOnRequest : PostRequest :=
  mkPost (Ret (JObj (tryOnBody (JStr "A person wearing a red jacket")))) None.

Definition compositeRequest : PostRequest :=
  mkPost (Ret (JObj (compositeBody (JStr "Standing in a park at noon")))) None.

(** A combiner whose job is still running until the instant [done]. *)
Definition finishingAt (done : N) : Env :=
  deployment (fun t req =>
    match req with
    | CombinerGet _ =>
        if (t <? done)%N
        then Ret (okJson (prediction "processing" JNull JNull))
        else Ret (okJson (prediction "succeeded" (JStr "https://cdn/out.png") JNull))
    | CombinerCreate _ _ _ => Ret (okJson (prediction "starting" JNull JNull))
    | _ => unreachable
    end).

(** A Replicate that accepts the submission. *)
Definition accepting : Env :=
  deployment (fun _ req =>
    match req with
    | ReplicateCreate _ _ _ => Ret (okJson (prediction "starting" JNull JNull))
    | _ => unreachable
    end).

(** A Replicate whose prediction is processing until the instant [until],
    and canceled from then on. *)
Definition canceledAt (until : N) : Env :=
  deployment (fun t req =>
    match req with
    | ReplicateGet _ =>
        if (t <? until)%N
        then Ret (okJson (prediction "processing" JNull JNull))
        else Ret (okJson (prediction "canceled" JNull JNull))
    | _ => unreachable
    end).

(** A generation that an earlier status check found starting. *)
Definition started (id type : string) : Generation :=
  row id type "processing" None JNull (Some 25).

(** A provider whose job has succeeded with a single URL as output. *)
Definition succeeding : Env :=
  deployment (reports "succeeded" (JStr "https://cdn/out.png") JNull).

(** A completed try-on generation with its stored image. *)
Definition completed : Generation :=
  row "g1" "try-on" "completed" (Some "g1/1-a.png") JNull (Some 100).

(** A failed generation. *)
Definition failed : Generation :=
  row "g3" "try-on" "failed" None (JStr "face not detected") (Some 25).

(** The deployment [env] with a storage that answers every upload with
    [reply]. *)
Definition withUploads (reply : StorageReply unit) (env : Env) : Env :=
  {| NEXT_PUBLIC_SUPABASE_URL := NEXT_PUBLIC_SUPABASE_URL env;
     NEXT_PUBLIC_API_MARKET_KEY := NEXT_PUBLIC_API_MARKET_KEY env;
     generateId := generateId env;
     toISOString := toISOString env;
     random36 := random36 env;
     atob := atob env;
     http := http env;
     latency := latency env;
     storage_upload := fun _ _ _ => reply;
     storage_createSignedUrl := storage_createSignedUrl env;
     storage_remove := storage_remove env;
     noRowMessage := noRowMessage env |}.

(** The job has succeeded, and the project has no bucket for its output. *)
Definition missingBucket : Env :=
  withUploads (StorageError "Bucket not found") succeeding.

(** The job has succeeded, and the storage is out of quota. *)
Definition fullStorage : Env :=
  withUploads (StorageError "Quota exceeded") succeeding.

(** The job has succeeded with [output]. *)
Definition done (output : JsVal) : Env :=
  deployment (reports "succeeded" output JNull).

(** The job has succeeded, and its output cannot be fetched. *)
Definition goneOutput : Env :=
  deployment (fun _ req =>
    match req with
    | ReplicateGet _ | CombinerGet _ =>
        Ret (okJson (prediction "succeeded" (JStr "https://cdn/out.png") JNull))
    | _ => unreachable
    end).

(** The deployment [env] with a storage that answers every removal with
    [reply]. *)
Definition withRemovals (reply : StorageReply unit) (env : Env) : Env :=
  {| NEXT_PUBLIC_SUPABASE_URL := NEXT_PUBLIC_SUPABASE_URL env;
     NEXT_PUBLIC_API_MARKET_KEY := NEXT_PUBLIC_API_MARKET_KEY env;
     generateId := generateId env;
     toISOString := toISOString env;
     random36 := random36 env;
     atob := atob env;
     http := http env;
     latency := latency env;
     storage_upload := storage_upload env;
     storage_createSignedUrl := storage_createSignedUrl env;
     storage_remove := fun _ _ _ => reply;
     noRowMessage := noRowMessage env |}.

(** The combiner finishes, and the store refuses every removal. *)
Definition refusing : Env :=
  withRemovals (StorageError "permission denied") (finishingAt 1050).

(** The combiner finishes, and every removal throws. *)
Definition unreachableStore : Env :=
  withRemovals (StorageThrows (ThrownError "fetch failed")) (finishingAt 1050).

(** Inline image data, and what [generateComposite] prepares from it in an
    empty world. *)
Definition figure : string := "data:image/png;base64,iVBORw0KGgo=".
Definition scene : string := "data:image/png;base64,R0lGODlhAQ==".

Definition prepared (env : Env) : Outcome (string * string * TempPaths) * World :=
  prepareSources env figure scene true (world []).

Definition sources (env : Env) : string * string * TempPaths :=
  match fst (prepared env) with
  | Ret found => found
  | Throw _ => ("", "", mkPaths None None)
  end.

End Scenario.

(** ** Vocabulary of the statements *)

(** What [getImageUrl] returns when the signing call answers [out]. *)
Definition imageUrlFor (env : Env) (bucket : string) (path : option string)
  (out : StorageReply string) : string :=
  match out with
  | StorageOk url => url
  | _ => getPublicUrl env bucket path
  end.

(** The events a computation added to the trace. *)
Definition newEvents (w w' : World) : list Event :=
  drop (length (trace w)) (trace w').

(** The body of the reply a handler returned. *)
Definition bodyOf (r : Outcome Reply * World) : JsVal :=
  match fst r with
  | Ret reply => reply_body reply
  | Throw _ => JUndefined
  end.

(** The HTTP status of the reply a handler returned. *)
Definition statusOf (r : Outcome Reply * World) : Z :=
  match fst r with
  | Ret reply => reply_status reply
  | Throw _ => 0
  end.

(** A poll of the combiner for prediction [id] that was answered with the
    status "succeeded". *)
Definition succeededPoll (id : JsVal) (e : Event) : Prop :=
  exists resp prediction,
    e = EvFetch (CombinerGet id) (Ret resp) /\
    resp_json resp = Ret prediction /\
    Js.get prediction "status" = JStr "succeeded".

(** The statuses the combiner answered to the polls of a trace, in order. *)
Definition pollAnswers (evs : list Event) : list JsVal :=
  flat_map (fun e =>
    match e with
    | EvFetch (CombinerGet _) (Ret r) =>
        match resp_json r with
        | Ret prediction => [Js.get prediction "status"]
        | Throw _ => []
        end
    | _ => []
    end) evs.

(** The value a computation returned, [d] when it threw. *)
Definition valueOr {A} (d : A) (r : Outcome A * World) : A :=
  match fst r with
  | Ret a => a
  | Throw _ => d
  end.

Definition isSign (e : Event) : bool :=
  match e with
  | EvSign _ _ _ => true
  | _ => false
  end.

(** The coarse estimate of a status check that finds the job running. *)
Definition estimate (status : JsVal) : Z :=
  if isString "processing" status then 50 else 25.

(** What the downloads among [evs] were asked to fetch. *)
Definition downloaded (evs : list Event) : list JsVal :=
  omap (fun e => match e with
                 | EvFetch (Download input) _ => Some input
                 | _ => None
                 end) evs.

(** The removals among the calls [evs], in order. *)
Definition removals (evs : list Event) : list (string * string) :=
  omap (fun e => match e with
                 | EvRemove bucket path _ => Some (bucket, path)
                 | _ => None
                 end) evs.

(** The download of the output did not deliver its bytes. *)
Definition downloadFails (out : Outcome Response) : bool :=
  match out with
  | Throw _ => true
  | Ret r => match resp_bodyError r with Some _ => true | None => false end
  end.

(** The [error] that [uploadImage] returns for a reply of the storage
    client. *)
Definition uploadErrorOf (bucket : string) (out : StorageReply unit)
  : option string :=
  match out with
  | StorageOk _ => None
  | StorageError message =>
      if bucketMissing message then
        Some ("Upload failed. Please ensure the " +:+ Js.quoted bucket +:+
              " bucket exists in your Supabase project and has proper permissions.")
      else Some message
  | StorageThrows t => Some (messageOr "Unknown error during upload" t)
  end.

Definition isStoredRead (e : Event) : bool :=
  match e with
  | EvSelect _ | EvSign _ _ _ => true
  | _ => false
  end.

(** ** Validation boundaries *)

(** A member that carries image data: a non-empty string. *)
Definition imageData (k : string) (fields : list (string * JsVal)) : bool :=
  match Js.assoc k fields with
  | JStr s => negb (String.eqb s "")
  | _ => false
  end.

(** An optional identifier: absent, or a string. *)
Definition optionalId (k : string) (fields : list (string * JsVal)) : bool :=
  match Js.assoc k fields with
  | JUndefined | JStr _ => true
  | _ => false
  end.

Definition tryOnMembers (fields : list (string * JsVal)) : bool :=
  imageData "modelImageBase64" fields && imageData "clothingImageBase64" fields &&
  optionalId "modelImageId" fields && optionalId "clothingImageId" fields.

Definition compositeMembers (fields : list (string * JsVal)) : bool :=
  imageData "figureImageBase64" fields && imageData "sceneImageBase64" fields &&
  optionalId "figureImageId" fields && optionalId "sceneImageId" fields.

(** The prompt a well-formed try-on request is processed with: its own when
    it has 5 to 1000 characters, the default when it has none. *)
Definition validTryOn (fields : list (string * JsVal)) : option string :=
  if tryOnMembers fields then
    match Js.assoc "prompt" fields with
    | JUndefined => Some "A person wearing clothing"
    | JStr p =>
        if ((5 <=? String.length p) && (String.length p <=? 1000))%nat
        then Some p else None
    | _ => None
    end
  else None.

(** The prompt of a well-formed composite request, of 10 to 1000 characters. *)
Definition validComposite (fields : list (string * JsVal)) : option string :=
  if compositeMembers fields then
    match Js.assoc "prompt" fields with
    | JStr p =>
        if ((10 <=? String.length p) && (String.length p <=? 1000))%nat
        then Some p else None
    | _ => None
    end
  else None.

Definition tooShortTryOn : Zod.Issue :=
  Zod.mkIssue "prompt" "Please provide a descriptive prompt (at least 5 characters)".

Definition tooShortComposite : Zod.Issue :=
  Zod.mkIssue "prompt" "Please provide a detailed prompt (at least 10 characters)".

Definition tooLong : Zod.Issue :=
  Zod.mkIssue "prompt" "Prompt is too long (maximum 1000 characters)".

Definition isFailure (r : Zod.SafeParse) : bool :=
  match r with
  | Zod.Failure _ => true
  | Zod.Success _ => false
  end.

Definition issuesOf (r : Zod.SafeParse) : list Zod.Issue :=
  match r with
  | Zod.Failure issues => issues
  | Zod.Success _ => []
  end.

Definition dataOf (r : Zod.SafeParse) : list (string * JsVal) :=
  match r with
  | Zod.Failure _ => []
  | Zod.Success data => data
  end.

(** ** Vocabulary of the proofs *)

(** The checks of a prompt: at least [n] characters, at most 1000. *)
Definition promptChecks (n : nat) (short : string) : list Zod.StringCheck :=
  [Zod.min n short; Zod.max 1000 "Prompt is too long (maximum 1000 characters)"].

(** A rejected request is answered with status 400 and the issues, and the
    handler stops there: no call is made and the world is as it was. *)
Definition rejected (post : Env -> PostRequest -> M Reply) (schema : Zod.Shape)
  (fields : list (string * JsVal)) (issue : Zod.Issue) : Prop :=
  In issue (issuesOf (Zod.safeParse schema (JObj fields))) /\
  forall env user w,
    post env (mkPost (Ret (JObj fields)) user) w =
    (Ret (invalidRequest (issuesOf (Zod.safeParse schema (JObj fields)))), w) /\
    reply_status (invalidRequest (issuesOf (Zod.safeParse schema (JObj fields)))) = 400%Z.

(** A request that passes validation, with the prompt the handler goes on
    with. *)
Definition passes (schema : Zod.Shape) (fields : list (string * JsVal))
  (prompt : string) : Prop :=
  isFailure (Zod.safeParse schema (JObj fields)) = false /\
  Js.assoc "prompt" (dataOf (Zod.safeParse schema (JObj fields))) = JStr prompt.

(** [w'] comes from [w] by calls of kind [P]; the record store is kept when
    [rows] is set, the stored objects when [keep] is set. *)
Definition only (P : Event -> bool) (rows keep : bool) (w w' : World) : Prop :=
  (rows = true -> db w' = db w) /\
  (keep = true -> objects w' = objects w) /\
  exists evs, trace w' = (trace w ++ evs)%list /\ forallb P evs = true.

(** Every run of [m] relates the world it ends in to the one it starts
    from. *)
Definition respects {A} (R : World -> World -> Prop) (m : M A) : Prop :=
  forall w, R w (snd (m w)).

(** The calls of the download-and-store step. *)
Definition isStorageCall (e : Event) : bool :=
  match e with
  | EvFetch (Download _) _ | EvUpload _ _ _ | EvListBuckets => true
  | _ => false
  end.

Definition notRecordWrite (e : Event) : bool := negb (isRecordWrite e).

Definition anyEvent (e : Event) : bool := true.

(** What both [finish] functions come to. *)
Definition finished (env : Env) (reply : JsVal -> N -> Reply) (id : string) (vars : Vars)
  (done : bool) (w : World) (r : Outcome Reply * World) : Prop :=
  exists imageUrl signs w',
    r = (Ret (reply imageUrl (now w')), w') /\
    db w' = db (snd (persist env id vars w)) /\
    objects w' = objects w /\
    trace w' = (trace w ++ EvUpdate id (patchOf env vars (now w)) :: signs)%list /\
    forallb isSign signs = true /\
    (done = false -> imageUrl = JUndefined /\ signs = []).

(** What [downloadAndStore] comes to: it returns, its first call is the
    download of [imageUrl], the progress is kept, and a failed download or a
    failed upload decides the locals. *)
Definition stored (bucket : string) (imageUrl : JsVal) (vars : Vars) (w : World)
  (r : Outcome Vars * World) : Prop :=
  exists vars' out rest w',
    r = (Ret vars', w') /\
    db w' = db w /\
    trace w' = (trace w ++ EvFetch (Download imageUrl) out :: rest)%list /\
    forallb isStorageCall (EvFetch (Download imageUrl) out :: rest) = true /\
    progress vars' = progress vars /\
    (newStatus vars' = newStatus vars \/ newStatus vars' = "failed") /\
    (forall u out', In (EvFetch (Download u) out') (EvFetch (Download imageUrl) out :: rest) ->
       downloadFails out' = true -> vars' = downloadFailed vars) /\
    (forall b p out' m, In (EvUpload b p out') rest ->
       uploadErrorOf b out' = Some m ->
       b = bucket /\ vars' = afterUpload bucket vars p (Some m)).

(** What a status check comes to once the poll has returned and the locals
    are [vars]: the record is updated with them and the reply is built from
    them. *)
Definition advanced (env : Env) (reply : JsVal -> N -> Reply) (id : string) (g : Generation)
  (vars : Vars) (done : bool) (w w2 : World) (r : Outcome Reply * World) : Prop :=
  exists imageUrl signs w',
    r = (Ret (reply imageUrl (now w')), w') /\
    db w' = <[id := applyPatch (patchOf env vars (now w2)) g]> (db w) /\
    objects w' = objects w2 /\
    trace w' = (trace w2 ++ EvUpdate id (patchOf env vars (now w2)) :: signs)%list /\
    forallb isSign signs = true /\
    (done = false -> imageUrl = JUndefined /\ signs = []).

(** The locals after [newStatus = 'completed'; progress = 100]. *)
Definition succeededVars (g : Generation) : Vars :=
  mkVars "completed" 100 (g_storage_path g) (g_error g).

(** The progress policy of a status route.  A poll that finds the job running
    sets the progress to the estimate of the reported status and leaves the
    status of the generation alone.  A poll that finds it succeeded, with an
    output that is [defined], sets the progress to 100 whether the
    generation ends completed or failed.  A poll that finds it failed makes
    the generation failed and keeps the progress it had, 0 when it had
    none.  Reply and stored record agree. *)
Definition progressPolicy (GET : Env -> GetRequest -> M Reply)
  (poll : Env -> JsVal -> M ProviderStatus)
  (isFinal : string -> bool) (succeeded : JsVal -> bool) (defined : JsVal -> bool)
  : Prop :=
  forall env id g w ps w1,
    nonEmpty (Some id) = Some id ->
    db w !! id = Some g ->
    isFinal (g_status g) = false ->
    poll env (g_external_id g) (record env (EvSelect id) w) = (Ret ps, w1) ->
    (succeeded (ps_status ps) = false -> isString "failed" (ps_status ps) = false ->
     exists reply w' g',
       GET env (mkGet (Some id)) w = (Ret reply, w') /\
       Js.get (reply_body reply) "progress" = JNum (estimate (ps_status ps)) /\
       Js.get (reply_body reply) "status" = JStr (g_status g) /\
       db w' !! id = Some g' /\
       g_progress g' = Some (estimate (ps_status ps)) /\
       g_status g' = g_status g) /\
    (succeeded (ps_status ps) = true -> defined (ps_output ps) = true ->
     exists reply w' g',
       GET env (mkGet (Some id)) w = (Ret reply, w') /\
       Js.get (reply_body reply) "progress" = JNum 100 /\
       Js.get (reply_body reply) "status" = JStr (g_status g') /\
       db w' !! id = Some g' /\
       g_progress g' = Some 100 /\
       (g_status g' = "completed" \/ g_status g' = "failed")) /\
    (succeeded (ps_status ps) = false -> isString "failed" (ps_status ps) = true ->
     exists reply w' g',
       GET env (mkGet (Some id)) w = (Ret reply, w') /\
       Js.get (reply_body reply) "progress" = JNum (progressOr0 (g_progress g)) /\
       Js.get (reply_body reply) "status" = JStr "failed" /\
       db w' !! id = Some g' /\
       g_progress g' = Some (progressOr0 (g_progress g)) /\
       g_status g' = "failed").

(** The status check ended with the generation failed for the reason
    [message]: in the reply, which is a 200, and in the record. *)
Definition failedWith (r : Outcome Reply) (w' : World) (id : string)
  (message : string) : Prop :=
  exists reply g',
    r = Ret reply /\
    reply_status reply = 200 /\
    Js.get (reply_body reply) "status" = JStr "failed" /\
    Js.get (reply_body reply) "error" = JStr message /\
    db w' !! id = Some g' /\
    g_status g' = "failed" /\
    g_error g' = JStr message.

(** The error message the handlers derive from the message of an upload
    error. *)
Definition storeFailure (bucket message : string) : string :=
  if bucketIssue message then storageConfigurationIssue bucket message
  else failedToStore message.

(** How a status route treats a failed download and a failed upload of the
    output, read off the calls of the status check. *)
Definition storeFailurePolicy (GET : Env -> GetRequest -> M Reply)
  (isFinal : string -> bool) (bucket : string) : Prop :=
  forall env id g w r w',
    nonEmpty (Some id) = Some id ->
    db w !! id = Some g ->
    isFinal (g_status g) = false ->
    GET env (mkGet (Some id)) w = (r, w') ->
    (forall u out,
       In (EvFetch (Download u) out) (newEvents w w') ->
       downloadFails out = true ->
       failedWith r w' id failedToDownload) /\
    (forall b p out m,
       In (EvUpload b p out) (newEvents w w') ->
       uploadErrorOf b out = Some m ->
       b = bucket /\ failedWith r w' id (storeFailure bucket m)).

(** What the calls of [advance] say about the locals it returns. *)
Definition explained (bucket : string) (g : Generation) (vars : Vars)
  (evsA : list Event) : Prop :=
  (forall u out,
     In (EvFetch (Download u) out) evsA -> downloadFails out = true ->
     vars = downloadFailed (succeededVars g)) /\
  (forall b p out m,
     In (EvUpload b p out) evsA -> uploadErrorOf b out = Some m ->
     b = bucket /\ vars = afterUpload bucket (succeededVars g) p (Some m)).

(** A member that the loop over [possibleProps] accepts, and the URL it
    gives. *)
Definition usable (v : JsVal) : option JsVal :=
  match v with
  | JStr s => if String.eqb s "" then None else Some v
  | JArr (x :: _) => Some x
  | _ => None
  end.

(** What a status check makes of the output of a job that its poll reports
    as done, for an output that is [defined]: [resolve] picks the URL; a
    truthy URL is fetched next, and otherwise the generation is failed with
    [noOutput] and nothing is fetched. *)
Definition outputPolicy (GET : Env -> GetRequest -> M Reply)
  (isFinal : string -> bool) (poll : Env -> JsVal -> M ProviderStatus)
  (done : JsVal -> bool) (defined : JsVal -> bool) (resolve : JsVal -> JsVal)
  (noOutput : JsVal -> string) : Prop :=
  forall env id g w ps w1 r w',
    nonEmpty (Some id) = Some id ->
    db w !! id = Some g ->
    isFinal (g_status g) = false ->
    poll env (g_external_id g) (record env (EvSelect id) w) = (Ret ps, w1) ->
    done (ps_status ps) = true ->
    defined (ps_output ps) = true ->
    GET env (mkGet (Some id)) w = (r, w') ->
    if Js.truthy (resolve (ps_output ps)) then
      exists out rest,
        trace w' =
        (trace w1 ++ EvFetch (Download (resolve (ps_output ps))) out :: rest)%list
    else
      failedWith r w' id (noOutput (ps_output ps)) /\
      exists patch, trace w' = (trace w1 ++ [EvUpdate id patch])%list.

(** The artifact store holds an object at [path] of [bucket]. *)
Definition holds (w : World) (bucket path : string) : bool :=
  bool_decide ((bucket, path) ∈ objects w).

(** The store carries out every removal it is asked for. *)
Definition removes (env : Env) : Prop :=
  forall t bucket path, storage_remove env t bucket path = StorageOk tt.

(** The calls of [cleanupTempImages] for two paths, from the world [w] on:
    a first removal that throws ends the clean-up. *)
Definition cleanupCalls (env : Env) (w : World) (mp sp : string) : list Event :=
  let out := storage_remove env (now w) "temp-bucket" mp in
  EvRemove "temp-bucket" mp out ::
  match out with
  | StorageThrows _ => []
  | _ => [EvRemove "temp-bucket" sp
            (storage_remove env (now w + latency env (now w)) "temp-bucket" sp)]
  end.

(** The store carried the removal out. *)
Definition carriedOut (out : StorageReply unit) : bool :=
  match out with
  | StorageOk _ => true
  | _ => false
  end.

(** What the clean-up that starts in [w] leaves of the two temporary
    objects.  The model image stays unless the store carries its removal
    out; the scene image stays when the first removal throws, and otherwise
    unless the store carries its removal out. *)
Definition modelLeft (env : Env) (w : World) (mp : string) : bool :=
  negb (carriedOut (storage_remove env (now w) "temp-bucket" mp)).

Definition sceneLeft (env : Env) (w : World) (mp sp : string) : bool :=
  match storage_remove env (now w) "temp-bucket" mp with
  | StorageThrows _ => true
  | _ => negb (carriedOut (storage_remove env (now w + latency env (now w))
                             "temp-bucket" sp))
  end.

(** The temporary paths that [uploadImagesToSupabase] chooses in [w]. *)
Definition tempModelPath (env : Env) (w : World) : string :=
  "temp/" +:+ generateId env (now w) +:+ "-model.jpg".

Definition tempScenePath (env : Env) (w : World) : string :=
  "temp/" +:+ generateId env (now w) +:+ "-scene.jpg".

(** ** Vocabulary of the further properties *)

(** A member schema that never fails without an issue. *)
Definition neverSilent (schema : JsVal -> Zod.Parsed) : Prop :=
  forall v msgs, schema v = inr msgs -> msgs <> [].

(** The characters of [s] do not include [c]. *)
Fixpoint without (c : ascii) (s : string) : bool :=
  match s with
  | EmptyString => true
  | String x rest => negb (Ascii.eqb x c) && without c rest
  end.

(** The file name [generateUniqueFilename] builds at the instant [t] for an
    extension. *)
Definition uniqueName (env : Env) (t : N) (extension : string) : string :=
  pretty t +:+ "-" +:+ String.substring 2 8 (random36 env t) +:+ "." +:+ extension.

(** The path under which a status check stores the output it downloaded,
    when [generateUniqueFilename] runs at the instant [t]. *)
Definition outputPath (env : Env) (generationId : string) (t : N) : string :=
  generationId +:+ "/" +:+ uniqueName env t "png".

(** What [getImageUrl] gives for a signing request made at [t]. *)
Definition signedAt (env : Env) (bucket path : string) (t : N) : string :=
  imageUrlFor env bucket (Some path)
    (storage_createSignedUrl env t bucket (Some path)).

(** A status check that finds the job done, downloads its output and stores
    it: the generation is completed with the new path, in the record and in
    the reply, and the reply shows the signed URL of that path. *)
Definition completionPolicy (GET : Env -> GetRequest -> M Reply)
  (isFinal : string -> bool) (poll : Env -> JsVal -> M ProviderStatus)
  (done : JsVal -> bool) (resolve : JsVal -> JsVal) (bucket : string)
  (shown : Env -> string -> string -> JsVal) : Prop :=
  forall env id g w ps w1 response r w',
    nonEmpty (Some id) = Some id ->
    db w !! id = Some g ->
    isFinal (g_status g) = false ->
    poll env (g_external_id g) (record env (EvSelect id) w) = (Ret ps, w1) ->
    done (ps_status ps) = true ->
    Js.truthy (resolve (ps_output ps)) = true ->
    http env (now w1) (Download (resolve (ps_output ps))) = Ret response ->
    resp_bodyError response = None ->
    storage_upload env (now w1 + latency env (now w1)) bucket
      (outputPath env id (now w1 + latency env (now w1))) = StorageOk tt ->
    GET env (mkGet (Some id)) w = (r, w') ->
    exists reply g' t2,
      r = Ret reply /\
      reply_status reply = 200 /\
      Js.get (reply_body reply) "status" = JStr "completed" /\
      Js.get (reply_body reply) "progress" = JNum 100 /\
      Js.get (reply_body reply) "imageUrl" =
        shown env (outputPath env id (now w1 + latency env (now w1)))
          (signedAt env bucket
             (outputPath env id (now w1 + latency env (now w1))) t2) /\
      db w' = <[id := g']> (db w) /\
      g_status g' = "completed" /\
      g_progress g' = Some 100 /\
      g_storage_path g' = Some (outputPath env id (now w1 + latency env (now w1))) /\
      g_error g' = g_error g /\
      objects w' =
        {[ (bucket, outputPath env id (now w1 + latency env (now w1))) ]} ∪ objects w /\
      holds w' bucket (outputPath env id (now w1 + latency env (now w1))) = true /\
      isFinal (g_status g') = true.

(** A status check whose poll reports the job failed: the generation is
    failed with the provider's error, or "Generation failed" when it gave
    none; nothing is downloaded or stored and the stored path is kept. *)
Definition providerFailurePolicy (GET : Env -> GetRequest -> M Reply)
  (isFinal : string -> bool) (poll : Env -> JsVal -> M ProviderStatus)
  (done : JsVal -> bool) : Prop :=
  forall env id g w ps w1 r w',
    nonEmpty (Some id) = Some id ->
    db w !! id = Some g ->
    isFinal (g_status g) = false ->
    poll env (g_external_id g) (record env (EvSelect id) w) = (Ret ps, w1) ->
    done (ps_status ps) = false ->
    isString "failed" (ps_status ps) = true ->
    GET env (mkGet (Some id)) w = (r, w') ->
    exists reply g' patch,
      r = Ret reply /\
      reply_status reply = 200 /\
      Js.get (reply_body reply) "status" = JStr "failed" /\
      Js.get (reply_body reply) "error"
        = Js.or (ps_error ps) (JStr "Generation failed") /\
      db w' = <[id := g']> (db w) /\
      g_status g' = "failed" /\
      g_error g' = Js.or (ps_error ps) (JStr "Generation failed") /\
      g_storage_path g' = g_storage_path g /\
      objects w' = objects w /\
      trace w' = (trace w1 ++ [EvUpdate id patch])%list.

(** The deployment [env] without the key of the combiner API. *)
Definition withoutKey (env : Env) : Env :=
  {| NEXT_PUBLIC_SUPABASE_URL := NEXT_PUBLIC_SUPABASE_URL env;
     NEXT_PUBLIC_API_MARKET_KEY := None;
     generateId := generateId env;
     toISOString := toISOString env;
     random36 := random36 env;
     atob := atob env;
     http := http env;
     latency := latency env;
     storage_upload := storage_upload env;
     storage_createSignedUrl := storage_createSignedUrl env;
     storage_remove := storage_remove env;
     noRowMessage := noRowMessage env |}.

(** A poll of the combiner for the prediction [id]. *)
Definition isPollOf (id : JsVal) (e : Event) : Prop :=
  exists out, e = EvFetch (CombinerGet id) out.

(** The deployment [env] with a storage whose uploads succeed before the
    instant [t0] and are answered with [reply] from then on. *)
Definition withUploadsFrom (t0 : N) (reply : StorageReply unit) (env : Env) : Env :=
  {| NEXT_PUBLIC_SUPABASE_URL := NEXT_PUBLIC_SUPABASE_URL env;
     NEXT_PUBLIC_API_MARKET_KEY := NEXT_PUBLIC_API_MARKET_KEY env;
     generateId := generateId env;
     toISOString := toISOString env;
     random36 := random36 env;
     atob := atob env;
     http := http env;
     latency := latency env;
     storage_upload := fun t _ _ => if (t <? t0)%N then StorageOk tt else reply;
     storage_createSignedUrl := storage_createSignedUrl env;
     storage_remove := storage_remove env;
     noRowMessage := noRowMessage env |}.

(** An entry that [Cors.set] accepts. *)
Definition validEntry (entry : string * string) : bool :=
  Cors.validName (fst entry) && Cors.validValue (Cors.normalize (snd entry)).

(** The value that the last entry of [entries] for the header [name] sets,
    names compared without regard to case. *)
Fixpoint lastOf (name : string) (entries : list (string * string)) : option string :=
  match entries with
  | [] => None
  | (key, value) :: rest =>
      match lastOf name rest with
      | Some v => Some v
      | None =>
          if String.eqb (Cors.lower key) (Cors.lower name)
          then Some (Cors.normalize value) else None
      end
  end.

(** The four CORS headers, as a response shows them. *)
Definition corsHeader (name : string) : option string :=
  lastOf name defaultCorsHeaders.

(** The header list [headers] shows the four CORS headers with the values of
    [defaultCorsHeaders], under whatever case they are asked for. *)
Definition allowsAnyOrigin (headers : Cors.Headers) : Prop :=
  Cors.get "Access-Control-Allow-Origin" headers = Some "*" /\
  Cors.get "access-control-allow-methods" headers
    = Some "GET, POST, PUT, DELETE, OPTIONS" /\
  Cors.get "ACCESS-CONTROL-ALLOW-HEADERS" headers
    = Some "authorization, x-client-info, apikey, content-type" /\
  Cors.get "Access-Control-Max-Age" headers = Some "86400".

(** Call number [k] of the status function gave a status that is not final. *)
Definition pending {T} (statusOf : T -> string)
  (checkStatusFn : string -> nat -> Outcome T) (generationId : string) (k : nat) : Prop :=
  exists status, checkStatusFn generationId k = Ret status /\
                 TestScript.final statusOf status = false.

(** * Properties *)

Section Validation.

Local Open Scope nat_scope.

Lemma parseMembers_issue_last shape k schema input :
  forall msgs, schema (Js.get input k) = inr msgs ->
  forall i, In i (map (Zod.mkIssue k) msgs) ->
  In i (snd (Zod.parseMembers (shape ++ [(k, schema)])%list input)).
Proof.
  intros msgs Hk i Hi.
  induction shape as [|[k' s'] rest IH]; simpl.
  - rewrite Hk. simpl. rewrite app_nil_r. exact Hi.
  - destruct (Zod.parseMembers (rest ++ [(k, schema)])%list input) as [d iss].
    simpl in IH. destruct (s' (Js.get input k')); simpl; auto.
    apply in_or_app. right. exact IH.
Qed.

Lemma safeParse_issue shape k schema fields msgs i :
  schema (Js.assoc k fields) = inr msgs ->
  In i (map (Zod.mkIssue k) msgs) ->
  isFailure (Zod.safeParse (shape ++ [(k, schema)])%list (JObj fields)) = true /\
  In i (issuesOf (Zod.safeParse (shape ++ [(k, schema)])%list (JObj fields))).
Proof.
  intros Hk Hi. unfold Zod.safeParse.
  pose proof (parseMembers_issue_last shape k schema (JObj fields) msgs Hk i Hi) as H.
  destruct (Zod.parseMembers (shape ++ [(k, schema)])%list (JObj fields)) as [d iss].
  simpl in H. destruct iss; [contradiction | split; [reflexivity | exact H]].
Qed.

Lemma prompt_short n short p :
  String.length p < n ->
  exists rest, Zod.zstring (promptChecks n short) (JStr p) = inr (short :: rest).
Proof.
  intros H. unfold Zod.zstring, promptChecks. simpl.
  destruct (Nat.leb_spec n (String.length p)); [lia|]. simpl.
  destruct (String.length p <=? 1000); simpl; eauto.
Qed.

Lemma prompt_long n short p :
  1000 < String.length p ->
  exists front,
    Zod.zstring (promptChecks n short) (JStr p) =
    inr (front ++ ["Prompt is too long (maximum 1000 characters)"])%list.
Proof.
  intros H. unfold Zod.zstring, promptChecks. simpl.
  destruct (Nat.leb_spec (String.length p) 1000); [lia|].
  destruct (n <=? String.length p); simpl.
  - exists []. reflexivity.
  - exists [short]. reflexivity.
Qed.

Lemma prompt_fits n short p :
  n <= String.length p <= 1000 ->
  Zod.zstring (promptChecks n short) (JStr p) = inl (JStr p).
Proof.
  intros [H1 H2]. unfold Zod.zstring, promptChecks. simpl.
  destruct (Nat.leb_spec n (String.length p)); [|lia].
  destruct (Nat.leb_spec (String.length p) 1000); [|lia].
  reflexivity.
Qed.

End Validation.

Section ValidationBoundaries.

Local Open Scope nat_scope.

Lemma TryOn_POST_invalid env user w body :
  isFailure (Zod.safeParse TryOnRequestSchema body) = true ->
  TryOn.POST env (mkPost (Ret body) user) w =
  (Ret (invalidRequest (issuesOf (Zod.safeParse TryOnRequestSchema body))), w).
Proof.
  intros H. unfold TryOn.POST, try_catch, bind. simpl.
  destruct (Zod.safeParse TryOnRequestSchema body); [discriminate | reflexivity].
Qed.

Lemma Composite_POST_invalid env user w body :
  isFailure (Zod.safeParse CompositeRequestSchema body) = true ->
  Composite.POST env (mkPost (Ret body) user) w =
  (Ret (invalidRequest (issuesOf (Zod.safeParse CompositeRequestSchema body))), w).
Proof.
  intros H. unfold Composite.POST, try_catch, bind. simpl.
  destruct (Zod.safeParse CompositeRequestSchema body); [discriminate | reflexivity].
Qed.

Lemma imageData_parses k message fields :
  imageData k fields = true ->
  Zod.zstring [Zod.min 1 message] (Js.assoc k fields) = inl (Js.assoc k fields).
Proof.
  unfold imageData, Zod.zstring. destruct (Js.assoc k fields); try discriminate.
  destruct s; [discriminate | reflexivity].
Qed.

Lemma optionalId_parses k fields :
  optionalId k fields = true ->
  Zod.optional (Zod.zstring []) (Js.assoc k fields) = inl (Js.assoc k fields).
Proof.
  unfold optionalId, Zod.optional, Zod.zstring.
  destruct (Js.assoc k fields); try discriminate; reflexivity.
Qed.

Lemma tryOn_members_parse fields v :
  tryOnMembers fields = true ->
  Zod.default
    (Zod.zstring (promptChecks 5
       "Please provide a descriptive prompt (at least 5 characters)"))
    (JStr "A person wearing clothing") (Js.assoc "prompt" fields) = inl v ->
  Zod.safeParse TryOnRequestSchema (JObj fields) =
  Zod.Success [("modelImageBase64", Js.assoc "modelImageBase64" fields);
               ("clothingImageBase64", Js.assoc "clothingImageBase64" fields);
               ("modelImageId", Js.assoc "modelImageId" fields);
               ("clothingImageId", Js.assoc "clothingImageId" fields);
               ("prompt", v)].
Proof.
  unfold tryOnMembers. intros H Hp.
  apply andb_prop in H as [H H4]. apply andb_prop in H as [H H3].
  apply andb_prop in H as [H1 H2].
  unfold Zod.safeParse, TryOnRequestSchema, Zod.parseMembers, Js.get.
  fold (promptChecks 5 "Please provide a descriptive prompt (at least 5 characters)").
  rewrite Hp, (optionalId_parses _ _ H4), (optionalId_parses _ _ H3),
    (imageData_parses _ _ _ H2), (imageData_parses _ _ _ H1).
  reflexivity.
Qed.

Lemma composite_members_parse fields v :
  compositeMembers fields = true ->
  Zod.zstring (promptChecks 10
     "Please provide a detailed prompt (at least 10 characters)")
    (Js.assoc "prompt" fields) = inl v ->
  Zod.safeParse CompositeRequestSchema (JObj fields) =
  Zod.Success [("figureImageBase64", Js.assoc "figureImageBase64" fields);
               ("sceneImageBase64", Js.assoc "sceneImageBase64" fields);
               ("figureImageId", Js.assoc "figureImageId" fields);
               ("sceneImageId", Js.assoc "sceneImageId" fields);
               ("prompt", v)].
Proof.
  unfold compositeMembers. intros H Hp.
  apply andb_prop in H as [H H4]. apply andb_prop in H as [H H3].
  apply andb_prop in H as [H1 H2].
  unfold Zod.safeParse, CompositeRequestSchema, Zod.parseMembers, Js.get.
  fold (promptChecks 10 "Please provide a detailed prompt (at least 10 characters)").
  rewrite Hp, (optionalId_parses _ _ H4), (optionalId_parses _ _ H3),
    (imageData_parses _ _ _ H2), (imageData_parses _ _ _ H1).
  reflexivity.
Qed.

Lemma tryOn_prompt_issue fields msgs i :
  Zod.default
    (Zod.zstring (promptChecks 5
       "Please provide a descriptive prompt (at least 5 characters)"))
    (JStr "A person wearing clothing") (Js.assoc "prompt" fields) = inr msgs ->
  In i (map (Zod.mkIssue "prompt") msgs) ->
  isFailure (Zod.safeParse TryOnRequestSchema (JObj fields)) = true /\
  In i (issuesOf (Zod.safeParse TryOnRequestSchema (JObj fields))).
Proof.
  intros H Hi.
  exact (safeParse_issue
           [ ("modelImageBase64",
               Zod.zstring [Zod.min 1 "Model image data is required"]);
             ("clothingImageBase64",
               Zod.zstring [Zod.min 1 "Clothing image data is required"]);
             ("modelImageId", Zod.optional (Zod.zstring []));
             ("clothingImageId", Zod.optional (Zod.zstring [])) ]
           "prompt" _ fields msgs i H Hi).
Qed.

Lemma composite_prompt_issue fields msgs i :
  Zod.zstring (promptChecks 10
     "Please provide a detailed prompt (at least 10 characters)")
    (Js.assoc "prompt" fields) = inr msgs ->
  In i (map (Zod.mkIssue "prompt") msgs) ->
  isFailure (Zod.safeParse CompositeRequestSchema (JObj fields)) = true /\
  In i (issuesOf (Zod.safeParse CompositeRequestSchema (JObj fields))).
Proof.
  intros H Hi.
  exact (safeParse_issue
           [ ("figureImageBase64",
               Zod.zstring [Zod.min 1 "Figure image data is required"]);
             ("sceneImageBase64",
               Zod.zstring [Zod.min 1 "Scene image data is required"]);
             ("figureImageId", Zod.optional (Zod.zstring []));
             ("sceneImageId", Zod.optional (Zod.zstring [])) ]
           "prompt" _ fields msgs i H Hi).
Qed.

(** C8. A composite prompt shorter than 10 characters (so one of 9) is
    rejected with status 400 and the issue on [prompt], one of 10 to 1000
    characters passes validation; a try-on prompt shorter than 5 characters
    (so one of 4) is rejected, one of 5 to 1000 passes; both are rejected
    above 1000 characters; a try-on request without a prompt is parsed with
    the default prompt. *)
Theorem validation_boundaries :
  (forall fields p,
      Js.assoc "prompt" fields = JStr p -> String.length p < 10 ->
      rejected Composite.POST CompositeRequestSchema fields tooShortComposite) /\
  (forall fields p,
      compositeMembers fields = true ->
      Js.assoc "prompt" fields = JStr p -> 10 <= String.length p <= 1000 ->
      passes CompositeRequestSchema fields p) /\
  (forall fields p,
      Js.assoc "prompt" fields = JStr p -> String.length p < 5 ->
      rejected TryOn.POST TryOnRequestSchema fields tooShortTryOn) /\
  (forall fields p,
      tryOnMembers fields = true ->
      Js.assoc "prompt" fields = JStr p -> 5 <= String.length p <= 1000 ->
      passes TryOnRequestSchema fields p) /\
  (forall fields p,
      Js.assoc "prompt" fields = JStr p -> 1000 < String.length p ->
      rejected Composite.POST CompositeRequestSchema fields tooLong /\
      rejected TryOn.POST TryOnRequestSchema fields tooLong) /\
  (forall fields,
      tryOnMembers fields = true ->
      Js.assoc "prompt" fields = JUndefined ->
      passes TryOnRequestSchema fields "A person wearing clothing").
Proof.
  repeat split.
  - destruct (prompt_short 10 "Please provide a detailed prompt (at least 10 characters)"
                p H0) as [rest Hr].
    rewrite <- H in Hr.
    apply (composite_prompt_issue fields _ tooShortComposite Hr). left. reflexivity.
  - apply Composite_POST_invalid.
    destruct (prompt_short 10 "Please provide a detailed prompt (at least 10 characters)"
                p H0) as [rest Hr].
    rewrite <- H in Hr.
    apply (composite_prompt_issue fields _ tooShortComposite Hr). left. reflexivity.
  - pose proof (prompt_fits 10 "Please provide a detailed prompt (at least 10 characters)"
                  p H1) as Hp.
    rewrite <- H0 in Hp at 1.
    rewrite (composite_members_parse fields _ H Hp). reflexivity.
  - pose proof (prompt_fits 10 "Please provide a detailed prompt (at least 10 characters)"
                  p H1) as Hp.
    rewrite <- H0 in Hp at 1.
    rewrite (composite_members_parse fields _ H Hp). reflexivity.
  - destruct (prompt_short 5 "Please provide a descriptive prompt (at least 5 characters)"
                p H0) as [rest Hr].
    eapply tryOn_prompt_issue; [rewrite H; exact Hr | left; reflexivity].
  - apply TryOn_POST_invalid.
    destruct (prompt_short 5 "Please provide a descriptive prompt (at least 5 characters)"
                p H0) as [rest Hr].
    eapply tryOn_prompt_issue; [rewrite H; exact Hr | left; reflexivity].
  - pose proof (prompt_fits 5 "Please provide a descriptive prompt (at least 5 characters)"
                  p H1) as Hp.
    rewrite (tryOn_members_parse fields (JStr p) H); [reflexivity|].
    rewrite H0. exact Hp.
  - pose proof (prompt_fits 5 "Please provide a descriptive prompt (at least 5 characters)"
                  p H1) as Hp.
    rewrite (tryOn_members_parse fields (JStr p) H); [reflexivity|].
    rewrite H0. exact Hp.
  - destruct (prompt_long 10 "Please provide a detailed prompt (at least 10 characters)"
                p H0) as [front Hr].
    rewrite <- H in Hr.
    apply (composite_prompt_issue fields _ tooLong Hr).
    rewrite map_app. apply in_or_app. right. left. reflexivity.
  - apply Composite_POST_invalid.
    destruct (prompt_long 10 "Please provide a detailed prompt (at least 10 characters)"
                p H0) as [front Hr].
    rewrite <- H in Hr.
    apply (composite_prompt_issue fields _ tooLong Hr).
    rewrite map_app. apply in_or_app. right. left. reflexivity.
  - destruct (prompt_long 5 "Please provide a descriptive prompt (at least 5 characters)"
                p H0) as [front Hr].
    eapply tryOn_prompt_issue;
      [rewrite H; exact Hr
      | rewrite map_app; apply in_or_app; right; left; reflexivity].
  - apply TryOn_POST_invalid.
    destruct (prompt_long 5 "Please provide a descriptive prompt (at least 5 characters)"
                p H0) as [front Hr].
    eapply tryOn_prompt_issue;
      [rewrite H; exact Hr
      | rewrite map_app; apply in_or_app; right; left; reflexivity].
  - rewrite (tryOn_members_parse fields (JStr "A person wearing clothing") H);
      [reflexivity|]. rewrite H0. reflexivity.
  - rewrite (tryOn_members_parse fields (JStr "A person wearing clothing") H);
      [reflexivity|]. rewrite H0. reflexivity.
Qed.

Lemma validation_boundaries_witness :
  rejected Composite.POST CompositeRequestSchema
           (Scenario.compositeBody (JStr "123456789")) tooShortComposite /\
  passes CompositeRequestSchema (Scenario.compositeBody (JStr "1234567890"))
         "1234567890" /\
  rejected TryOn.POST TryOnRequestSchema (Scenario.tryOnBody (JStr "1234"))
           tooShortTryOn /\
  passes TryOnRequestSchema (Scenario.tryOnBody (JStr "12345")) "12345" /\
  rejected Composite.POST CompositeRequestSchema
           (Scenario.compositeBody (JStr (Scenario.filler 1001))) tooLong /\
  rejected TryOn.POST TryOnRequestSchema
           (Scenario.tryOnBody (JStr (Scenario.filler 1001))) tooLong /\
  passes TryOnRequestSchema (Scenario.tryOnBody JUndefined)
         "A person wearing clothing".
Proof.
  destruct validation_boundaries as (H1 & H2 & H3 & H4 & H5 & H6).
  split; [|split; [|split; [|split; [|split; [|split]]]]].
  - apply (H1 _ "123456789"%string); [reflexivity | vm_compute; lia].
  - apply H2; [reflexivity | reflexivity | vm_compute; lia].
  - apply (H3 _ "1234"%string); [reflexivity | vm_compute; lia].
  - apply H4; [reflexivity | reflexivity | vm_compute; lia].
  - apply (H5 _ (Scenario.filler 1001)); [reflexivity | vm_compute; lia].
  - apply (H5 _ (Scenario.filler 1001)); [reflexivity | vm_compute; lia].
  - apply H6; reflexivity.
Defined.

End ValidationBoundaries.

(** ** Running handlers step by step *)

Section Run.

Context {A B : Type}.

Lemma bind_Ret (m : M A) (k : A -> M B) w a w1 :
  m w = (Ret a, w1) -> bind m k w = k a w1.
Proof. intros H. unfold bind. rewrite H. reflexivity. Qed.

Lemma bind_Throw (m : M A) (k : A -> M B) w t w1 :
  m w = (Throw t, w1) -> bind m k w = (Throw t, w1).
Proof. intros H. unfold bind. rewrite H. reflexivity. Qed.

Lemma try_Ret (m : M A) (h : Thrown -> M A) w a w1 :
  m w = (Ret a, w1) -> try_catch m h w = (Ret a, w1).
Proof. intros H. unfold try_catch. rewrite H. reflexivity. Qed.

Lemma try_Throw (m : M A) (h : Thrown -> M A) w t w1 :
  m w = (Throw t, w1) -> try_catch m h w = h t w1.
Proof. intros H. unfold try_catch. rewrite H. reflexivity. Qed.

Lemma bind_Ret_inv (m : M A) (k : A -> M B) w b w' :
  bind m k w = (Ret b, w') ->
  exists a w1, m w = (Ret a, w1) /\ k a w1 = (Ret b, w').
Proof.
  unfold bind. destruct (m w) as [[a|t] w1]; [|discriminate].
  intros H. exists a, w1. split; [reflexivity | exact H].
Qed.

Lemma bind_inv (m : M A) (k : A -> M B) w r w' :
  bind m k w = (r, w') ->
  (exists a w1, m w = (Ret a, w1) /\ k a w1 = (r, w')) \/
  (exists t, m w = (Throw t, w') /\ r = Throw t).
Proof.
  unfold bind. destruct (m w) as [[a|t] w1]; intros H.
  - left. exists a, w1. split; [reflexivity | exact H].
  - right. inversion H; subst. exists t. split; reflexivity.
Qed.

Lemma try_inv (m : M A) (h : Thrown -> M A) w r w' :
  try_catch m h w = (r, w') ->
  (exists a, m w = (Ret a, w') /\ r = Ret a) \/
  (exists t w1, m w = (Throw t, w1) /\ h t w1 = (r, w')).
Proof.
  unfold try_catch. destruct (m w) as [[a|t] w1]; intros H.
  - left. inversion H; subst. exists a. split; reflexivity.
  - right. exists t, w1. split; [reflexivity | exact H].
Qed.

(** A [catch] clause that throws what it caught changes nothing. *)
Lemma try_rethrow (m : M A) w : try_catch m (fun error => throw error) w = m w.
Proof. unfold try_catch, throw. destruct (m w) as [[a|t] w1]; reflexivity. Qed.

End Run.

(** ** What a computation may do to the world

    [only P rows keep w w'] says that [w'] comes from [w] by calls that are
    all of kind [P], that the record store is the same when [rows] is set,
    and that the stored objects are the same when [keep] is set. *)

Section Respect.

Variable R : World -> World -> Prop.
Hypothesis R_refl : forall w, R w w.
Hypothesis R_trans : forall a b c, R a b -> R b c -> R a c.

Lemma respects_ret {A} (a : A) : respects R (ret a).
Proof. intros w. apply R_refl. Qed.

Lemma respects_throw {A} t : respects R (@throw A t).
Proof. intros w. apply R_refl. Qed.

Lemma respects_bind {A B} (m : M A) (k : A -> M B) :
  respects R m -> (forall a, respects R (k a)) -> respects R (bind m k).
Proof.
  intros Hm Hk w. unfold bind. specialize (Hm w).
  destruct (m w) as [[a|t] w1]; simpl in *; [|exact Hm].
  eapply R_trans; [exact Hm | apply Hk].
Qed.

Lemma respects_try {A} (m : M A) (h : Thrown -> M A) :
  respects R m -> (forall t, respects R (h t)) -> respects R (try_catch m h).
Proof.
  intros Hm Hh w. unfold try_catch. specialize (Hm w).
  destruct (m w) as [[a|t] w1]; simpl in *; [exact Hm|].
  eapply R_trans; [exact Hm | apply Hh].
Qed.

Lemma respects_pure {A} (f : World -> Outcome A) : respects R (fun w => (f w, w)).
Proof. intros w. apply R_refl. Qed.

End Respect.

Lemma only_refl P rows keep w : only P rows keep w w.
Proof.
  repeat split. exists []. rewrite app_nil_r. split; reflexivity.
Qed.

Lemma only_trans P rows keep a b c :
  only P rows keep a b -> only P rows keep b c -> only P rows keep a c.
Proof.
  intros (Hd1 & Ho1 & e1 & Ht1 & Hp1) (Hd2 & Ho2 & e2 & Ht2 & Hp2).
  split; [|split].
  - intros Hk. rewrite (Hd2 Hk). apply Hd1, Hk.
  - intros Hk. rewrite (Ho2 Hk). apply Ho1, Hk.
  - exists (e1 ++ e2)%list. rewrite Ht2, Ht1, <- app_assoc, forallb_app, Hp1, Hp2.
    split; reflexivity.
Qed.

(** Weakening: more kinds of call allowed, less kept. *)
Lemma only_weaken (P Q : Event -> bool) (rows rows' keep keep' : bool) w w' :
  (forall e, P e = true -> Q e = true) ->
  (rows' = true -> rows = true) ->
  (keep' = true -> keep = true) ->
  only P rows keep w w' -> only Q rows' keep' w w'.
Proof.
  intros HPQ Hr Hk (Hd & Ho & evs & Ht & Hp).
  split; [auto|]. split; [auto|].
  exists evs. split; [exact Ht|].
  rewrite forallb_forall in *. auto.
Qed.

Lemma respects_weaken {A} (P Q : Event -> bool) (rows rows' keep keep' : bool)
  (m : M A) :
  (forall e, P e = true -> Q e = true) ->
  (rows' = true -> rows = true) ->
  (keep' = true -> keep = true) ->
  respects (only P rows keep) m -> respects (only Q rows' keep') m.
Proof. intros HPQ Hr Hk H w. eapply only_weaken; eauto. Qed.

Lemma only_record env P rows keep e w :
  P e = true -> only P rows keep w (record env e w).
Proof.
  intros HP. repeat split. exists [e]. simpl. rewrite HP. split; reflexivity.
Qed.

(** Calls of no kind at all: the trace is what it was. *)
Lemma only_nothing rows keep w w' :
  only (fun _ => false) rows keep w w' -> trace w' = trace w.
Proof.
  intros (_ & _ & evs & Ht & Hp). destruct evs; [|discriminate].
  rewrite Ht. apply app_nil_r.
Qed.

Section Does.

Variable env : Env.
Variable P : Event -> bool.
Variable rows keep : bool.

Abbreviation does := (respects (only P rows keep)).

Lemma does_ret {A} (a : A) : does (ret a).
Proof. apply respects_ret, only_refl. Qed.

Lemma does_throw {A} t : does (@throw A t).
Proof. apply respects_throw, only_refl. Qed.

Lemma does_throwError {A} message : does (@throwError A message).
Proof. apply does_throw. Qed.

Lemma does_bind {A B} (m : M A) (k : A -> M B) :
  does m -> (forall a, does (k a)) -> does (bind m k).
Proof. apply respects_bind, only_trans. Qed.

Lemma does_try {A} (m : M A) (h : Thrown -> M A) :
  does m -> (forall t, does (h t)) -> does (try_catch m h).
Proof. apply respects_try, only_trans. Qed.

Lemma does_pure {A} (f : World -> Outcome A) : does (fun w => (f w, w)).
Proof. apply respects_pure, only_refl. Qed.

Lemma does_Date_now : does Date_now.
Proof. intros w. apply only_refl. Qed.

Lemma does_delay ms : does (delay ms).
Proof.
  intros w. repeat split. exists []. simpl. rewrite app_nil_r. split; reflexivity.
Qed.

Lemma does_text r : does (text r).
Proof. unfold text. destruct (resp_bodyError r); [apply does_throw | apply does_ret]. Qed.

Lemma does_json r : does (json r).
Proof. unfold json. apply does_bind; [apply does_text | intros; apply does_pure]. Qed.

Lemma does_blob r : does (blob r).
Proof. unfold blob. apply does_bind; [apply does_text | intros; apply does_ret]. Qed.

Lemma does_member v k : does (member v k).
Proof. unfold member. destruct v; first [apply does_throwError | apply does_ret]. Qed.

Lemma does_Object_keys v : does (Object_keys v).
Proof. unfold Object_keys. destruct v; first [apply does_throwError | apply does_ret]. Qed.

Lemma does_fetch req :
  (forall out, P (EvFetch req out) = true) -> does (fetch env req).
Proof. intros HP w. apply only_record, HP. Qed.

Lemma does_db_select id : P (EvSelect id) = true -> does (db_select env id).
Proof. intros HP w. apply only_record, HP. Qed.

Lemma does_listBuckets : P EvListBuckets = true -> does (listBuckets env).
Proof. intros HP w. apply only_record, HP. Qed.

Lemma does_createSignedUrl bucket path :
  (forall out, P (EvSign bucket path out) = true) ->
  does (createSignedUrl env bucket path).
Proof.
  intros HP w. unfold createSignedUrl.
  destruct (storage_createSignedUrl env (now w) bucket path) eqn:E;
    simpl; apply only_record, HP.
Qed.

Lemma does_getImageUrl bucket path :
  (forall out, P (EvSign bucket path out) = true) ->
  does (getImageUrl env bucket path).
Proof.
  intros HP. unfold getImageUrl.
  apply does_try; [apply does_createSignedUrl, HP | intros; apply does_ret].
Qed.

Lemma does_logGeneration : does logGeneration.
Proof. apply does_ret. Qed.

Lemma does_updateGeneration : does updateGeneration.
Proof. apply does_ret. Qed.

End Does.

Create HintDb frames.

#[local] Hint Resolve does_ret does_throw does_throwError does_pure does_Date_now
  does_delay does_text does_json does_blob does_member does_Object_keys
  does_logGeneration does_updateGeneration : frames.

(** Decompose a goal [respects (only P keep) m] along the shape of [m]. *)
Ltac frame :=
  repeat (intros;
    match goal with
    | |- respects _ (bind _ _) => apply does_bind
    | |- respects _ (try_catch _ _) => apply does_try
    | |- respects _ (match ?x with _ => _ end) => destruct x
    | |- respects _ (let (_, _) := ?x in _) => destruct x
    | |- respects _ _ => solve [auto with frames]
    end); intros.

Section Adapters.

Variable env : Env.

(** The status functions and [generateTryOn] make provider calls and touch
    neither the records nor the stored objects. *)
Lemma replicateError_does P rows keep r :
  respects (only P rows keep) (replicateError r).
Proof. unfold replicateError. frame. Qed.

Lemma combinerError_does P rows keep b r :
  respects (only P rows keep) (combinerError b r).
Proof. unfold combinerError. frame. Qed.

Lemma checkPredictionStatus_does id :
  respects (only isProviderCall true true) (checkPredictionStatus env id).
Proof.
  unfold checkPredictionStatus. frame.
  - apply does_fetch. reflexivity.
  - apply replicateError_does.
Qed.

Lemma generateTryOn_does a b c :
  respects (only isProviderCall true true) (generateTryOn env a b c).
Proof.
  unfold generateTryOn. frame.
  - apply does_fetch. reflexivity.
  - apply replicateError_does.
Qed.

Lemma checkJobStatus_does id :
  respects (only isProviderCall true true) (checkJobStatus env id).
Proof.
  unfold checkJobStatus. frame.
  - apply does_fetch. reflexivity.
  - apply combinerError_does.
Qed.

End Adapters.

(** ** Status checks: which branch runs *)

Section Branches.

Variable env : Env.

Lemma select_run id w :
  db_select env id w = (Ret (db w !! id), record env (EvSelect id) w).
Proof. reflexivity. Qed.

Lemma TryOn_GET_live id g w reply w' :
  nonEmpty (Some id) = Some id ->
  db w !! id = Some g ->
  TryOn.isFinal (g_status g) = false ->
  TryOn.liveStatus env id g (record env (EvSelect id) w) = (Ret reply, w') ->
  TryOn.GET env (mkGet (Some id)) w = (Ret reply, w').
Proof.
  intros Hid Hg Hf Hl. unfold TryOn.GET. simpl get_id. rewrite Hid.
  apply try_Ret. rewrite (bind_Ret _ _ _ _ _ (select_run id w)).
  rewrite Hg, Hf. exact Hl.
Qed.

Lemma TryOn_GET_stored id g w reply w' :
  nonEmpty (Some id) = Some id ->
  db w !! id = Some g ->
  TryOn.isFinal (g_status g) = true ->
  TryOn.storedStatus env id g (record env (EvSelect id) w) = (Ret reply, w') ->
  TryOn.GET env (mkGet (Some id)) w = (Ret reply, w').
Proof.
  intros Hid Hg Hf Hl. unfold TryOn.GET. simpl get_id. rewrite Hid.
  apply try_Ret. rewrite (bind_Ret _ _ _ _ _ (select_run id w)).
  rewrite Hg, Hf. exact Hl.
Qed.

Lemma Composite_GET_live id g w reply w' :
  nonEmpty (Some id) = Some id ->
  db w !! id = Some g ->
  Composite.isFinal (g_status g) = false ->
  Composite.liveStatus env id g (record env (EvSelect id) w) = (Ret reply, w') ->
  Composite.GET env (mkGet (Some id)) w = (Ret reply, w').
Proof.
  intros Hid Hg Hf Hl. unfold Composite.GET. simpl get_id. rewrite Hid.
  apply try_Ret. rewrite (bind_Ret _ _ _ _ _ (select_run id w)).
  rewrite Hg, Hf. exact Hl.
Qed.

Lemma Composite_GET_stored id g w reply w' :
  nonEmpty (Some id) = Some id ->
  db w !! id = Some g ->
  Composite.isFinal (g_status g) = true ->
  Composite.storedStatus env id g (record env (EvSelect id) w) = (Ret reply, w') ->
  Composite.GET env (mkGet (Some id)) w = (Ret reply, w').
Proof.
  intros Hid Hg Hf Hl. unfold Composite.GET. simpl get_id. rewrite Hid.
  apply try_Ret. rewrite (bind_Ret _ _ _ _ _ (select_run id w)).
  rewrite Hg, Hf. exact Hl.
Qed.

Lemma TryOn_live_poll_throws id g w t w1 :
  checkPredictionStatus env (g_external_id g) w = (Throw t, w1) ->
  TryOn.liveStatus env id g w =
  (Ret (statusError (messageOr "Unknown error" t)), w1).
Proof.
  intros H. unfold TryOn.liveStatus.
  rewrite (try_Throw _ _ _ t w1); [reflexivity|].
  apply bind_Throw, H.
Qed.

Lemma Composite_live_poll_throws id g w t w1 :
  checkJobStatus env (g_external_id g) w = (Throw t, w1) ->
  Composite.liveStatus env id g w =
  (Ret (statusError (messageOr "Unknown error" t)), w1).
Proof.
  intros H. unfold Composite.liveStatus.
  rewrite (try_Throw _ _ _ t w1); [reflexivity|].
  apply bind_Throw, H.
Qed.

End Branches.

(** ** Poll errors *)

(** C4. When the poll of the provider throws during a status check of a
    generation that is not final, the reply is a 500 carrying the message of
    the error, and the record store and the stored objects are what they
    were: the generation stays as it was and the next status check polls
    again.  For the try-on and for the composite route. *)
Theorem poll_error_leaves_record (env : Env) (id : string) (g : Generation)
  (w w1 : World) (t : Thrown) :
  nonEmpty (Some id) = Some id ->
  db w !! id = Some g ->
  (TryOn.isFinal (g_status g) = false ->
   checkPredictionStatus env (g_external_id g) (record env (EvSelect id) w)
     = (Throw t, w1) ->
   TryOn.GET env (mkGet (Some id)) w
     = (Ret (statusError (messageOr "Unknown error" t)), w1) /\
   reply_status (statusError (messageOr "Unknown error" t)) = 500 /\
   db w1 = db w /\ objects w1 = objects w /\ db w1 !! id = Some g) /\
  (Composite.isFinal (g_status g) = false ->
   checkJobStatus env (g_external_id g) (record env (EvSelect id) w)
     = (Throw t, w1) ->
   Composite.GET env (mkGet (Some id)) w
     = (Ret (statusError (messageOr "Unknown error" t)), w1) /\
   reply_status (statusError (messageOr "Unknown error" t)) = 500 /\
   db w1 = db w /\ objects w1 = objects w /\ db w1 !! id = Some g).
Proof.
  intros Hid Hg. split; intros Hf Hp.
  - pose proof (checkPredictionStatus_does env (g_external_id g)
                  (record env (EvSelect id) w)) as (Hd & Ho & _).
    rewrite Hp in Hd, Ho. simpl in Hd, Ho. specialize (Hd eq_refl).
    split; [|split; [reflexivity|split; [exact Hd|split; [exact (Ho eq_refl)|]]]].
    + eapply TryOn_GET_live; eauto. apply TryOn_live_poll_throws, Hp.
    + rewrite Hd. exact Hg.
  - pose proof (checkJobStatus_does env (g_external_id g)
                  (record env (EvSelect id) w)) as (Hd & Ho & _).
    rewrite Hp in Hd, Ho. simpl in Hd, Ho. specialize (Hd eq_refl).
    split; [|split; [reflexivity|split; [exact Hd|split; [exact (Ho eq_refl)|]]]].
    + eapply Composite_GET_live; eauto. apply Composite_live_poll_throws, Hp.
    + rewrite Hd. exact Hg.
Qed.

Ltac by_computation := vm_compute; reflexivity.

Lemma poll_error_leaves_record_witness :
  TryOn.GET (Scenario.deployment (fun _ _ => Scenario.unreachable))
            (Scenario.get "g1")
            (Scenario.world [Scenario.processing "g1" "try-on"])
  = (Ret (statusError "fetch failed"),
     snd (checkPredictionStatus
            (Scenario.deployment (fun _ _ => Scenario.unreachable))
            (JStr "pred-1")
            (record (Scenario.deployment (fun _ _ => Scenario.unreachable))
                    (EvSelect "g1")
                    (Scenario.world [Scenario.processing "g1" "try-on"])))) /\
  Composite.GET (Scenario.deployment (fun _ _ => Scenario.unreachable))
            (Scenario.get "g2")
            (Scenario.world [Scenario.processing "g2" "composite"])
  = (Ret (statusError "fetch failed"),
     snd (checkJobStatus
            (Scenario.deployment (fun _ _ => Scenario.unreachable))
            (JStr "pred-1")
            (record (Scenario.deployment (fun _ _ => Scenario.unreachable))
                    (EvSelect "g2")
                    (Scenario.world [Scenario.processing "g2" "composite"])))).
Proof.
  split.
  - refine (proj1 (proj1 (poll_error_leaves_record
             (Scenario.deployment (fun _ _ => Scenario.unreachable)) "g1"
             (Scenario.processing "g1" "try-on")
             (Scenario.world [Scenario.processing "g1" "try-on"])
             _ (ThrownError "fetch failed") _ _) _ _)); by_computation.
  - refine (proj1 (proj2 (poll_error_leaves_record
             (Scenario.deployment (fun _ _ => Scenario.unreachable)) "g2"
             (Scenario.processing "g2" "composite")
             (Scenario.world [Scenario.processing "g2" "composite"])
             _ (ThrownError "fetch failed") _ _) _ _)); by_computation.
Defined.

(** ** Reads of a generation in a final state *)

Section Stored.

Variable env : Env.

Lemma getImageUrl_run bucket path w :
  getImageUrl env bucket path w =
  (Ret (imageUrlFor env bucket path
          (storage_createSignedUrl env (now w) bucket path)),
   record env (EvSign bucket path
                 (storage_createSignedUrl env (now w) bucket path)) w).
Proof.
  unfold getImageUrl, try_catch, createSignedUrl, imageUrlFor.
  destruct (storage_createSignedUrl env (now w) bucket path); reflexivity.
Qed.

Lemma TryOn_resolve_signed status path w :
  (String.eqb status "completed" && Js.truthy (Js.nullable path))%bool = true ->
  TryOn.resolveImageUrl env status path w =
  (Ret (TryOn.lastResort env path
          (imageUrlFor env TryOn.bucketName path
             (storage_createSignedUrl env (now w) TryOn.bucketName path))),
   record env (EvSign TryOn.bucketName path
                 (storage_createSignedUrl env (now w) TryOn.bucketName path)) w).
Proof.
  intros H. unfold TryOn.resolveImageUrl. rewrite H.
  rewrite (bind_Ret _ _ _ _ _ (getImageUrl_run _ _ _)). reflexivity.
Qed.

Lemma TryOn_resolve_none status path w :
  (String.eqb status "completed" && Js.truthy (Js.nullable path))%bool = false ->
  TryOn.resolveImageUrl env status path w = (Ret JUndefined, w).
Proof. intros H. unfold TryOn.resolveImageUrl. rewrite H. reflexivity. Qed.

Lemma Composite_resolve_signed status path w :
  Composite.isDone status = true ->
  Composite.resolveImageUrl env status path w =
  (Ret (JStr (imageUrlFor env Composite.bucketName path
                (storage_createSignedUrl env (now w) Composite.bucketName path))),
   record env (EvSign Composite.bucketName path
                 (storage_createSignedUrl env (now w) Composite.bucketName path)) w).
Proof.
  intros H. unfold Composite.resolveImageUrl. rewrite H.
  rewrite (bind_Ret _ _ _ _ _ (getImageUrl_run _ _ _)). reflexivity.
Qed.

Lemma Composite_resolve_none status path w :
  Composite.isDone status = false ->
  Composite.resolveImageUrl env status path w = (Ret JUndefined, w).
Proof. intros H. unfold Composite.resolveImageUrl. rewrite H. reflexivity. Qed.

End Stored.

(** ** What the storage helpers and the adapters may do *)

Section Effects.

Variable env : Env.
Variable P : Event -> bool.

Lemma does_storageUpload rows bucket path :
  (forall out, P (EvUpload bucket path out) = true) ->
  respects (only P rows false) (storageUpload env bucket path).
Proof.
  intros HP w. unfold storageUpload. split; [reflexivity|].
  split; [discriminate|]. exists [EvUpload bucket path (storage_upload env (now w) bucket path)].
  simpl. rewrite HP. split; reflexivity.
Qed.

Lemma does_storageRemove rows bucket path :
  (forall out, P (EvRemove bucket path out) = true) ->
  respects (only P rows false) (storageRemove env bucket path).
Proof.
  intros HP w. unfold storageRemove.
  destruct (storage_remove env (now w) bucket path) eqn:E; simpl;
    (split; [reflexivity|]; split; [discriminate|];
     eexists [_]; simpl; rewrite HP; split; reflexivity).
Qed.

Lemma does_db_insert keep row :
  P (EvInsert row) = true -> respects (only P false keep) (db_insert env row).
Proof.
  intros HP w. unfold db_insert. split; [discriminate|]. split; [reflexivity|].
  exists [EvInsert row]. simpl. rewrite HP. split; reflexivity.
Qed.

Lemma does_db_update keep id p :
  P (EvUpdate id p) = true -> respects (only P false keep) (db_update env id p).
Proof.
  intros HP w. unfold db_update. split; [discriminate|]. split; [reflexivity|].
  exists [EvUpdate id p]. simpl. rewrite HP. split; reflexivity.
Qed.

Lemma does_generateUniqueFilename rows keep name :
  respects (only P rows keep) (generateUniqueFilename env name).
Proof. unfold generateUniqueFilename. frame. Qed.

Lemma does_base64ToFile rows keep s :
  respects (only P rows keep) (base64ToFile env s).
Proof. unfold base64ToFile. apply does_pure. Qed.

End Effects.

#[local] Hint Resolve does_generateUniqueFilename does_base64ToFile
  replicateError_does combinerError_does : frames.

Section Effects2.

Variable env : Env.

Lemma uploadImage_does P rows bucket path :
  (forall out, P (EvUpload bucket path out) = true) ->
  P EvListBuckets = true ->
  respects (only P rows false) (uploadImage env bucket path).
Proof.
  intros H1 H2. unfold uploadImage. frame.
  - apply does_storageUpload, H1.
  - apply does_listBuckets, H2.
Qed.

(** Download and upload: the records are not touched. *)
Lemma downloadAndStore_does bucket prefix id url vars :
  respects (only isStorageCall true false)
           (downloadAndStore env bucket prefix id url vars).
Proof.
  unfold downloadAndStore. frame.
  - apply does_fetch. reflexivity.
  - apply uploadImage_does; reflexivity.
Qed.

Lemma TryOn_advance_does id g ps :
  respects (only isStorageCall true false) (TryOn.advance env id g ps).
Proof.
  unfold TryOn.advance, TryOn.logOutput. frame.
  all: apply downloadAndStore_does.
Qed.

Lemma Composite_advance_does id g ps :
  respects (only isStorageCall true false) (Composite.advance env id g ps).
Proof.
  unfold Composite.advance. frame.
  all: apply downloadAndStore_does.
Qed.

Lemma persist_does id vars :
  respects (only anyEvent false true) (persist env id vars).
Proof.
  unfold persist. frame. apply does_db_update. reflexivity.
Qed.

Lemma TryOn_resolve_does P rows keep status path :
  (forall out, P (EvSign TryOn.bucketName path out) = true) ->
  respects (only P rows keep) (TryOn.resolveImageUrl env status path).
Proof.
  intros HP. unfold TryOn.resolveImageUrl. frame. apply does_getImageUrl, HP.
Qed.

Lemma Composite_resolve_does P rows keep status path :
  (forall out, P (EvSign Composite.bucketName path out) = true) ->
  respects (only P rows keep) (Composite.resolveImageUrl env status path).
Proof.
  intros HP. unfold Composite.resolveImageUrl. frame. apply does_getImageUrl, HP.
Qed.

Lemma TryOn_finish_does id g vars :
  respects (only anyEvent false true) (TryOn.finish env id g vars).
Proof.
  unfold TryOn.finish. frame.
  - apply persist_does.
  - apply does_getImageUrl. reflexivity.
  - apply TryOn_resolve_does. reflexivity.
Qed.

Lemma Composite_finish_does id g vars :
  respects (only anyEvent false true) (Composite.finish env id g vars).
Proof.
  unfold Composite.finish. frame.
  - apply persist_does.
  - apply Composite_resolve_does. reflexivity.
  - apply Composite_resolve_does. reflexivity.
Qed.

End Effects2.

Section Polls.

Variable env : Env.

Lemma anyEvent_weaken {A} P rows keep (m : M A) :
  respects (only P rows keep) m -> respects (only anyEvent false false) m.
Proof. apply respects_weaken; [reflexivity | discriminate | discriminate]. Qed.

(** A status function sends one request, and that is all it does. *)
Lemma checkPredictionStatus_trace id w :
  trace (snd (checkPredictionStatus env id w)) =
  (trace w ++ [EvFetch (ReplicateGet id) (http env (now w) (ReplicateGet id))])%list.
Proof.
  unfold checkPredictionStatus. rewrite try_rethrow.
  unfold bind at 1, fetch.
  destruct (http env (now w) (ReplicateGet id)) as [r|t]; [|reflexivity].
  match goal with
  | |- trace (snd (?k ?w1)) = _ =>
      assert (respects (only (fun _ => false) true true) k) as Hk
  end.
  { frame. }
  rewrite (only_nothing _ _ _ _ (Hk _)). reflexivity.
Qed.

Lemma checkJobStatus_trace id w :
  hasKey env = true ->
  trace (snd (checkJobStatus env id w)) =
  (trace w ++ [EvFetch (CombinerGet id) (http env (now w) (CombinerGet id))])%list.
Proof.
  intros Hkey. unfold checkJobStatus. rewrite try_rethrow, Hkey. cbn [negb].
  unfold bind at 1, fetch.
  destruct (http env (now w) (CombinerGet id)) as [r|t]; [|reflexivity].
  match goal with
  | |- trace (snd (?k ?w1)) = _ =>
      assert (respects (only (fun _ => false) true true) k) as Hk
  end.
  { frame. }
  rewrite (only_nothing _ _ _ _ (Hk _)). reflexivity.
Qed.

Lemma TryOn_liveStatus_does id g :
  respects (only anyEvent false false) (TryOn.liveStatus env id g).
Proof.
  unfold TryOn.liveStatus. frame.
  - eapply anyEvent_weaken, checkPredictionStatus_does.
  - eapply anyEvent_weaken, TryOn_advance_does.
  - eapply anyEvent_weaken, TryOn_finish_does.
Qed.

(** A try-on status check of a generation that is not final polls first. *)
Lemma TryOn_liveStatus_polls id g w :
  exists rest,
    trace (snd (TryOn.liveStatus env id g w)) =
    (trace w ++ EvFetch (ReplicateGet (g_external_id g))
                  (http env (now w) (ReplicateGet (g_external_id g))) :: rest)%list.
Proof.
  unfold TryOn.liveStatus, try_catch. unfold bind at 1.
  pose proof (checkPredictionStatus_trace (g_external_id g) w) as Ht.
  destruct (checkPredictionStatus env (g_external_id g) w) as [[ps|t] w1];
    simpl in Ht.
  - match goal with
    | |- context [match ?k w1 with _ => _ end] =>
        assert (respects (only anyEvent false false) k) as Hk
    end.
    { frame.
      - eapply anyEvent_weaken, TryOn_advance_does.
      - eapply anyEvent_weaken, TryOn_finish_does. }
    specialize (Hk w1). destruct Hk as (_ & _ & evs & He & _).
    match goal with
    | |- context [match ?k w1 with _ => _ end] => destruct (k w1) as [[a|t] w2]
    end; simpl in *; exists evs; rewrite He, Ht, <- app_assoc; reflexivity.
  - exists []. simpl. exact Ht.
Qed.

End Polls.

(** ** Stored status "succeeded" *)

Lemma storedReply_members id g (u : string) :
  Js.get (reply_body (Composite.storedReply id g (JStr u))) "status"
    = JStr (g_status g) /\
  Js.get (reply_body (Composite.storedReply id g (JStr u))) "progress" = JNum 100 /\
  Js.get (reply_body (Composite.storedReply id g (JStr u))) "imageUrl" = JStr u.
Proof. repeat split. Qed.

(** C10. A composite status check that finds the stored status "succeeded"
    takes the branch of the final states, as it does for "completed": it
    makes no provider call, its only calls are the select and the signing of
    the stored path, and the reply carries the stored status as it is,
    progress 100 and the image URL resolved from the stored path.  A try-on
    status check of such a record polls the provider: the request follows
    the select in its trace. *)
Theorem stored_succeeded_is_final_for_composite (env : Env) (id : string)
  (g : Generation) (w : World) :
  nonEmpty (Some id) = Some id ->
  db w !! id = Some g ->
  (Composite.isDone (g_status g) = true ->
   Composite.GET env (mkGet (Some id)) w =
   (Ret (Composite.storedReply id g
           (JStr (imageUrlFor env "composite-images" (g_storage_path g)
                    (storage_createSignedUrl env (now (record env (EvSelect id) w))
                       "composite-images" (g_storage_path g))))),
    record env
      (EvSign "composite-images" (g_storage_path g)
         (storage_createSignedUrl env (now (record env (EvSelect id) w))
            "composite-images" (g_storage_path g)))
      (record env (EvSelect id) w))) /\
  (g_status g = "succeeded" ->
   Composite.isDone (g_status g) = true /\
   (forall u,
      Js.get (reply_body (Composite.storedReply id g (JStr u))) "status"
        = JStr "succeeded" /\
      Js.get (reply_body (Composite.storedReply id g (JStr u))) "progress"
        = JNum 100 /\
      Js.get (reply_body (Composite.storedReply id g (JStr u))) "imageUrl"
        = JStr u) /\
   exists rest,
     trace (snd (TryOn.GET env (mkGet (Some id)) w)) =
     (trace w ++ EvSelect id ::
        EvFetch (ReplicateGet (g_external_id g))
          (http env (now (record env (EvSelect id) w))
                (ReplicateGet (g_external_id g))) :: rest)%list).
Proof.
  intros Hid Hg. split.
  - intros Hdone.
    eapply Composite_GET_stored; eauto.
    + unfold Composite.isFinal. unfold Composite.isDone in Hdone.
      rewrite Hdone. reflexivity.
    + unfold Composite.storedStatus.
      rewrite (bind_Ret _ _ _ _ _ (Composite_resolve_signed env _ _ _ Hdone)).
      reflexivity.
  - intros Hs. split; [rewrite Hs; reflexivity|]. split.
    + intros u. rewrite <- Hs. apply storedReply_members.
    + destruct (TryOn_liveStatus_polls env id g (record env (EvSelect id) w))
        as [rest Hrest].
      exists rest.
      destruct (TryOn.liveStatus env id g (record env (EvSelect id) w))
        as [[reply|t] w'] eqn:E.
      * rewrite (TryOn_GET_live env id g w reply w' Hid Hg); auto.
        -- simpl in *. rewrite Hrest. simpl. rewrite <- app_assoc. reflexivity.
        -- rewrite Hs. reflexivity.
      * exfalso. unfold TryOn.liveStatus, try_catch in E.
        match type of E with
        | (match ?m with _ => _ end) = _ => destruct m as [[a|t'] w2]
        end; discriminate.
Qed.

Lemma stored_succeeded_is_final_for_composite_witness :
  fst (Composite.GET (Scenario.deployment (fun _ _ => Scenario.unreachable))
         (mkGet (Some "g2"))
         (Scenario.world [Scenario.row "g2" "composite" "succeeded"
                            (Some "g2/1-a.png") JNull (Some 100)]))
  = Ret (Composite.storedReply "g2"
           (Scenario.row "g2" "composite" "succeeded" (Some "g2/1-a.png") JNull
                         (Some 100))
           (JStr "https://project.supabase.co/storage/v1/object/sign/composite-images/g2/1-a.png?token=1007")) /\
  exists rest,
    trace (snd (TryOn.GET (Scenario.deployment (fun _ _ => Scenario.unreachable))
                  (mkGet (Some "g2"))
                  (Scenario.world [Scenario.row "g2" "composite" "succeeded"
                                     (Some "g2/1-a.png") JNull (Some 100)])))
    = EvSelect "g2" :: EvFetch (ReplicateGet (JStr "pred-1")) Scenario.unreachable
      :: rest.
Proof.
  pose proof (stored_succeeded_is_final_for_composite
             (Scenario.deployment (fun _ _ => Scenario.unreachable)) "g2"
             (Scenario.row "g2" "composite" "succeeded" (Some "g2/1-a.png") JNull
                           (Some 100))
             (Scenario.world [Scenario.row "g2" "composite" "succeeded"
                                (Some "g2/1-a.png") JNull (Some 100)])
             eq_refl ltac:(by_computation)) as [H1 H2].
  split.
  - rewrite (H1 eq_refl). by_computation.
  - destruct (H2 eq_refl) as (_ & _ & rest & Hrest). exists rest. exact Hrest.
Defined.

(** ** Reads of completed and failed generations *)

Section FinalReads.

Variable env : Env.

Lemma TryOn_storedStatus_failed id g w :
  g_status g = "failed" ->
  TryOn.storedStatus env id g w = (Ret (TryOn.storedReply id g JUndefined), w).
Proof.
  intros Hs. unfold TryOn.storedStatus.
  erewrite bind_Ret by (apply TryOn_resolve_none; rewrite Hs; reflexivity).
  reflexivity.
Qed.

Lemma Composite_storedStatus_failed id g w :
  g_status g = "failed" ->
  Composite.storedStatus env id g w =
  (Ret (Composite.storedReply id g JUndefined), w).
Proof.
  intros Hs. unfold Composite.storedStatus.
  erewrite bind_Ret by (apply Composite_resolve_none; rewrite Hs; reflexivity).
  reflexivity.
Qed.

Lemma TryOn_storedStatus_does id g :
  respects (only isStoredRead true true) (TryOn.storedStatus env id g).
Proof.
  unfold TryOn.storedStatus. frame. apply TryOn_resolve_does. reflexivity.
Qed.

Lemma Composite_storedStatus_does id g :
  respects (only isStoredRead true true) (Composite.storedStatus env id g).
Proof.
  unfold Composite.storedStatus. frame. apply Composite_resolve_does. reflexivity.
Qed.

Lemma only_after_select P rows keep id w w' :
  P (EvSelect id) = true ->
  only P rows keep (record env (EvSelect id) w) w' -> only P rows keep w w'.
Proof.
  intros HP H. eapply only_trans; [|exact H]. apply only_record, HP.
Qed.

End FinalReads.

(** C2, as the code has it.  A status check of a generation stored as
    completed or failed makes no provider call and writes nothing: its calls
    are the select and at most one signing request to the artifact store, and
    record store and stored objects are what they were.  For a failed
    generation there is no call to the artifact store and the reply is built
    from the stored columns alone, so it is the same at every read.  For a
    completed generation the image URL of the reply is what the signing
    request of that read returns, or the public URL when signing fails. *)
Theorem final_reads (env : Env) (id : string) (g : Generation) (w : World) :
  nonEmpty (Some id) = Some id ->
  db w !! id = Some g ->
  (g_status g = "failed" ->
   TryOn.GET env (mkGet (Some id)) w =
     (Ret (TryOn.storedReply id g JUndefined), record env (EvSelect id) w) /\
   Composite.GET env (mkGet (Some id)) w =
     (Ret (Composite.storedReply id g JUndefined), record env (EvSelect id) w)) /\
  (g_status g = "completed" ->
   (Js.truthy (Js.nullable (g_storage_path g)) = true ->
    TryOn.GET env (mkGet (Some id)) w =
    (Ret (TryOn.storedReply id g
            (TryOn.lastResort env (g_storage_path g)
               (imageUrlFor env "try-on-images" (g_storage_path g)
                  (storage_createSignedUrl env (now (record env (EvSelect id) w))
                     "try-on-images" (g_storage_path g))))),
     record env
       (EvSign "try-on-images" (g_storage_path g)
          (storage_createSignedUrl env (now (record env (EvSelect id) w))
             "try-on-images" (g_storage_path g)))
       (record env (EvSelect id) w))) /\
   (Js.truthy (Js.nullable (g_storage_path g)) = false ->
    TryOn.GET env (mkGet (Some id)) w =
    (Ret (TryOn.storedReply id g JUndefined), record env (EvSelect id) w)) /\
   Composite.GET env (mkGet (Some id)) w =
   (Ret (Composite.storedReply id g
           (JStr (imageUrlFor env "composite-images" (g_storage_path g)
                    (storage_createSignedUrl env (now (record env (EvSelect id) w))
                       "composite-images" (g_storage_path g))))),
    record env
      (EvSign "composite-images" (g_storage_path g)
         (storage_createSignedUrl env (now (record env (EvSelect id) w))
            "composite-images" (g_storage_path g)))
      (record env (EvSelect id) w))) /\
  (TryOn.isFinal (g_status g) = true ->
   only isStoredRead true true w (snd (TryOn.GET env (mkGet (Some id)) w)) /\
   only isStoredRead true true w (snd (Composite.GET env (mkGet (Some id)) w))).
Proof.
  intros Hid Hg. split; [|split].
  - intros Hs. split.
    + eapply TryOn_GET_stored; eauto.
      * rewrite Hs. reflexivity.
      * apply TryOn_storedStatus_failed, Hs.
    + eapply Composite_GET_stored; eauto.
      * rewrite Hs. reflexivity.
      * apply Composite_storedStatus_failed, Hs.
  - intros Hs. split; [|split].
    + intros Hp. eapply TryOn_GET_stored; eauto.
      * rewrite Hs. reflexivity.
      * unfold TryOn.storedStatus.
        erewrite bind_Ret
          by (apply TryOn_resolve_signed; rewrite Hs, Hp; reflexivity).
        reflexivity.
    + intros Hp. eapply TryOn_GET_stored; eauto.
      * rewrite Hs. reflexivity.
      * unfold TryOn.storedStatus.
        erewrite bind_Ret
          by (apply TryOn_resolve_none; rewrite Hs, Hp; reflexivity).
        reflexivity.
    + eapply Composite_GET_stored; eauto.
      * rewrite Hs. reflexivity.
      * unfold Composite.storedStatus.
        erewrite bind_Ret
          by (apply Composite_resolve_signed; rewrite Hs; reflexivity).
        reflexivity.
  - intros Hf. split.
    + pose proof (TryOn_storedStatus_does env id g (record env (EvSelect id) w)) as Hd.
      destruct (TryOn.storedStatus env id g (record env (EvSelect id) w))
        as [[reply|t] w'] eqn:E.
      * rewrite (TryOn_GET_stored env id g w reply w' Hid Hg Hf E).
        eapply only_after_select; [reflexivity | exact Hd].
      * exfalso. unfold TryOn.storedStatus, bind in E.
        destruct (TryOn.resolveImageUrl env (g_status g) (g_storage_path g)
                    (record env (EvSelect id) w)) as [[u|t'] w2] eqn:E2;
          [discriminate|].
        unfold TryOn.resolveImageUrl in E2.
        destruct (_ && _)%bool in E2; [|discriminate].
        rewrite (bind_Ret _ _ _ _ _ (getImageUrl_run env _ _ _)) in E2.
        discriminate.
    + assert (Composite.isFinal (g_status g) = true) as Hf'.
      { unfold TryOn.isFinal in Hf. unfold Composite.isFinal.
        destruct (String.eqb (g_status g) "completed"); [reflexivity|].
        simpl in *. rewrite Hf. apply orb_true_r. }
      pose proof (Composite_storedStatus_does env id g (record env (EvSelect id) w))
        as Hd.
      destruct (Composite.storedStatus env id g (record env (EvSelect id) w))
        as [[reply|t] w'] eqn:E.
      * rewrite (Composite_GET_stored env id g w reply w' Hid Hg Hf' E).
        eapply only_after_select; [reflexivity | exact Hd].
      * exfalso. unfold Composite.storedStatus, bind in E.
        destruct (Composite.resolveImageUrl env (g_status g) (g_storage_path g)
                    (record env (EvSelect id) w)) as [[u|t'] w2] eqn:E2;
          [discriminate|].
        unfold Composite.resolveImageUrl in E2.
        destruct (Composite.isDone _) in E2; [|discriminate].
        rewrite (bind_Ret _ _ _ _ _ (getImageUrl_run env _ _ _)) in E2.
        discriminate.
Qed.

(** Two reads of a completed generation, one after the other: each asks the
    artifact store for a signed URL, and the replies differ in it. *)
Lemma final_reads_counterexample :
  g_status Scenario.completed = "completed" /\
  db (snd (TryOn.GET Scenario.offline (mkGet (Some "g1"))
             (Scenario.world [Scenario.completed]))) !! "g1"
    = Some Scenario.completed /\
  Js.get (bodyOf (TryOn.GET Scenario.offline (mkGet (Some "g1"))
                    (Scenario.world [Scenario.completed]))) "imageUrl"
    = JStr "https://project.supabase.co/storage/v1/object/sign/try-on-images/g1/1-a.png?token=1007" /\
  Js.get (bodyOf (TryOn.GET Scenario.offline (mkGet (Some "g1"))
                    (snd (TryOn.GET Scenario.offline (mkGet (Some "g1"))
                            (Scenario.world [Scenario.completed]))))) "imageUrl"
    = JStr "https://project.supabase.co/storage/v1/object/sign/try-on-images/g1/1-a.png?token=1021" /\
  existsb isArtifactStoreCall
    (trace (snd (TryOn.GET Scenario.offline (mkGet (Some "g1"))
                   (Scenario.world [Scenario.completed])))) = true.
Proof. repeat split; by_computation. Qed.

Lemma final_reads_witness :
  TryOn.GET Scenario.offline (mkGet (Some "g3")) (Scenario.world [Scenario.failed])
  = (Ret (TryOn.storedReply "g3" Scenario.failed JUndefined),
     record Scenario.offline (EvSelect "g3") (Scenario.world [Scenario.failed])) /\
  only isStoredRead true true (Scenario.world [Scenario.completed])
       (snd (TryOn.GET Scenario.offline (mkGet (Some "g1"))
               (Scenario.world [Scenario.completed]))).
Proof.
  split.
  - exact (proj1 (proj1 (final_reads Scenario.offline "g3" Scenario.failed
                           (Scenario.world [Scenario.failed])
                           eq_refl ltac:(by_computation)) eq_refl)).
  - exact (proj1 (proj2 (proj2 (final_reads Scenario.offline "g1" Scenario.completed
                           (Scenario.world [Scenario.completed])
                           eq_refl ltac:(by_computation))) eq_refl)).
Defined.

(** ** What the combiner adapter may do *)

Section CombinerEffects.

Variable env : Env.

Lemma only_newEvents P rows keep w w' :
  only P rows keep w w' -> forallb P (newEvents w w') = true.
Proof.
  intros (_ & _ & evs & Ht & Hp). unfold newEvents. rewrite Ht.
  rewrite drop_app_length. exact Hp.
Qed.

Lemma pollOnce_does id :
  respects (only isProviderCall true true) (pollOnce env id).
Proof.
  unfold pollOnce. frame. apply does_fetch. reflexivity.
Qed.

Lemma pollLoop_does turns start id :
  respects (only isProviderCall true true) (pollLoop env turns start id).
Proof.
  induction turns as [|n IH]; simpl.
  - apply does_throwError.
  - frame; first [apply pollOnce_does | apply IH].
Qed.

Lemma pollForResults_does id :
  respects (only isProviderCall true true) (pollForResults env id).
Proof. unfold pollForResults. frame. apply pollLoop_does. Qed.

Lemma createAndPoll_does a b c :
  respects (only isProviderCall true true) (createAndPoll env a b c).
Proof.
  unfold createAndPoll. frame.
  - apply does_fetch. reflexivity.
  - apply pollForResults_does.
Qed.

Lemma uploadImagesToSupabase_does a b :
  respects (only notRecordWrite true false) (uploadImagesToSupabase env a b).
Proof.
  unfold uploadImagesToSupabase. frame.
  all: first [ apply uploadImage_does; reflexivity
             | apply does_getImageUrl; reflexivity ].
Qed.

Lemma cleanupTempImages_does paths :
  respects (only notRecordWrite true false) (cleanupTempImages env paths).
Proof.
  unfold cleanupTempImages, deleteImage. frame.
  all: apply does_storageRemove; reflexivity.
Qed.

Lemma cleanupIfAny_does paths :
  respects (only notRecordWrite true false) (cleanupIfAny env paths).
Proof. unfold cleanupIfAny. frame. apply cleanupTempImages_does. Qed.

Lemma prepareSources_does a b u :
  respects (only notRecordWrite true false) (prepareSources env a b u).
Proof. unfold prepareSources. frame. apply uploadImagesToSupabase_does. Qed.

(** [generateComposite] calls the provider and the artifact store; it writes
    no record. *)
Lemma generateComposite_does a b c u :
  respects (only notRecordWrite true false) (generateComposite env a b c u).
Proof.
  unfold generateComposite. frame.
  all: first [ apply prepareSources_does
             | apply cleanupIfAny_does
             | eapply respects_weaken; [| | |apply createAndPoll_does];
               [intros [] H; try discriminate H; reflexivity | auto | auto] ].
Qed.

End CombinerEffects.

(** ** Creating a generation *)

Section Create.

Variable env : Env.

Lemma validTryOn_parse fields prompt :
  validTryOn fields = Some prompt ->
  tryOnMembers fields = true /\
  Zod.safeParse TryOnRequestSchema (JObj fields) =
  Zod.Success [("modelImageBase64", Js.assoc "modelImageBase64" fields);
               ("clothingImageBase64", Js.assoc "clothingImageBase64" fields);
               ("modelImageId", Js.assoc "modelImageId" fields);
               ("clothingImageId", Js.assoc "clothingImageId" fields);
               ("prompt", JStr prompt)].
Proof.
  unfold validTryOn. intros H.
  destruct (tryOnMembers fields) eqn:Hm; [|discriminate].
  split; [reflexivity|]. apply tryOn_members_parse; [exact Hm|].
  destruct (Js.assoc "prompt" fields) eqn:Hp; try discriminate.
  - inversion H. reflexivity.
  - destruct (_ && _)%bool eqn:Hl in H; [|discriminate]. inversion H; subst.
    apply andb_prop in Hl as [H1 H2].
    apply Nat.leb_le in H1. apply Nat.leb_le in H2.
    exact (prompt_fits 5 _ prompt (conj H1 H2)).
Qed.

Lemma validComposite_parse fields prompt :
  validComposite fields = Some prompt ->
  compositeMembers fields = true /\
  Zod.safeParse CompositeRequestSchema (JObj fields) =
  Zod.Success [("figureImageBase64", Js.assoc "figureImageBase64" fields);
               ("sceneImageBase64", Js.assoc "sceneImageBase64" fields);
               ("figureImageId", Js.assoc "figureImageId" fields);
               ("sceneImageId", Js.assoc "sceneImageId" fields);
               ("prompt", JStr prompt)].
Proof.
  unfold validComposite. intros H.
  destruct (compositeMembers fields) eqn:Hm; [|discriminate].
  split; [reflexivity|]. apply composite_members_parse; [exact Hm|].
  destruct (Js.assoc "prompt" fields) eqn:Hp; try discriminate.
  destruct (_ && _)%bool eqn:Hl in H; [|discriminate]. inversion H; subst.
  apply andb_prop in Hl as [H1 H2].
  apply Nat.leb_le in H1. apply Nat.leb_le in H2.
  apply prompt_fits. split; assumption.
Qed.

Lemma imageData_truthy k fields :
  imageData k fields = true -> Js.truthy (Js.assoc k fields) = true.
Proof.
  unfold imageData. destruct (Js.assoc k fields); try discriminate.
  intros H. exact H.
Qed.

(** After validation, [POST] is its inner [try] block and the reply. *)
Lemma TryOn_POST_submitted user fields prompt w failure w1 :
  validTryOn fields = Some prompt ->
  TryOn.submit env (generateId env (now w)) user
    (stringOf (Js.assoc "modelImageBase64" fields))
    (stringOf (Js.assoc "clothingImageBase64" fields)) prompt
    (TryOn.metadataOf (Js.assoc "modelImageId" fields)
                      (Js.assoc "clothingImageId" fields) prompt) w
  = (Ret failure, w1) ->
  TryOn.POST env (mkPost (Ret (JObj fields)) user) w =
  (Ret match failure with
       | Some reply => reply
       | None => TryOn.accepted env (now w1) (generateId env (now w))
                   (Js.assoc "modelImageId" fields)
                   (Js.assoc "clothingImageId" fields)
       end, w1).
Proof.
  intros Hv Hs. destruct (validTryOn_parse _ _ Hv) as [Hm Hp].
  unfold tryOnMembers in Hm.
  apply andb_prop in Hm as [Hm _]. apply andb_prop in Hm as [Hm _].
  apply andb_prop in Hm as [H1 H2].
  apply imageData_truthy in H1. apply imageData_truthy in H2.
  unfold TryOn.POST. apply try_Ret.
  unfold bind at 1. cbn [post_json]. rewrite Hp.
  unfold bind at 1, Date_now. unfold bind at 1, logGeneration, ret.
  cbn [Js.assoc String.eqb Ascii.eqb Bool.eqb andb].
  rewrite H1, H2. cbn [negb orb].
  cbn [post_user stringOf]. unfold bind at 1. rewrite Hs.
  destruct failure; reflexivity.
Qed.

Lemma Composite_POST_submitted user fields prompt w failure w1 :
  validComposite fields = Some prompt ->
  Composite.submit env (generateId env (now w)) user
    (stringOf (Js.assoc "figureImageBase64" fields))
    (stringOf (Js.assoc "sceneImageBase64" fields)) prompt
    (Composite.metadataOf (Js.assoc "figureImageId" fields)
                          (Js.assoc "sceneImageId" fields) prompt) w
  = (Ret failure, w1) ->
  Composite.POST env (mkPost (Ret (JObj fields)) user) w =
  (Ret match failure with
       | Some reply => reply
       | None => Composite.accepted env (now w1) (generateId env (now w))
                   (Js.assoc "figureImageId" fields)
                   (Js.assoc "sceneImageId" fields) prompt
       end, w1).
Proof.
  intros Hv Hs. destruct (validComposite_parse _ _ Hv) as [Hm Hp].
  unfold compositeMembers in Hm.
  apply andb_prop in Hm as [Hm _]. apply andb_prop in Hm as [Hm _].
  apply andb_prop in Hm as [H1 H2].
  apply imageData_truthy in H1. apply imageData_truthy in H2.
  unfold Composite.POST. apply try_Ret.
  unfold bind at 1. cbn [post_json]. rewrite Hp.
  unfold bind at 1, Date_now. unfold bind at 1, logGeneration, ret.
  cbn [Js.assoc String.eqb Ascii.eqb Bool.eqb andb].
  rewrite H1, H2. cbn [negb orb].
  cbn [post_user stringOf]. unfold bind at 1. rewrite Hs.
  destruct failure; reflexivity.
Qed.

Lemma TryOn_submit_throws id user a b c metadata w t w1 :
  generateTryOn env a b c w = (Throw t, w1) ->
  TryOn.submit env id user a b c metadata w =
  (Ret (Some (TryOn.submitError (messageOr "Unknown error" t))), w1).
Proof.
  intros H. unfold TryOn.submit.
  rewrite (try_Throw _ _ _ t w1); [reflexivity|]. apply bind_Throw, H.
Qed.

Lemma Composite_submit_throws id user a b c metadata w t w1 :
  generateComposite env a b c true w = (Throw t, w1) ->
  Composite.submit env id user a b c metadata w =
  (Ret (Some (Composite.submitError (messageOr "Unknown error" t))), w1).
Proof.
  intros H. unfold Composite.submit.
  rewrite (try_Throw _ _ _ t w1); [reflexivity|]. apply bind_Throw, H.
Qed.

Lemma TryOn_submit_returns id user a b c metadata w predictionId w1 :
  generateTryOn env a b c w = (Ret predictionId, w1) ->
  TryOn.submit env id user a b c metadata w =
  (Ret None,
   snd (db_insert env (TryOn.newRow env (now w1) id user predictionId metadata) w1)).
Proof.
  intros H. unfold TryOn.submit. apply try_Ret.
  rewrite (bind_Ret _ _ _ _ _ H). reflexivity.
Qed.

Lemma Composite_submit_returns id user a b c metadata w imageUrl jobId w1 :
  generateComposite env a b c true w = (Ret (imageUrl, jobId), w1) ->
  Composite.submit env id user a b c metadata w =
  (Ret None,
   snd (db_insert env (Composite.newRow env (now w1) id user jobId metadata) w1)).
Proof.
  intros H. unfold Composite.submit. apply try_Ret.
  rewrite (bind_Ret _ _ _ _ _ H). reflexivity.
Qed.

End Create.

(** C5. When the submission to the provider fails during a create request
    that passed validation, the reply is a 500 whose [message] is the message
    of the submission error, no record is inserted and the record store is
    what it was.  For the try-on and for the composite route. *)
Theorem failed_submission_inserts_nothing (env : Env) (user : option string)
  (fields : list (string * JsVal)) (prompt : string) (w w1 : World) (t : Thrown) :
  (validTryOn fields = Some prompt ->
   generateTryOn env (stringOf (Js.assoc "modelImageBase64" fields))
     (stringOf (Js.assoc "clothingImageBase64" fields)) prompt w = (Throw t, w1) ->
   TryOn.POST env (mkPost (Ret (JObj fields)) user) w =
     (Ret (TryOn.submitError (messageOr "Unknown error" t)), w1) /\
   reply_status (TryOn.submitError (messageOr "Unknown error" t)) = 500 /\
   Js.get (reply_body (TryOn.submitError (messageOr "Unknown error" t))) "message"
     = JStr (messageOr "Unknown error" t) /\
   db w1 = db w /\
   forallb notRecordWrite (newEvents w w1) = true) /\
  (validComposite fields = Some prompt ->
   generateComposite env (stringOf (Js.assoc "figureImageBase64" fields))
     (stringOf (Js.assoc "sceneImageBase64" fields)) prompt true w = (Throw t, w1) ->
   Composite.POST env (mkPost (Ret (JObj fields)) user) w =
     (Ret (Composite.submitError (messageOr "Unknown error" t)), w1) /\
   reply_status (Composite.submitError (messageOr "Unknown error" t)) = 500 /\
   Js.get (reply_body (Composite.submitError (messageOr "Unknown error" t))) "message"
     = JStr (messageOr "Unknown error" t) /\
   db w1 = db w /\
   forallb notRecordWrite (newEvents w w1) = true).
Proof.
  split; intros Hv Hg.
  - split; [|split; [reflexivity|split; [reflexivity|]]].
    + rewrite (TryOn_POST_submitted env user fields prompt w _ w1 Hv
                 (TryOn_submit_throws env _ _ _ _ _ _ _ _ _ Hg)).
      reflexivity.
    + pose proof (generateTryOn_does env
                    (stringOf (Js.assoc "modelImageBase64" fields))
                    (stringOf (Js.assoc "clothingImageBase64" fields)) prompt w) as Hd.
      rewrite Hg in Hd. simpl in Hd. split; [apply Hd; reflexivity|].
      apply only_newEvents in Hd. rewrite forallb_forall in *.
      intros e He. specialize (Hd e He). destruct e; try discriminate; reflexivity.
  - split; [|split; [reflexivity|split; [reflexivity|]]].
    + rewrite (Composite_POST_submitted env user fields prompt w _ w1 Hv
                 (Composite_submit_throws env _ _ _ _ _ _ _ _ _ Hg)).
      reflexivity.
    + pose proof (generateComposite_does env
                    (stringOf (Js.assoc "figureImageBase64" fields))
                    (stringOf (Js.assoc "sceneImageBase64" fields)) prompt true w)
        as Hd.
      rewrite Hg in Hd. simpl in Hd. split; [apply Hd; reflexivity|].
      eapply only_newEvents, Hd.
Qed.

Lemma failed_submission_inserts_nothing_witness :
  fst (TryOn.POST Scenario.offline Scenario.tryOnRequest (Scenario.world []))
    = Ret (TryOn.submitError "fetch failed") /\
  fst (Composite.POST Scenario.rejecting Scenario.compositeRequest (Scenario.world []))
    = Ret (Composite.submitError "AI Image Combiner API error: Invalid input").
Proof.
  unfold Scenario.tryOnRequest, Scenario.compositeRequest. split.
  - rewrite (proj1 (proj1 (failed_submission_inserts_nothing Scenario.offline None
               (Scenario.tryOnBody (JStr "A person wearing a red jacket"))
               "A person wearing a red jacket" (Scenario.world [])
               (snd (generateTryOn Scenario.offline
                       "data:image/png;base64,iVBORw0KGgo="
                       "data:image/png;base64,R0lGODlhAQ=="
                       "A person wearing a red jacket" (Scenario.world [])))
               (ThrownError "fetch failed"))
             ltac:(by_computation) ltac:(by_computation))).
    reflexivity.
  - rewrite (proj1 (proj2 (failed_submission_inserts_nothing Scenario.rejecting None
               (Scenario.compositeBody (JStr "Standing in a park at noon"))
               "Standing in a park at noon" (Scenario.world [])
               (snd (generateComposite Scenario.rejecting
                       "data:image/png;base64,iVBORw0KGgo="
                       "data:image/png;base64,R0lGODlhAQ=="
                       "Standing in a park at noon" true (Scenario.world [])))
               (ThrownError "AI Image Combiner API error: Invalid input"))
             ltac:(by_computation) ltac:(by_computation))).
    reflexivity.
Defined.

(** ** The combiner has finished when [generateComposite] returns *)

Section Waiting.

Variable env : Env.

Lemma In_newEvents e w w' evs :
  trace w' = (trace w ++ evs)%list -> In e evs -> In e (newEvents w w').
Proof.
  intros Ht Hi. unfold newEvents. rewrite Ht, drop_app_length. exact Hi.
Qed.

Lemma newEvents_app w w' evs :
  trace w' = (trace w ++ evs)%list -> newEvents w w' = evs.
Proof. intros Ht. unfold newEvents. rewrite Ht. apply drop_app_length. Qed.

(** Events of a later part of a computation are events of the whole. *)
Lemma In_newEvents_later P rows keep e w w1 w2 :
  only P rows keep w w1 -> (exists evs, trace w2 = (trace w1 ++ evs)%list) ->
  In e (newEvents w1 w2) -> In e (newEvents w w2).
Proof.
  intros (_ & _ & evs1 & Ht1 & _) [evs2 Ht2] Hi.
  rewrite (newEvents_app _ _ _ Ht2) in Hi.
  apply (In_newEvents e w w2 (evs1 ++ evs2)%list).
  - rewrite Ht2, Ht1, app_assoc. reflexivity.
  - apply in_or_app. right. exact Hi.
Qed.

Lemma In_newEvents_earlier P rows keep e w w1 w2 :
  (exists evs, trace w1 = (trace w ++ evs)%list) -> only P rows keep w1 w2 ->
  In e (newEvents w w1) -> In e (newEvents w w2).
Proof.
  intros [evs1 Ht1] (_ & _ & evs2 & Ht2 & _) Hi.
  rewrite (newEvents_app _ _ _ Ht1) in Hi.
  apply (In_newEvents e w w2 (evs1 ++ evs2)%list).
  - rewrite Ht2, Ht1, app_assoc. reflexivity.
  - apply in_or_app. left. exact Hi.
Qed.

Lemma only_grows P rows keep w w' :
  only P rows keep w w' -> exists evs, trace w' = (trace w ++ evs)%list.
Proof. intros (_ & _ & evs & Ht & _). exists evs. exact Ht. Qed.

Lemma isString_eq s v : isString s v = true -> v = JStr s.
Proof.
  destruct v; try discriminate. simpl. intros H.
  apply String.eqb_eq in H. subst. reflexivity.
Qed.

Lemma member_Ret v k a w w' : member v k w = (Ret a, w') -> a = Js.get v k /\ w' = w.
Proof.
  unfold member. destruct v; intros H; inversion H; split; reflexivity.
Qed.

(** A turn of the loop that returns an output has just been told
    "succeeded". *)
Lemma pollOnce_Some id w output w1 :
  pollOnce env id w = (Ret (Some output), w1) ->
  exists e, succeededPoll id e /\ In e (newEvents w w1).
Proof.
  unfold pollOnce. rewrite try_rethrow. unfold bind at 1, fetch.
  destruct (http env (now w) (CombinerGet id)) as [r|t] eqn:Eh; [|discriminate].
  destruct (resp_ok r); cbn [negb].
  - unfold json, text.
    destruct (resp_bodyError r); [discriminate|].
    unfold bind at 1. unfold bind at 1. cbn [ret].
    destruct (resp_json r) as [prediction|t] eqn:Ej; [|discriminate].
    unfold bind at 1.
    destruct (member prediction "status" _) as [[status|t] w2] eqn:Em; [|discriminate].
    apply member_Ret in Em as [Hs Hw]. subst w2.
    unfold bind at 1.
    destruct (Object_keys prediction _) as [[u|t] w2] eqn:Ek; [|discriminate].
    assert (w2 = record env (EvFetch (CombinerGet id) (Ret r)) w) as Hw2.
    { unfold Object_keys in Ek. destruct prediction; inversion Ek; reflexivity. }
    subst w2.
    destruct (isString "succeeded" status) eqn:Es.
    + unfold bind at 1.
      destruct (member prediction "output" _) as [[o|t] w3] eqn:Eo; [|discriminate].
      apply member_Ret in Eo as [Ho Hw]. subst w3.
      intros H. inversion H; subst.
      exists (EvFetch (CombinerGet id) (Ret r)). split.
      * exists r, prediction. repeat split; auto.
        apply isString_eq in Es. exact Es.
      * apply (In_newEvents _ _ _ [EvFetch (CombinerGet id) (Ret r)]);
          [reflexivity | left; reflexivity].
    + destruct (isString "failed" status).
      * unfold bind at 1.
        destruct (member prediction "error" _) as [[o|t] w3]; discriminate.
      * discriminate.
  - unfold bind at 1. destruct (text r _) as [[x|t] w2]; discriminate.
Qed.

Lemma pollLoop_Ret turns start id :
  forall w output w1,
    pollLoop env turns start id w = (Ret output, w1) ->
    exists e, succeededPoll id e /\ In e (newEvents w w1).
Proof.
  induction turns as [|n IH]; intros w output w1; simpl; [discriminate|].
  unfold bind at 1, Date_now.
  destruct (_ <? _)%N; [|discriminate].
  unfold bind at 1.
  pose proof (pollOnce_does env id w) as Hd.
  destruct (pollOnce env id w) as [[[out|]|t] w2] eqn:Ep; [| |discriminate].
  - intros H. inversion H; subst. eapply pollOnce_Some, Ep.
  - intros H. destruct (IH _ _ _ H) as (e & He & Hi).
    exists e. split; [exact He|].
    eapply In_newEvents_later; [exact Hd | | exact Hi].
    eapply only_grows. pose proof (pollLoop_does env n start id w2) as Hl.
    rewrite H in Hl. exact Hl.
Qed.

Lemma createAndPoll_Ret a b c w result id w1 :
  createAndPoll env a b c w = (Ret (result, id), w1) ->
  exists e, succeededPoll id e /\ In e (newEvents w w1).
Proof.
  unfold createAndPoll. unfold bind at 1, fetch.
  destruct (http env (now w) (CombinerCreate a b c)) as [r|t]; [|discriminate].
  set (w0 := record env _ w).
  assert (only isProviderCall true true w w0) as H0.
  { apply only_record. reflexivity. }
  destruct (resp_ok r); cbn [negb].
  - unfold bind at 1.
    destruct (json r w0) as [[prediction|t] w2] eqn:Ej; [|discriminate].
    assert (w2 = w0) as ->.
    { unfold json, text, bind in Ej. destruct (resp_bodyError r); inversion Ej; reflexivity. }
    unfold bind at 1.
    destruct (member prediction "id" w0) as [[pid|t] w2] eqn:Em; [|discriminate].
    apply member_Ret in Em as [Hs Hw]. subst w2.
    unfold bind at 1.
    destruct (Object_keys prediction w0) as [[u|t] w2] eqn:Ek; [|discriminate].
    assert (w2 = w0) as ->.
    { unfold Object_keys in Ek. destruct prediction; inversion Ek; reflexivity. }
    unfold bind at 1.
    destruct (pollForResults env pid w0) as [[res|t] w2] eqn:Ep; [|discriminate].
    intros H. inversion H; subst.
    unfold pollForResults, bind, Date_now in Ep.
    destruct (pollLoop_Ret _ _ _ _ _ _ Ep) as (e & He & Hi).
    exists e. split; [exact He|].
    eapply In_newEvents_later; [exact H0 | | exact Hi].
    eapply only_grows. pose proof (pollLoop_does env pollTurns (now w0) (Js.get prediction "id") w0) as Hl.
    rewrite Ep in Hl. exact Hl.
  - unfold bind at 1. destruct (combinerError true r w0) as [[x|t] w2]; discriminate.
Qed.

(** When [generateComposite] returns a job id, the provider has already
    answered a poll for that job with "succeeded". *)
Lemma generateComposite_Ret a b c u w imageUrl jobId w1 :
  generateComposite env a b c u w = (Ret (imageUrl, jobId), w1) ->
  exists e, succeededPoll jobId e /\ In e (newEvents w w1).
Proof.
  unfold generateComposite. intros H.
  apply bind_Ret_inv in H as ([[fu su] paths] & w0 & Hprep & H).
  pose proof (prepareSources_does env a b u w) as Hp.
  apply try_inv in Hprep as [(x & Hprep & Hx)|(t & w' & Hprep & Hh)].
  - inversion Hx; subst x. rewrite Hprep in Hp. simpl in Hp.
    apply try_inv in H as [(x & H & Hx')|(t & w' & H & Hh)].
    + inversion Hx'; subst x.
      apply bind_Ret_inv in H as ([res pid] & w2 & Hc & H).
      apply bind_Ret_inv in H as (x & w3 & Hk & H).
      inversion H; subst.
      pose proof (createAndPoll_does env fu su c w0) as Hcd.
      rewrite Hc in Hcd. simpl in Hcd.
      pose proof (cleanupIfAny_does env paths w2) as Hkd.
      rewrite Hk in Hkd. simpl in Hkd.
      destruct (createAndPoll_Ret _ _ _ _ _ _ _ Hc) as (e & He & Hi).
      exists e. split; [exact He|].
      eapply In_newEvents_later; [exact Hp | |].
      * destruct (only_grows _ _ _ _ _ Hcd) as [e1 H1].
        destruct (only_grows _ _ _ _ _ Hkd) as [e2 H2].
        exists (e1 ++ e2)%list. rewrite H2, H1, app_assoc. reflexivity.
      * eapply In_newEvents_earlier; [eapply only_grows, Hcd | exact Hkd | exact Hi].
    + apply bind_inv in Hh as [(x & w3 & _ & Hh)|(t' & _ & Hh)]; discriminate.
  - apply bind_inv in Hh as [(x & w3 & _ & Hh)|(t' & _ & Hh)]; discriminate.
Qed.

End Waiting.

(** ** A created generation *)

Section Created.

Variable env : Env.

Lemma generateTryOn_trace a b c w :
  trace (snd (generateTryOn env a b c w)) =
  (trace w ++ [EvFetch (ReplicateCreate a b c)
                 (http env (now w) (ReplicateCreate a b c))])%list.
Proof.
  unfold generateTryOn. rewrite try_rethrow.
  unfold bind at 1, fetch.
  destruct (http env (now w) (ReplicateCreate a b c)) as [r|t]; [|reflexivity].
  match goal with
  | |- trace (snd (?k ?w1)) = _ =>
      assert (respects (only (fun _ => false) true true) k) as Hk
  end.
  { frame. }
  rewrite (only_nothing _ _ _ _ (Hk _)). reflexivity.
Qed.

Lemma insert_fresh row w w1 :
  db w1 = db w -> db w !! g_id row = None ->
  db (snd (db_insert env row w1)) = <[g_id row := row]> (db w) /\
  objects (snd (db_insert env row w1)) = objects w1 /\
  trace (snd (db_insert env row w1)) = (trace w1 ++ [EvInsert row])%list.
Proof.
  intros Hd Hf. unfold db_insert. simpl. rewrite Hd, Hf. repeat split.
Qed.

End Created.

(** C6, as the code has it.  When the submission succeeds and the allocated
    id is not taken, the new record is stored with status "processing", the
    id the provider returned, the prompt and the image ids of the request as
    metadata, and no progress (a status check reads a missing progress as 0);
    the reply carries the allocated id and the status "processing".  The
    try-on route has made one provider request by then, the submission.  The
    composite route has polled: when its submission returns, the provider
    has already answered a poll for the job with "succeeded". *)
Theorem created_generation (env : Env) (user : option string)
  (fields : list (string * JsVal)) (prompt : string) (w w1 : World)
  (output providerId : JsVal) :
  db w !! generateId env (now w) = None ->
  (validTryOn fields = Some prompt ->
   generateTryOn env (stringOf (Js.assoc "modelImageBase64" fields))
     (stringOf (Js.assoc "clothingImageBase64" fields)) prompt w
     = (Ret providerId, w1) ->
   exists row w2,
     TryOn.POST env (mkPost (Ret (JObj fields)) user) w =
       (Ret (TryOn.accepted env (now w2) (generateId env (now w))
               (Js.assoc "modelImageId" fields) (Js.assoc "clothingImageId" fields)),
        w2) /\
     Js.get (reply_body (TryOn.accepted env (now w2) (generateId env (now w))
               (Js.assoc "modelImageId" fields) (Js.assoc "clothingImageId" fields)))
            "status" = JStr "processing" /\
     db w2 = <[generateId env (now w) := row]> (db w) /\
     g_id row = generateId env (now w) /\
     g_status row = "processing" /\
     g_external_id row = column providerId /\
     g_progress row = None /\ progressOr0 (g_progress row) = 0 /\
     g_metadata row = Js.object [("modelImageId", Js.assoc "modelImageId" fields);
                                 ("clothingImageId", Js.assoc "clothingImageId" fields);
                                 ("prompt", JStr prompt)] /\
     newEvents w w2 =
       [EvFetch (ReplicateCreate (stringOf (Js.assoc "modelImageBase64" fields))
                   (stringOf (Js.assoc "clothingImageBase64" fields)) prompt)
          (http env (now w)
             (ReplicateCreate (stringOf (Js.assoc "modelImageBase64" fields))
                (stringOf (Js.assoc "clothingImageBase64" fields)) prompt));
        EvInsert row]) /\
  (validComposite fields = Some prompt ->
   generateComposite env (stringOf (Js.assoc "figureImageBase64" fields))
     (stringOf (Js.assoc "sceneImageBase64" fields)) prompt true w
     = (Ret (output, providerId), w1) ->
   exists row w2,
     Composite.POST env (mkPost (Ret (JObj fields)) user) w =
       (Ret (Composite.accepted env (now w2) (generateId env (now w))
               (Js.assoc "figureImageId" fields) (Js.assoc "sceneImageId" fields)
               prompt),
        w2) /\
     Js.get (reply_body (Composite.accepted env (now w2) (generateId env (now w))
               (Js.assoc "figureImageId" fields) (Js.assoc "sceneImageId" fields)
               prompt))
            "status" = JStr "processing" /\
     db w2 = <[generateId env (now w) := row]> (db w) /\
     g_id row = generateId env (now w) /\
     g_status row = "processing" /\
     g_external_id row = column providerId /\
     g_progress row = None /\ progressOr0 (g_progress row) = 0 /\
     g_metadata row = Js.object [("figureImageId", Js.assoc "figureImageId" fields);
                                 ("sceneImageId", Js.assoc "sceneImageId" fields);
                                 ("prompt", JStr prompt)] /\
     trace w2 = (trace w1 ++ [EvInsert row])%list /\
     exists e, succeededPoll providerId e /\ In e (newEvents w w1)).
Proof.
  intros Hfresh. split; intros Hv Hg.
  - set (row := TryOn.newRow env (now w1) (generateId env (now w)) user providerId
                  (TryOn.metadataOf (Js.assoc "modelImageId" fields)
                     (Js.assoc "clothingImageId" fields) prompt)).
    exists row, (snd (db_insert env row w1)).
    pose proof (generateTryOn_does env
                  (stringOf (Js.assoc "modelImageBase64" fields))
                  (stringOf (Js.assoc "clothingImageBase64" fields)) prompt w) as Hd.
    rewrite Hg in Hd.
    destruct Hd as (Hdb & _ & _). specialize (Hdb eq_refl). simpl in Hdb.
    destruct (insert_fresh env row w w1 Hdb Hfresh) as (Hi1 & Hi2 & Hi3).
    split; [|split; [reflexivity|split; [exact Hi1|]]].
    + rewrite (TryOn_POST_submitted env user fields prompt w _ _ Hv
                 (TryOn_submit_returns env _ _ _ _ _ _ _ _ _ Hg)).
      reflexivity.
    + do 6 (split; [reflexivity|]).
      apply newEvents_app. rewrite Hi3.
      pose proof (generateTryOn_trace env
                    (stringOf (Js.assoc "modelImageBase64" fields))
                    (stringOf (Js.assoc "clothingImageBase64" fields)) prompt w) as Ht.
      rewrite Hg in Ht. simpl in Ht. rewrite Ht, <- app_assoc. reflexivity.
  - set (row := Composite.newRow env (now w1) (generateId env (now w)) user providerId
                  (Composite.metadataOf (Js.assoc "figureImageId" fields)
                     (Js.assoc "sceneImageId" fields) prompt)).
    exists row, (snd (db_insert env row w1)).
    pose proof (generateComposite_does env
                  (stringOf (Js.assoc "figureImageBase64" fields))
                  (stringOf (Js.assoc "sceneImageBase64" fields)) prompt true w) as Hd.
    rewrite Hg in Hd.
    destruct Hd as (Hdb & _ & _). specialize (Hdb eq_refl). simpl in Hdb.
    destruct (insert_fresh env row w w1 Hdb Hfresh) as (Hi1 & Hi2 & Hi3).
    split; [|split; [reflexivity|split; [exact Hi1|]]].
    + rewrite (Composite_POST_submitted env user fields prompt w _ _ Hv
                 (Composite_submit_returns env _ _ _ _ _ _ _ _ _ _ Hg)).
      reflexivity.
    + do 6 (split; [reflexivity|]).
      split; [exact Hi3|]. eapply generateComposite_Ret, Hg.
Qed.

(** A composite create request against a combiner that needs a few seconds:
    the handler polls until the job has succeeded, and only then stores the
    record, without a progress, and answers "processing". *)
Lemma created_generation_counterexample :
  Js.get (bodyOf (Composite.POST (Scenario.finishingAt 5000)
                    Scenario.compositeRequest (Scenario.world []))) "status"
    = JStr "processing" /\
  pollAnswers (trace (snd (Composite.POST (Scenario.finishingAt 5000)
                             Scenario.compositeRequest (Scenario.world []))))
    = [JStr "processing"; JStr "processing"; JStr "succeeded"] /\
  now (Scenario.world []) = 1000%N /\
  now (snd (Composite.POST (Scenario.finishingAt 5000)
              Scenario.compositeRequest (Scenario.world []))) = 5077%N /\
  g_progress <$> db (snd (Composite.POST (Scenario.finishingAt 5000)
                            Scenario.compositeRequest (Scenario.world [])))
                 !! "gen-1000"
    = Some None.
Proof. repeat split; by_computation. Qed.

Lemma created_generation_witness :
  (exists row w2,
     TryOn.POST Scenario.accepting Scenario.tryOnRequest (Scenario.world [])
       = (Ret (TryOn.accepted Scenario.accepting (now w2) "gen-1000"
                 (JStr "model-1") JUndefined), w2) /\
     db w2 = <["gen-1000" := row]> ∅ /\
     g_external_id row = JStr "pred-1") /\
  (exists row w2,
     Composite.POST (Scenario.finishingAt 5000) Scenario.compositeRequest
                    (Scenario.world [])
       = (Ret (Composite.accepted (Scenario.finishingAt 5000) (now w2) "gen-1000"
                 JUndefined (JStr "scene-1") "Standing in a park at noon"), w2) /\
     db w2 = <["gen-1000" := row]> ∅ /\
     g_external_id row = JStr "pred-1").
Proof.
  unfold Scenario.tryOnRequest, Scenario.compositeRequest. split.
  - destruct (proj1 (created_generation Scenario.accepting None
               (Scenario.tryOnBody (JStr "A person wearing a red jacket"))
               "A person wearing a red jacket" (Scenario.world [])
               (snd (generateTryOn Scenario.accepting
                       "data:image/png;base64,iVBORw0KGgo="
                       "data:image/png;base64,R0lGODlhAQ=="
                       "A person wearing a red jacket" (Scenario.world [])))
               JUndefined (JStr "pred-1") ltac:(by_computation))
             ltac:(by_computation) ltac:(by_computation))
      as (row & w2 & H1 & _ & H2 & _ & _ & H3 & _).
    exists row, w2. split; [exact H1|]. split; [exact H2 | exact H3].
  - destruct (proj2 (created_generation (Scenario.finishingAt 5000) None
               (Scenario.compositeBody (JStr "Standing in a park at noon"))
               "Standing in a park at noon" (Scenario.world [])
               (snd (generateComposite (Scenario.finishingAt 5000)
                       "data:image/png;base64,iVBORw0KGgo="
                       "data:image/png;base64,R0lGODlhAQ=="
                       "Standing in a park at noon" true (Scenario.world [])))
               (JStr "https://cdn/out.png") (JStr "pred-1") ltac:(by_computation))
             ltac:(by_computation) ltac:(by_computation))
      as (row & w2 & H1 & _ & H2 & _ & _ & H3 & _).
    exists row, w2. split; [exact H1|]. split; [exact H2 | exact H3].
Defined.

(** ** The end of a status check: update, then reply *)

Section Finish.

Variable env : Env.

Lemma persist_run id vars w :
  persist env id vars w =
  (Ret tt, snd (db_update env id (patchOf env vars (now w)) w)).
Proof. reflexivity. Qed.

Lemma persist_db id vars w g :
  db w !! id = Some g ->
  db (snd (persist env id vars w)) =
  <[id := applyPatch (patchOf env vars (now w)) g]> (db w).
Proof. intros H. simpl. rewrite H. reflexivity. Qed.

Lemma TryOn_finish_run id g vars w :
  finished env (TryOn.liveReply env id g vars) id vars
           (String.eqb (newStatus vars) "completed") w
           (TryOn.finish env id g vars w).
Proof.
  unfold finished, TryOn.finish.
  rewrite (bind_Ret _ _ _ _ _ (persist_run id vars w)).
  set (w1 := snd (db_update env id (patchOf env vars (now w)) w)).
  assert (trace w1 = (trace w ++ [EvUpdate id (patchOf env vars (now w))])%list)
    as Ht1 by reflexivity.
  assert (objects w1 = objects w) as Ho1 by reflexivity.
  assert (db w1 = db (snd (persist env id vars w))) as Hd1 by reflexivity.
  clearbody w1.
  destruct (String.eqb (newStatus vars) "completed") eqn:Hc.
  - rewrite (bind_Ret _ _ _ _ _
               (bind_Ret _ _ _ _ _ (getImageUrl_run env _ _ w1))).
    unfold ret at 1.
    unfold bind at 1, updateGeneration, ret at 1.
    set (e1 := EvSign TryOn.bucketName (storagePath vars) _).
    destruct (Js.truthy (Js.nullable (storagePath vars))) eqn:Hp.
    + erewrite bind_Ret
        by (apply TryOn_resolve_signed; rewrite Hc, Hp; reflexivity).
      eexists _, [e1; _], _. split; [reflexivity|]. simpl.
      rewrite Ht1, <- !app_assoc.
      repeat split; try reflexivity; try assumption; discriminate.
    + erewrite bind_Ret
        by (apply TryOn_resolve_none; rewrite Hc, Hp; reflexivity).
      eexists _, [e1], _. split; [reflexivity|]. simpl.
      rewrite Ht1, <- !app_assoc.
      repeat split; try reflexivity; try assumption; discriminate.
  - unfold bind at 1, ret at 1. unfold bind at 1, updateGeneration, ret at 1.
    erewrite bind_Ret by (apply TryOn_resolve_none; rewrite Hc; reflexivity).
    exists JUndefined, [], w1. split; [reflexivity|]. rewrite Ht1.
    repeat split; try reflexivity; assumption.
Qed.

Lemma Composite_finish_run id g vars w :
  finished env (Composite.liveReply env id g vars) id vars
           (Composite.isDone (newStatus vars)) w
           (Composite.finish env id g vars w).
Proof.
  unfold finished, Composite.finish.
  rewrite (bind_Ret _ _ _ _ _ (persist_run id vars w)).
  set (w1 := snd (db_update env id (patchOf env vars (now w)) w)).
  assert (trace w1 = (trace w ++ [EvUpdate id (patchOf env vars (now w))])%list)
    as Ht1 by reflexivity.
  assert (objects w1 = objects w) as Ho1 by reflexivity.
  assert (db w1 = db (snd (persist env id vars w))) as Hd1 by reflexivity.
  clearbody w1.
  destruct (Composite.isDone (newStatus vars)) eqn:Hc.
  - erewrite bind_Ret by (apply Composite_resolve_signed; exact Hc).
    unfold bind at 1, updateGeneration, ret at 1.
    erewrite bind_Ret by (apply Composite_resolve_signed; exact Hc).
    eexists _, [_; _], _. split; [reflexivity|]. simpl.
    rewrite Ht1, <- !app_assoc.
    repeat split; try reflexivity; try assumption; discriminate.
  - erewrite bind_Ret by (apply Composite_resolve_none; exact Hc).
    unfold bind at 1, updateGeneration, ret at 1.
    erewrite bind_Ret by (apply Composite_resolve_none; exact Hc).
    exists JUndefined, [], w1. split; [reflexivity|]. rewrite Ht1.
    repeat split; try reflexivity; assumption.
Qed.

End Finish.

(** ** Download and upload of the output *)

Section Store.

Variable env : Env.

Lemma uploadImage_run bucket path w :
  exists diag w',
    uploadImage env bucket path w =
      (Ret (uploadErrorOf bucket (storage_upload env (now w) bucket path)), w') /\
    db w' = db w /\
    trace w' =
      (trace w ++ EvUpload bucket path (storage_upload env (now w) bucket path)
                  :: diag)%list /\
    (diag = [] \/ diag = [EvListBuckets]).
Proof.
  unfold uploadImage, uploadErrorOf. unfold bind at 1, storageUpload.
  destruct (storage_upload env (now w) bucket path) as [u|message|t].
  - eexists [], _. split; [reflexivity|]. simpl. auto.
  - destruct (bucketMissing message).
    + eexists [EvListBuckets], _. split; [reflexivity|]. simpl.
      rewrite <- app_assoc. auto.
    + eexists [], _. split; [reflexivity|]. simpl. auto.
  - eexists [], _. split; [reflexivity|]. simpl. auto.
Qed.

Lemma afterUpload_status bucket vars p e :
  newStatus (afterUpload bucket vars p e) = newStatus vars \/
  newStatus (afterUpload bucket vars p e) = "failed".
Proof.
  unfold afterUpload. destruct e as [m|]; [|left; reflexivity].
  destruct (bucketIssue m); right; reflexivity.
Qed.

Lemma afterUpload_progress bucket vars p e :
  progress (afterUpload bucket vars p e) = progress vars.
Proof.
  unfold afterUpload. destruct e as [m|]; [|reflexivity].
  destruct (bucketIssue m); reflexivity.
Qed.

Lemma downloadAndStore_run bucket prefix id url vars w :
  stored bucket url vars w (downloadAndStore env bucket prefix id url vars w).
Proof.
  unfold stored, downloadAndStore.
  destruct (http env (now w) (Download url)) as [r|t] eqn:Eh.
  - destruct (resp_bodyError r) as [t|] eqn:Eb.
    + exists (downloadFailed vars), (Ret r), [], (record env (EvFetch (Download url) (Ret r)) w).
      split.
      * erewrite try_Throw; [reflexivity|].
        erewrite bind_Ret by (unfold fetch; rewrite Eh; reflexivity).
        apply bind_Throw. unfold blob, text. rewrite Eb. reflexivity.
      * repeat split; auto; contradiction.
    + set (w1 := record env (EvFetch (Download url) (Ret r)) w).
      set (path := id +:+ "/" +:+
                   (pretty (now w1) +:+ "-" +:+
                    String.substring 2 8 (random36 env (now w1)) +:+ "." +:+
                    extensionOf (prefix +:+ "-" +:+ id +:+ ".png"))).
      destruct (uploadImage_run bucket path w1) as (diag & w2 & Hu & Hd & Ht & Hdiag).
      exists (afterUpload bucket vars path
                (uploadErrorOf bucket (storage_upload env (now w1) bucket path))),
        (Ret r),
        (EvUpload bucket path (storage_upload env (now w1) bucket path) :: diag), w2.
      split.
      * apply try_Ret.
        erewrite bind_Ret by (unfold fetch; rewrite Eh; reflexivity).
        erewrite bind_Ret by (unfold blob, text; rewrite Eb; reflexivity).
        erewrite bind_Ret by reflexivity.
        erewrite bind_Ret by exact Hu. reflexivity.
      * split; [rewrite Hd; reflexivity|]. split.
        { rewrite Ht. unfold w1. simpl. rewrite <- app_assoc. reflexivity. }
        split. { destruct Hdiag; subst diag; reflexivity. }
        split; [apply afterUpload_progress|]. split; [apply afterUpload_status|].
        split.
        -- intros u out' [Hi|[Hi|Hi]] Hf.
           ++ inversion Hi; subst. simpl in Hf. rewrite Eb in Hf. discriminate.
           ++ discriminate.
           ++ destruct Hdiag; subst diag; [destruct Hi|].
              destruct Hi as [Hi|[]]; discriminate.
        -- intros b p out' m [Hi|Hi] Hm.
           ++ inversion Hi; subst. split; [reflexivity|]. f_equal. exact Hm.
           ++ destruct Hdiag; subst diag; [destruct Hi|].
              destruct Hi as [Hi|[]]; discriminate.
  - exists (downloadFailed vars), (Throw t), [], (record env (EvFetch (Download url) (Throw t)) w).
    split.
    + erewrite try_Throw; [reflexivity|].
      apply bind_Throw. unfold fetch. rewrite Eh. reflexivity.
    + repeat split; auto; contradiction.
Qed.

End Store.

(** ** A status check that polls, from the poll to the reply *)

Section Live.

Variable env : Env.

Lemma TryOn_GET_advanced id g w ps w1 vars w2 :
  nonEmpty (Some id) = Some id ->
  db w !! id = Some g ->
  TryOn.isFinal (g_status g) = false ->
  checkPredictionStatus env (g_external_id g) (record env (EvSelect id) w)
    = (Ret ps, w1) ->
  TryOn.advance env id g ps w1 = (Ret vars, w2) ->
  advanced env (TryOn.liveReply env id g vars) id g vars
           (String.eqb (newStatus vars) "completed") w w2
           (TryOn.GET env (mkGet (Some id)) w).
Proof.
  intros Hid Hg Hf Hp Ha.
  destruct (TryOn_finish_run env id g vars w2)
    as (imageUrl & signs & w' & Hr & Hd & Ho & Ht & Hs & Hn).
  pose proof (checkPredictionStatus_does env (g_external_id g)
                (record env (EvSelect id) w)) as (Hd1 & _ & _).
  rewrite Hp in Hd1. specialize (Hd1 eq_refl). simpl in Hd1.
  pose proof (TryOn_advance_does env id g ps w1) as (Hd2 & _ & _).
  rewrite Ha in Hd2. specialize (Hd2 eq_refl). simpl in Hd2.
  exists imageUrl, signs, w'. split; [|split; [|auto]].
  - eapply TryOn_GET_live; eauto. unfold TryOn.liveStatus. apply try_Ret.
    rewrite (bind_Ret _ _ _ _ _ Hp), (bind_Ret _ _ _ _ _ Ha). exact Hr.
  - rewrite Hd, (persist_db env id vars w2 g) by (rewrite Hd2, Hd1; exact Hg).
    rewrite Hd2, Hd1. reflexivity.
Qed.

Lemma Composite_GET_advanced id g w ps w1 vars w2 :
  nonEmpty (Some id) = Some id ->
  db w !! id = Some g ->
  Composite.isFinal (g_status g) = false ->
  checkJobStatus env (g_external_id g) (record env (EvSelect id) w)
    = (Ret ps, w1) ->
  Composite.advance env id g ps w1 = (Ret vars, w2) ->
  advanced env (Composite.liveReply env id g vars) id g vars
           (Composite.isDone (newStatus vars)) w w2
           (Composite.GET env (mkGet (Some id)) w).
Proof.
  intros Hid Hg Hf Hp Ha.
  destruct (Composite_finish_run env id g vars w2)
    as (imageUrl & signs & w' & Hr & Hd & Ho & Ht & Hs & Hn).
  pose proof (checkJobStatus_does env (g_external_id g)
                (record env (EvSelect id) w)) as (Hd1 & _ & _).
  rewrite Hp in Hd1. specialize (Hd1 eq_refl). simpl in Hd1.
  pose proof (Composite_advance_does env id g ps w1) as (Hd2 & _ & _).
  rewrite Ha in Hd2. specialize (Hd2 eq_refl). simpl in Hd2.
  exists imageUrl, signs, w'. split; [|split; [|auto]].
  - eapply Composite_GET_live; eauto. unfold Composite.liveStatus. apply try_Ret.
    rewrite (bind_Ret _ _ _ _ _ Hp), (bind_Ret _ _ _ _ _ Ha). exact Hr.
  - rewrite Hd, (persist_db env id vars w2 g) by (rewrite Hd2, Hd1; exact Hg).
    rewrite Hd2, Hd1. reflexivity.
Qed.

(** The members of the reply of a status check that polled. *)
Lemma TryOn_liveReply_members id g vars imageUrl t :
  Js.get (reply_body (TryOn.liveReply env id g vars imageUrl t)) "status"
    = JStr (newStatus vars) /\
  Js.get (reply_body (TryOn.liveReply env id g vars imageUrl t)) "progress"
    = JNum (progress vars) /\
  Js.get (reply_body (TryOn.liveReply env id g vars imageUrl t)) "error"
    = error vars /\
  reply_status (TryOn.liveReply env id g vars imageUrl t) = 200.
Proof.
  unfold TryOn.liveReply, corsNextResponse, projection, Js.object. simpl.
  destruct (Js.isUndefined imageUrl); simpl;
    destruct (Js.isUndefined (error vars)) eqn:E; simpl; repeat split;
    destruct (error vars); try discriminate; reflexivity.
Qed.

Lemma Composite_liveReply_members id g vars imageUrl t :
  Js.get (reply_body (Composite.liveReply env id g vars imageUrl t)) "status"
    = JStr (newStatus vars) /\
  Js.get (reply_body (Composite.liveReply env id g vars imageUrl t)) "progress"
    = JNum (progress vars) /\
  Js.get (reply_body (Composite.liveReply env id g vars imageUrl t)) "error"
    = error vars /\
  reply_status (Composite.liveReply env id g vars imageUrl t) = 200.
Proof.
  unfold Composite.liveReply, corsNextResponse, projection, Js.object. simpl.
  destruct (Js.isUndefined imageUrl); simpl;
    destruct (Js.isUndefined (error vars)) eqn:E; simpl; repeat split;
    destruct (error vars); try discriminate; reflexivity.
Qed.

End Live.

(** ** The three outcomes of a poll *)

Section Advance.

Variable env : Env.

Lemma TryOn_advance_running id g ps w :
  isString "succeeded" (ps_status ps) = false ->
  isString "failed" (ps_status ps) = false ->
  TryOn.advance env id g ps w =
  (Ret (mkVars (g_status g) (estimate (ps_status ps)) (g_storage_path g) (g_error g)),
   w).
Proof. intros H1 H2. unfold TryOn.advance. rewrite H1, H2. reflexivity. Qed.

Lemma Composite_advance_running id g ps w :
  (isString "completed" (ps_status ps) || isString "succeeded" (ps_status ps))%bool
    = false ->
  isString "failed" (ps_status ps) = false ->
  Composite.advance env id g ps w =
  (Ret (mkVars (g_status g) (estimate (ps_status ps)) (g_storage_path g) (g_error g)),
   w).
Proof. intros H1 H2. unfold Composite.advance. rewrite H1, H2. reflexivity. Qed.

Lemma TryOn_advance_failed id g ps w :
  isString "succeeded" (ps_status ps) = false ->
  isString "failed" (ps_status ps) = true ->
  TryOn.advance env id g ps w =
  (Ret (mkVars "failed" (progressOr0 (g_progress g)) (g_storage_path g)
               (Js.or (ps_error ps) (JStr "Generation failed"))), w).
Proof. intros H1 H2. unfold TryOn.advance. rewrite H1, H2. reflexivity. Qed.

Lemma Composite_advance_failed id g ps w :
  (isString "completed" (ps_status ps) || isString "succeeded" (ps_status ps))%bool
    = false ->
  isString "failed" (ps_status ps) = true ->
  Composite.advance env id g ps w =
  (Ret (mkVars "failed" (progressOr0 (g_progress g)) (g_storage_path g)
               (Js.or (ps_error ps) (JStr "Generation failed"))), w).
Proof. intros H1 H2. unfold Composite.advance. rewrite H1, H2. reflexivity. Qed.

Lemma TryOn_advance_succeeded id g ps w :
  isString "succeeded" (ps_status ps) = true ->
  Js.isUndefined (ps_output ps) = false ->
  TryOn.advance env id g ps w =
  if Js.truthy (TryOn.extractImageUrl (ps_output ps)) then
    downloadAndStore env TryOn.bucketName "try-on" id
      (TryOn.extractImageUrl (ps_output ps)) (succeededVars g) w
  else
    (Ret (mkVars "failed" 100 (g_storage_path g)
                 (JStr (TryOn.noOutputImage (ps_output ps)))), w).
Proof.
  intros H1 H2. unfold TryOn.advance. rewrite H1.
  unfold TryOn.logOutput. rewrite H2. unfold bind at 1, ret at 1.
  destruct (Js.truthy (TryOn.extractImageUrl (ps_output ps))); reflexivity.
Qed.

Lemma TryOn_advance_undefined id g ps w :
  isString "succeeded" (ps_status ps) = true ->
  Js.isUndefined (ps_output ps) = true ->
  TryOn.advance env id g ps w =
  (Throw (ThrownError "Cannot read properties of undefined (reading 'substring')"), w).
Proof.
  intros H1 H2. unfold TryOn.advance. rewrite H1.
  unfold TryOn.logOutput. rewrite H2. reflexivity.
Qed.

Lemma Composite_advance_succeeded id g ps w :
  (isString "completed" (ps_status ps) || isString "succeeded" (ps_status ps))%bool
    = true ->
  Composite.advance env id g ps w =
  if Js.truthy (ps_output ps) then
    downloadAndStore env Composite.bucketName "composite" id
      (ps_output ps) (succeededVars g) w
  else
    (Ret (mkVars "failed" 100 (g_storage_path g) (JStr Composite.noOutputImage)), w).
Proof.
  intros H1. unfold Composite.advance. rewrite H1.
  destruct (Js.truthy (ps_output ps)); reflexivity.
Qed.

(** A try-on poll that reported success with an output: [advance] returns,
    with progress 100 and the status "completed" or "failed". *)
Lemma TryOn_advance_succeeded_returns id g ps w :
  isString "succeeded" (ps_status ps) = true ->
  Js.isUndefined (ps_output ps) = false ->
  exists vars w',
    TryOn.advance env id g ps w = (Ret vars, w') /\
    progress vars = 100 /\
    (newStatus vars = "completed" \/ newStatus vars = "failed").
Proof.
  intros H1 H2. rewrite TryOn_advance_succeeded by assumption.
  destruct (Js.truthy _).
  - destruct (downloadAndStore_run env TryOn.bucketName "try-on" id
                (TryOn.extractImageUrl (ps_output ps)) (succeededVars g) w)
      as (v & out & rest & w2 & Hr & _ & _ & _ & Hp & Hs & _).
    exists v, w2. split; [exact Hr|]. split; [exact Hp | exact Hs].
  - eexists _, _. split; [reflexivity|]. split; [reflexivity | right; reflexivity].
Qed.

(** A composite poll that reported success: [advance] returns, with progress
    100 and the status "completed" or "failed". *)
Lemma Composite_advance_succeeded_returns id g ps w :
  (isString "completed" (ps_status ps) || isString "succeeded" (ps_status ps))%bool
    = true ->
  exists vars w',
    Composite.advance env id g ps w = (Ret vars, w') /\
    progress vars = 100 /\
    (newStatus vars = "completed" \/ newStatus vars = "failed").
Proof.
  intros H1. rewrite Composite_advance_succeeded by assumption.
  destruct (Js.truthy _).
  - destruct (downloadAndStore_run env Composite.bucketName "composite" id
                (ps_output ps) (succeededVars g) w)
      as (v & out & rest & w2 & Hr & _ & _ & _ & Hp & Hs & _).
    exists v, w2. split; [exact Hr|]. split; [exact Hp | exact Hs].
  - eexists _, _. split; [reflexivity|]. split; [reflexivity | right; reflexivity].
Qed.

End Advance.

(** ** Progress *)

Lemma TryOn_progressPolicy :
  progressPolicy TryOn.GET checkPredictionStatus TryOn.isFinal
                 (isString "succeeded") (fun output => negb (Js.isUndefined output)).
Proof.
  intros env id g w ps w1 Hid Hg Hf Hp. split; [|split].
  - intros H1 H2.
    destruct (TryOn_GET_advanced env id g w ps w1 _ w1 Hid Hg Hf Hp
                (TryOn_advance_running env id g ps w1 H1 H2))
      as (imageUrl & signs & w' & Hr & Hd & _).
    eexists _, w', (applyPatch (patchOf env _ (now w1)) g). split; [exact Hr|].
    split; [apply TryOn_liveReply_members|].
    split; [apply TryOn_liveReply_members|].
    rewrite Hd, lookup_insert_eq. repeat split.
  - intros H1 Hdef. apply negb_true_iff in Hdef.
    destruct (TryOn_advance_succeeded_returns env id g ps w1 H1 Hdef)
      as (vars & w2 & Ha & Hpr & Hst).
    destruct (TryOn_GET_advanced env id g w ps w1 vars w2 Hid Hg Hf Hp Ha)
      as (imageUrl & signs & w' & Hr & Hd & _).
    eexists _, w', (applyPatch (patchOf env vars (now w2)) g). split; [exact Hr|].
    split; [rewrite <- Hpr; apply TryOn_liveReply_members|].
    split; [apply TryOn_liveReply_members|].
    rewrite Hd, lookup_insert_eq. repeat split.
    + simpl. rewrite Hpr. reflexivity.
    + exact Hst.
  - intros H1 H2.
    destruct (TryOn_GET_advanced env id g w ps w1 _ w1 Hid Hg Hf Hp
                (TryOn_advance_failed env id g ps w1 H1 H2))
      as (imageUrl & signs & w' & Hr & Hd & _).
    eexists _, w', (applyPatch (patchOf env _ (now w1)) g). split; [exact Hr|].
    split; [apply TryOn_liveReply_members|].
    split; [apply TryOn_liveReply_members|].
    rewrite Hd, lookup_insert_eq. repeat split.
Qed.

Lemma Composite_progressPolicy :
  progressPolicy Composite.GET checkJobStatus Composite.isFinal
                 (fun s => isString "completed" s || isString "succeeded" s)%bool
                 (fun _ => true).
Proof.
  intros env id g w ps w1 Hid Hg Hf Hp. split; [|split].
  - intros H1 H2.
    destruct (Composite_GET_advanced env id g w ps w1 _ w1 Hid Hg Hf Hp
                (Composite_advance_running env id g ps w1 H1 H2))
      as (imageUrl & signs & w' & Hr & Hd & _).
    eexists _, w', (applyPatch (patchOf env _ (now w1)) g). split; [exact Hr|].
    split; [apply Composite_liveReply_members|].
    split; [apply Composite_liveReply_members|].
    rewrite Hd, lookup_insert_eq. repeat split.
  - intros H1 _.
    destruct (Composite_advance_succeeded_returns env id g ps w1 H1)
      as (vars & w2 & Ha & Hpr & Hst).
    destruct (Composite_GET_advanced env id g w ps w1 vars w2 Hid Hg Hf Hp Ha)
      as (imageUrl & signs & w' & Hr & Hd & _).
    eexists _, w', (applyPatch (patchOf env vars (now w2)) g). split; [exact Hr|].
    split; [rewrite <- Hpr; apply Composite_liveReply_members|].
    split; [apply Composite_liveReply_members|].
    rewrite Hd, lookup_insert_eq. repeat split.
    + simpl. rewrite Hpr. reflexivity.
    + exact Hst.
  - intros H1 H2.
    destruct (Composite_GET_advanced env id g w ps w1 _ w1 Hid Hg Hf Hp
                (Composite_advance_failed env id g ps w1 H1 H2))
      as (imageUrl & signs & w' & Hr & Hd & _).
    eexists _, w', (applyPatch (patchOf env _ (now w1)) g). split; [exact Hr|].
    split; [apply Composite_liveReply_members|].
    split; [apply Composite_liveReply_members|].
    rewrite Hd, lookup_insert_eq. repeat split.
Qed.

(** C3, as the code has it.  Each status check that finds the job running
    sets the progress, stored and replied, to 50 when the provider reports
    "processing" and to 25 otherwise, so from one check to the next the
    progress does not decrease unless the provider goes from "processing"
    to another running status.  A status check whose poll reports success
    with an output member (for the composite route: whose poll reports
    success) sets the progress to exactly 100, stored and replied, whether
    the generation ends completed or failed.  A status check whose poll
    reports "failed" makes the generation failed and keeps the progress it
    had, 0 when it had none, stored and replied.  Every read of a generation
    in a final state replies with progress 100. *)
Theorem progress_policy :
  progressPolicy TryOn.GET checkPredictionStatus TryOn.isFinal
                 (isString "succeeded") (fun output => negb (Js.isUndefined output)) /\
  progressPolicy Composite.GET checkJobStatus Composite.isFinal
                 (fun s => isString "completed" s || isString "succeeded" s)%bool
                 (fun _ => true) /\
  (forall s, estimate s = if isString "processing" s then 50 else 25) /\
  (forall s1 s2,
     (isString "processing" s1 = true -> isString "processing" s2 = true) ->
     estimate s1 <= estimate s2) /\
  (forall n, progressOr0 (Some n) = n) /\ progressOr0 None = 0 /\
  (forall id g imageUrl,
     Js.get (reply_body (TryOn.storedReply id g imageUrl)) "progress" = JNum 100 /\
     Js.get (reply_body (Composite.storedReply id g imageUrl)) "progress" = JNum 100).
Proof.
  split; [exact TryOn_progressPolicy|]. split; [exact Composite_progressPolicy|].
  split; [reflexivity|]. split; [|split; [reflexivity|split; [reflexivity|]]].
  - intros s1 s2 H. unfold estimate.
    destruct (isString "processing" s1).
    + rewrite (H eq_refl). lia.
    + destruct (isString "processing" s2); lia.
  - intros id g imageUrl. split; reflexivity.
Qed.

(** Two status checks of a processing generation whose prediction is canceled
    between them: the progress goes from 50 to 25.  And a status check whose
    poll reports "failed" after an earlier estimate of 25: the generation
    becomes failed with progress 25, in the reply and in the record. *)
Lemma progress_policy_counterexample :
  Js.get (bodyOf (TryOn.GET (Scenario.canceledAt 1010) (mkGet (Some "g1"))
                    (Scenario.world [Scenario.processing "g1" "try-on"])))
         "progress" = JNum 50 /\
  Js.get (bodyOf (TryOn.GET (Scenario.canceledAt 1010) (mkGet (Some "g1"))
                    (snd (TryOn.GET (Scenario.canceledAt 1010) (mkGet (Some "g1"))
                            (Scenario.world [Scenario.processing "g1" "try-on"])))))
         "progress" = JNum 25 /\
  Js.get (bodyOf (TryOn.GET (Scenario.canceledAt 1010) (mkGet (Some "g1"))
                    (snd (TryOn.GET (Scenario.canceledAt 1010) (mkGet (Some "g1"))
                            (Scenario.world [Scenario.processing "g1" "try-on"])))))
         "status" = JStr "processing" /\
  Js.get (bodyOf (TryOn.GET
                    (Scenario.deployment
                       (Scenario.reports "failed" JNull (JStr "face not detected")))
                    (mkGet (Some "g1"))
                    (Scenario.world [Scenario.started "g1" "try-on"])))
         "status" = JStr "failed" /\
  Js.get (bodyOf (TryOn.GET
                    (Scenario.deployment
                       (Scenario.reports "failed" JNull (JStr "face not detected")))
                    (mkGet (Some "g1"))
                    (Scenario.world [Scenario.started "g1" "try-on"])))
         "progress" = JNum 25 /\
  g_progress <$>
    db (snd (TryOn.GET
               (Scenario.deployment
                  (Scenario.reports "failed" JNull (JStr "face not detected")))
               (mkGet (Some "g1"))
               (Scenario.world [Scenario.started "g1" "try-on"]))) !! "g1"
    = Some (Some 25).
Proof. repeat split; by_computation. Qed.

Lemma progress_policy_witness :
  (exists reply w' g',
     TryOn.GET (Scenario.canceledAt 1010) (mkGet (Some "g1"))
               (Scenario.world [Scenario.processing "g1" "try-on"])
       = (Ret reply, w') /\
     Js.get (reply_body reply) "progress" = JNum 50 /\
     db w' !! "g1" = Some g' /\ g_progress g' = Some 50) /\
  (exists reply w' g',
     Composite.GET Scenario.succeeding (mkGet (Some "g2"))
                   (Scenario.world [Scenario.started "g2" "composite"])
       = (Ret reply, w') /\
     Js.get (reply_body reply) "progress" = JNum 100 /\
     db w' !! "g2" = Some g' /\ g_progress g' = Some 100) /\
  (exists reply w' g',
     TryOn.GET (Scenario.deployment
                  (Scenario.reports "failed" JNull (JStr "face not detected")))
               (mkGet (Some "g1"))
               (Scenario.world [Scenario.started "g1" "try-on"])
       = (Ret reply, w') /\
     Js.get (reply_body reply) "progress" = JNum 25 /\
     Js.get (reply_body reply) "status" = JStr "failed" /\
     db w' !! "g1" = Some g' /\ g_progress g' = Some 25 /\ g_status g' = "failed").
Proof.
  destruct progress_policy as (HT & HC & _).
  split; [|split].
  - destruct (proj1 (HT (Scenario.canceledAt 1010) "g1"
                        (Scenario.processing "g1" "try-on")
                        (Scenario.world [Scenario.processing "g1" "try-on"])
                        (mkStatus (JStr "processing") JNull JNull)
                        (snd (checkPredictionStatus (Scenario.canceledAt 1010)
                                (JStr "pred-1")
                                (record (Scenario.canceledAt 1010) (EvSelect "g1")
                                   (Scenario.world [Scenario.processing "g1" "try-on"]))))
                        eq_refl ltac:(by_computation) eq_refl ltac:(by_computation))
                    eq_refl eq_refl)
      as (reply & w' & g' & H1 & H2 & _ & H3 & H4 & _).
    exists reply, w', g'. repeat split; assumption.
  - destruct (proj1 (proj2 (HC Scenario.succeeding
                        "g2" (Scenario.started "g2" "composite")
                        (Scenario.world [Scenario.started "g2" "composite"])
                        (mkStatus (JStr "succeeded") (JStr "https://cdn/out.png") JNull)
                        (snd (checkJobStatus Scenario.succeeding (JStr "pred-1")
                                (record Scenario.succeeding (EvSelect "g2")
                                   (Scenario.world [Scenario.started "g2" "composite"]))))
                        eq_refl ltac:(by_computation) eq_refl ltac:(by_computation)))
                    eq_refl eq_refl)
      as (reply & w' & g' & H1 & H2 & _ & H3 & H4 & _).
    exists reply, w', g'. repeat split; assumption.
  - destruct (proj2 (proj2 (HT (Scenario.deployment
                           (Scenario.reports "failed" JNull (JStr "face not detected")))
                        "g1" (Scenario.started "g1" "try-on")
                        (Scenario.world [Scenario.started "g1" "try-on"])
                        (mkStatus (JStr "failed") JNull (JStr "face not detected"))
                        (snd (checkPredictionStatus
                                (Scenario.deployment
                                   (Scenario.reports "failed" JNull
                                      (JStr "face not detected")))
                                (JStr "pred-1")
                                (record
                                   (Scenario.deployment
                                      (Scenario.reports "failed" JNull
                                         (JStr "face not detected")))
                                   (EvSelect "g1")
                                   (Scenario.world [Scenario.started "g1" "try-on"]))))
                        eq_refl ltac:(by_computation) eq_refl ltac:(by_computation)))
                    eq_refl eq_refl)
      as (reply & w' & g' & H1 & H2 & H3 & H4 & H5 & H6).
    exists reply, w', g'. repeat split; assumption.
Defined.

(** ** Failures of download and upload *)

Section StoreFailures.

Variable env : Env.

Lemma afterUpload_failed bucket vars p m :
  newStatus (afterUpload bucket vars p (Some m)) = "failed" /\
  error (afterUpload bucket vars p (Some m)) = JStr (storeFailure bucket m).
Proof.
  unfold afterUpload, storeFailure. destruct (bucketIssue m); split; reflexivity.
Qed.

(** The storage calls among the new events of a status check that polled
    are those of [advance]. *)
Lemma storage_calls_of_advance id (w w0 w1 w2 w' : World) polls evsA upd signs e :
  trace w0 = (trace w ++ [EvSelect id])%list ->
  trace w1 = (trace w0 ++ polls)%list ->
  forallb isProviderCall polls = true ->
  trace w2 = (trace w1 ++ evsA)%list ->
  trace w' = (trace w2 ++ EvUpdate id upd :: signs)%list ->
  forallb isSign signs = true ->
  In e (newEvents w w') -> isStorageCall e = true -> In e evsA.
Proof.
  intros H0 H1 Hp H2 H' Hs Hi He.
  rewrite (newEvents_app w w' ([EvSelect id] ++ polls ++ evsA ++ EvUpdate id upd :: signs)%list) in Hi.
  - simpl in Hi. destruct Hi as [Hi|Hi].
    + subst e. discriminate.
    + apply in_app_or in Hi as [Hi|Hi].
      * rewrite forallb_forall in Hp. specialize (Hp e Hi).
        destruct e as [[] ?| | | | | | |]; discriminate.
      * apply in_app_or in Hi as [Hi|[Hi|Hi]]; [exact Hi| |].
        -- subst e. discriminate.
        -- rewrite forallb_forall in Hs. specialize (Hs e Hi).
           destruct e; discriminate.
  - rewrite H', H2, H1, H0. rewrite <- !app_assoc. reflexivity.
Qed.

(** A status check that ends at the poll has made no storage call. *)
Lemma no_storage_calls id (w w0 w1 : World) polls e :
  trace w0 = (trace w ++ [EvSelect id])%list ->
  trace w1 = (trace w0 ++ polls)%list ->
  forallb isProviderCall polls = true ->
  In e (newEvents w w1) -> isStorageCall e = false.
Proof.
  intros H0 H1 Hp Hi.
  rewrite (newEvents_app w w1 ([EvSelect id] ++ polls)%list) in Hi.
  - simpl in Hi. destruct Hi as [Hi|Hi].
    + subst e. reflexivity.
    + rewrite forallb_forall in Hp. specialize (Hp e Hi).
      destruct e as [[] ?| | | | | | |]; try discriminate; reflexivity.
  - rewrite H1, H0, <- app_assoc. reflexivity.
Qed.

Lemma failedWith_advanced (reply : JsVal -> N -> Reply) id g vars done w w2 r
  message :
  (forall imageUrl t,
     Js.get (reply_body (reply imageUrl t)) "status" = JStr (newStatus vars) /\
     Js.get (reply_body (reply imageUrl t)) "progress" = JNum (progress vars) /\
     Js.get (reply_body (reply imageUrl t)) "error" = error vars /\
     reply_status (reply imageUrl t) = 200) ->
  advanced env reply id g vars done w w2 r ->
  newStatus vars = "failed" ->
  error vars = JStr message ->
  failedWith (fst r) (snd r) id message.
Proof.
  intros Hm (imageUrl & signs & w' & Hr & Hd & _) Hs He.
  destruct (Hm imageUrl (now w')) as (M1 & _ & M3 & M4).
  exists (reply imageUrl (now w')), (applyPatch (patchOf env vars (now w2)) g).
  rewrite Hr. simpl. rewrite Hd, lookup_insert_eq, M1, M3, Hs, He.
  repeat split; try assumption.
Qed.

End StoreFailures.

Section StoreFailures2.

Variable env : Env.

Lemma explained_nil bucket g vars : explained bucket g vars [].
Proof. split; intros; contradiction. Qed.

Lemma stored_explained bucket url g w vars w2 :
  stored bucket url (succeededVars g) w (Ret vars, w2) ->
  exists evsA, trace w2 = (trace w ++ evsA)%list /\ explained bucket g vars evsA.
Proof.
  intros (v & out & rest & w3 & Hr & _ & Ht & _ & _ & _ & H1 & H2).
  inversion Hr; subst.
  exists (EvFetch (Download url) out :: rest). split; [exact Ht|]. split.
  - exact H1.
  - intros b p out' m [Hi|Hi] Hm; [discriminate|]. eapply H2; eauto.
Qed.

Lemma TryOn_advance_store id g ps w1 vars w2 :
  TryOn.advance env id g ps w1 = (Ret vars, w2) ->
  exists evsA, trace w2 = (trace w1 ++ evsA)%list /\
               explained TryOn.bucketName g vars evsA.
Proof.
  intros Ha.
  destruct (isString "succeeded" (ps_status ps)) eqn:H1.
  - destruct (Js.isUndefined (ps_output ps)) eqn:Hu.
    + rewrite TryOn_advance_undefined in Ha by assumption. discriminate.
    + rewrite TryOn_advance_succeeded in Ha by assumption.
      destruct (Js.truthy _).
      * eapply stored_explained. rewrite <- Ha. apply downloadAndStore_run.
      * inversion Ha; subst. exists []. rewrite app_nil_r.
        split; [reflexivity | apply explained_nil].
  - destruct (isString "failed" (ps_status ps)) eqn:H2.
    + rewrite TryOn_advance_failed in Ha by assumption. inversion Ha; subst.
      exists []. rewrite app_nil_r. split; [reflexivity | apply explained_nil].
    + rewrite TryOn_advance_running in Ha by assumption. inversion Ha; subst.
      exists []. rewrite app_nil_r. split; [reflexivity | apply explained_nil].
Qed.

Lemma Composite_advance_store id g ps w1 vars w2 :
  Composite.advance env id g ps w1 = (Ret vars, w2) ->
  exists evsA, trace w2 = (trace w1 ++ evsA)%list /\
               explained Composite.bucketName g vars evsA.
Proof.
  intros Ha.
  destruct (isString "completed" (ps_status ps) || isString "succeeded" (ps_status ps))%bool
    eqn:H1.
  - rewrite Composite_advance_succeeded in Ha by assumption.
    destruct (Js.truthy _).
    + eapply stored_explained. rewrite <- Ha. apply downloadAndStore_run.
    + inversion Ha; subst. exists []. rewrite app_nil_r.
      split; [reflexivity | apply explained_nil].
  - destruct (isString "failed" (ps_status ps)) eqn:H2.
    + rewrite Composite_advance_failed in Ha by assumption. inversion Ha; subst.
      exists []. rewrite app_nil_r. split; [reflexivity | apply explained_nil].
    + rewrite Composite_advance_running in Ha by assumption. inversion Ha; subst.
      exists []. rewrite app_nil_r. split; [reflexivity | apply explained_nil].
Qed.

(** [advance] throws only before any call. *)
Lemma TryOn_advance_throws id g ps w1 t w2 :
  TryOn.advance env id g ps w1 = (Throw t, w2) -> w2 = w1.
Proof.
  intros Ha.
  destruct (isString "succeeded" (ps_status ps)) eqn:H1.
  - destruct (Js.isUndefined (ps_output ps)) eqn:Hu.
    + rewrite TryOn_advance_undefined in Ha by assumption.
      inversion Ha; reflexivity.
    + rewrite TryOn_advance_succeeded in Ha by assumption.
      destruct (Js.truthy _); [|discriminate].
      destruct (downloadAndStore_run env TryOn.bucketName "try-on" id
                  (TryOn.extractImageUrl (ps_output ps)) (succeededVars g) w1)
        as (v & out & rest & w3 & Hr & _).
      rewrite Hr in Ha. discriminate.
  - destruct (isString "failed" (ps_status ps)) eqn:H2.
    + rewrite TryOn_advance_failed in Ha by assumption. discriminate.
    + rewrite TryOn_advance_running in Ha by assumption. discriminate.
Qed.

Lemma Composite_advance_returns id g ps w1 t w2 :
  Composite.advance env id g ps w1 = (Throw t, w2) -> False.
Proof.
  intros Ha.
  destruct (isString "completed" (ps_status ps) || isString "succeeded" (ps_status ps))%bool
    eqn:H1.
  - rewrite Composite_advance_succeeded in Ha by assumption.
    destruct (Js.truthy _); [|discriminate].
    destruct (downloadAndStore_run env Composite.bucketName "composite" id
                (ps_output ps) (succeededVars g) w1)
      as (v & out & rest & w3 & Hr & _).
    rewrite Hr in Ha. discriminate.
  - destruct (isString "failed" (ps_status ps)) eqn:H2.
    + rewrite Composite_advance_failed in Ha by assumption. discriminate.
    + rewrite Composite_advance_running in Ha by assumption. discriminate.
Qed.

Lemma TryOn_live_advance_throws id g w ps w1 t w2 :
  checkPredictionStatus env (g_external_id g) w = (Ret ps, w1) ->
  TryOn.advance env id g ps w1 = (Throw t, w2) ->
  TryOn.liveStatus env id g w =
  (Ret (statusError (messageOr "Unknown error" t)), w2).
Proof.
  intros Hp Ha. unfold TryOn.liveStatus.
  rewrite (try_Throw _ _ _ t w2); [reflexivity|].
  rewrite (bind_Ret _ _ _ _ _ Hp). apply bind_Throw, Ha.
Qed.

End StoreFailures2.

Section StoreFailures3.

Lemma TryOn_storeFailurePolicy :
  storeFailurePolicy TryOn.GET TryOn.isFinal "try-on-images".
Proof.
  intros env id g w r w' Hid Hg Hf HG.
  set (w0 := record env (EvSelect id) w).
  assert (trace w0 = (trace w ++ [EvSelect id])%list) as T0 by reflexivity.
  pose proof (checkPredictionStatus_does env (g_external_id g) w0)
    as (_ & _ & polls & T1 & Hpolls).
  destruct (checkPredictionStatus env (g_external_id g) w0) as [[ps|t] w1] eqn:Hp;
    simpl in T1.
  - destruct (TryOn.advance env id g ps w1) as [[vars|t] w2] eqn:Ha.
    + pose proof (TryOn_GET_advanced env id g w ps w1 vars w2 Hid Hg Hf Hp Ha) as Hadv.
      destruct (TryOn_advance_store env id g ps w1 vars w2 Ha) as (evsA & T2 & E1 & E2).
      rewrite HG in Hadv.
      pose proof Hadv as (imageUrl & signs & w'' & Hr & _ & _ & T3 & Hs & _).
      inversion Hr; subst w''. subst r.
      split.
      * intros u out Hi Hfail.
        pose proof (storage_calls_of_advance id w w0 w1 w2 w' polls evsA _ signs _
                      T0 T1 Hpolls T2 T3 Hs Hi eq_refl) as HiA.
        specialize (E1 u out HiA Hfail). subst vars.
        exact (failedWith_advanced env _ id g _ _ w w2 _ failedToDownload
                 (TryOn_liveReply_members env id g _) Hadv eq_refl eq_refl).
      * intros b p out m Hi Hm.
        pose proof (storage_calls_of_advance id w w0 w1 w2 w' polls evsA _ signs _
                      T0 T1 Hpolls T2 T3 Hs Hi eq_refl) as HiA.
        destruct (E2 b p out m HiA Hm) as [Hb Hv]. split; [exact Hb|]. subst vars.
        destruct (afterUpload_failed TryOn.bucketName (succeededVars g) p m) as [A1 A2].
        exact (failedWith_advanced env _ id g _ _ w w2 _ _
                 (TryOn_liveReply_members env id g _) Hadv A1 A2).
    + pose proof (TryOn_advance_throws env id g ps w1 t w2 Ha) as ->.
      rewrite (TryOn_GET_live env id g w _ w1 Hid Hg Hf
                 (TryOn_live_advance_throws env id g w0 ps w1 t w1 Hp Ha)) in HG.
      inversion HG; subst.
      split; [intros u out Hi | intros b p out m Hi];
        pose proof (no_storage_calls id w w0 w' polls _ T0 T1 Hpolls Hi);
        discriminate.
  - rewrite (TryOn_GET_live env id g w _ w1 Hid Hg Hf
               (TryOn_live_poll_throws env id g w0 t w1 Hp)) in HG.
    inversion HG; subst.
    split; [intros u out Hi | intros b p out m Hi];
      pose proof (no_storage_calls id w w0 w' polls _ T0 T1 Hpolls Hi);
      discriminate.
Qed.

Lemma Composite_storeFailurePolicy :
  storeFailurePolicy Composite.GET Composite.isFinal "composite-images".
Proof.
  intros env id g w r w' Hid Hg Hf HG.
  set (w0 := record env (EvSelect id) w).
  assert (trace w0 = (trace w ++ [EvSelect id])%list) as T0 by reflexivity.
  pose proof (checkJobStatus_does env (g_external_id g) w0)
    as (_ & _ & polls & T1 & Hpolls).
  destruct (checkJobStatus env (g_external_id g) w0) as [[ps|t] w1] eqn:Hp;
    simpl in T1.
  - destruct (Composite.advance env id g ps w1) as [[vars|t] w2] eqn:Ha.
    + pose proof (Composite_GET_advanced env id g w ps w1 vars w2 Hid Hg Hf Hp Ha)
        as Hadv.
      destruct (Composite_advance_store env id g ps w1 vars w2 Ha)
        as (evsA & T2 & E1 & E2).
      rewrite HG in Hadv.
      pose proof Hadv as (imageUrl & signs & w'' & Hr & _ & _ & T3 & Hs & _).
      inversion Hr; subst w''. subst r.
      split.
      * intros u out Hi Hfail.
        pose proof (storage_calls_of_advance id w w0 w1 w2 w' polls evsA _ signs _
                      T0 T1 Hpolls T2 T3 Hs Hi eq_refl) as HiA.
        specialize (E1 u out HiA Hfail). subst vars.
        exact (failedWith_advanced env _ id g _ _ w w2 _ failedToDownload
                 (Composite_liveReply_members env id g _) Hadv eq_refl eq_refl).
      * intros b p out m Hi Hm.
        pose proof (storage_calls_of_advance id w w0 w1 w2 w' polls evsA _ signs _
                      T0 T1 Hpolls T2 T3 Hs Hi eq_refl) as HiA.
        destruct (E2 b p out m HiA Hm) as [Hb Hv]. split; [exact Hb|]. subst vars.
        destruct (afterUpload_failed Composite.bucketName (succeededVars g) p m)
          as [A1 A2].
        exact (failedWith_advanced env _ id g _ _ w w2 _ _
                 (Composite_liveReply_members env id g _) Hadv A1 A2).
    + destruct (Composite_advance_returns env id g ps w1 t w2 Ha).
  - rewrite (Composite_GET_live env id g w _ w1 Hid Hg Hf
               (Composite_live_poll_throws env id g w0 t w1 Hp)) in HG.
    inversion HG; subst.
    split; [intros u out Hi | intros b p out m Hi];
      pose proof (no_storage_calls id w w0 w' polls _ T0 T1 Hpolls Hi);
      discriminate.
Qed.

End StoreFailures3.

(** ** What the failure messages say *)

Section Messages.

Lemma prefix_append a b : String.prefix a (a +:+ b) = true.
Proof.
  induction a as [|c a IH]; simpl.
  - destruct b; reflexivity.
  - destruct (ascii_dec c c) as [_|n]; [exact IH | contradiction].
Qed.

Lemma includes_here n b : Js.includes n (n +:+ b) = true.
Proof.
  pose proof (prefix_append n b) as H.
  destruct (n +:+ b); cbn [Js.includes]; rewrite H; reflexivity.
Qed.

Lemma includes_later n a s : Js.includes n s = true -> Js.includes n (a +:+ s) = true.
Proof.
  intros H. induction a as [|c a IH]; simpl; [exact H|].
  rewrite IH. apply orb_true_r.
Qed.

Lemma storageConfigurationIssue_names bucket m :
  String.prefix "Storage configuration issue: " (storageConfigurationIssue bucket m)
    = true /\
  Js.includes (Js.quoted bucket) (storageConfigurationIssue bucket m) = true.
Proof.
  unfold storageConfigurationIssue. split.
  - apply prefix_append.
  - apply includes_later, includes_later, includes_later, includes_here.
Qed.

(** The error [uploadImage] makes of a storage error that points at the
    bucket is one the handlers take for a bucket issue. *)
Lemma missing_bucket_is_bucket_issue bucket raw m :
  bucketMissing raw = true ->
  uploadErrorOf bucket (StorageError raw) = Some m ->
  bucketIssue m = true.
Proof.
  unfold uploadErrorOf. intros -> H. inversion H; subst. unfold bucketIssue.
  simpl negb. apply orb_true_iff. left.
  apply includes_later, includes_later.
  change (Js.includes "bucket"
            (" " +:+ ("bucket" +:+ " exists in your Supabase project and has proper permissions."))
          = true).
  apply includes_later, includes_here.
Qed.

End Messages.

(** C7. In a status check that downloads and stores the output of a finished
    job, a failed upload makes the generation failed with an error that
    starts with "Storage configuration issue: " and names the bucket in
    quotes when the message of the upload error has a bucket issue, and with
    "Failed to store the generated image: " and that message otherwise; a
    download that throws makes it failed with the download message.  Each
    time the failure is stored in the record and the reply is a 200 carrying
    it.  For the try-on and for the composite route. *)
Theorem store_failures_are_recorded :
  storeFailurePolicy TryOn.GET TryOn.isFinal "try-on-images" /\
  storeFailurePolicy Composite.GET Composite.isFinal "composite-images" /\
  (forall bucket m,
     bucketIssue m = true ->
     storeFailure bucket m = storageConfigurationIssue bucket m /\
     String.prefix "Storage configuration issue: " (storeFailure bucket m) = true /\
     Js.includes (Js.quoted bucket) (storeFailure bucket m) = true) /\
  (forall bucket m,
     bucketIssue m = false ->
     storeFailure bucket m = "Failed to store the generated image: " +:+ m) /\
  (forall bucket raw m,
     bucketMissing raw = true ->
     uploadErrorOf bucket (StorageError raw) = Some m ->
     bucketIssue m = true) /\
  failedToDownload = "Failed to download or process the generated image".
Proof.
  split; [exact TryOn_storeFailurePolicy|].
  split; [exact Composite_storeFailurePolicy|].
  split; [|split; [|split; [exact missing_bucket_is_bucket_issue | reflexivity]]].
  - intros bucket m H. unfold storeFailure. rewrite H.
    split; [reflexivity | apply storageConfigurationIssue_names].
  - intros bucket m H. unfold storeFailure. rewrite H. reflexivity.
Qed.

Lemma store_failures_are_recorded_witness :
  failedWith
    (fst (TryOn.GET Scenario.missingBucket (mkGet (Some "g1"))
            (Scenario.world [Scenario.processing "g1" "try-on"])))
    (snd (TryOn.GET Scenario.missingBucket (mkGet (Some "g1"))
            (Scenario.world [Scenario.processing "g1" "try-on"])))
    "g1"
    (storageConfigurationIssue "try-on-images"
       ("Upload failed. Please ensure the " +:+ Js.quoted "try-on-images" +:+
        " bucket exists in your Supabase project and has proper permissions.")) /\
  failedWith
    (fst (TryOn.GET Scenario.fullStorage (mkGet (Some "g1"))
            (Scenario.world [Scenario.processing "g1" "try-on"])))
    (snd (TryOn.GET Scenario.fullStorage (mkGet (Some "g1"))
            (Scenario.world [Scenario.processing "g1" "try-on"])))
    "g1" "Failed to store the generated image: Quota exceeded" /\
  failedWith
    (fst (Composite.GET Scenario.goneOutput (mkGet (Some "g2"))
            (Scenario.world [Scenario.processing "g2" "composite"])))
    (snd (Composite.GET Scenario.goneOutput (mkGet (Some "g2"))
            (Scenario.world [Scenario.processing "g2" "composite"])))
    "g2" "Failed to download or process the generated image".
Proof.
  destruct store_failures_are_recorded as (HT & HC & _).
  split; [|split].
  - refine (proj2 (proj2 (HT Scenario.missingBucket "g1"
                     (Scenario.processing "g1" "try-on")
                     (Scenario.world [Scenario.processing "g1" "try-on"])
                     _ _ eq_refl ltac:(by_computation) eq_refl
                     (surjective_pairing _))
                   "try-on-images" "g1/1021-k3j9x2m7.png"
                   (StorageError "Bucket not found") _ _ eq_refl)).
    vm_compute. do 3 right. left. reflexivity.
  - refine (proj2 (proj2 (HT Scenario.fullStorage "g1"
                     (Scenario.processing "g1" "try-on")
                     (Scenario.world [Scenario.processing "g1" "try-on"])
                     _ _ eq_refl ltac:(by_computation) eq_refl
                     (surjective_pairing _))
                   "try-on-images" "g1/1021-k3j9x2m7.png"
                   (StorageError "Quota exceeded") _ _ eq_refl)).
    vm_compute. do 3 right. left. reflexivity.
  - refine (proj1 (HC Scenario.goneOutput "g2"
                     (Scenario.processing "g2" "composite")
                     (Scenario.world [Scenario.processing "g2" "composite"])
                     _ _ eq_refl ltac:(by_computation) eq_refl
                     (surjective_pairing _))
                   (JStr "https://cdn/out.png")
                   (Throw (ThrownError "fetch failed")) _ eq_refl).
    vm_compute. do 2 right. left. reflexivity.
Defined.

(** ** The output of a finished job *)

Section Output.

Lemma probe_usable output props :
  TryOn.probe output props =
  default JNull (head (omap usable (map (Js.get output) props))).
Proof.
  induction props as [|prop rest IH]; [reflexivity|].
  simpl. rewrite IH. unfold usable at 2.
  destruct (Js.get output prop) as [| |b|n|s|[|x xs]|fs]; simpl; try reflexivity.
  - destruct b; reflexivity.
  - destruct (negb (n =? 0)%Z); reflexivity.
  - destruct (String.eqb s ""); reflexivity.
Qed.

Lemma probe_none output props :
  (forall k, In k props -> Js.get output k = JUndefined) ->
  TryOn.probe output props = JNull.
Proof.
  induction props as [|prop rest IH]; intros H; [reflexivity|].
  simpl. rewrite (H prop) by (left; reflexivity). simpl.
  apply IH. intros k Hk. apply H. right. exact Hk.
Qed.

Lemma TryOn_outputPolicy :
  outputPolicy TryOn.GET TryOn.isFinal checkPredictionStatus
    (isString "succeeded") (fun output => negb (Js.isUndefined output))
    TryOn.extractImageUrl TryOn.noOutputImage.
Proof.
  intros env id g w ps w1 r w' Hid Hg Hf Hp Hs Hu HG.
  apply negb_true_iff in Hu.
  pose proof (TryOn_advance_succeeded env id g ps w1 Hs Hu) as Ha.
  destruct (Js.truthy (TryOn.extractImageUrl (ps_output ps))).
  - destruct (downloadAndStore_run env TryOn.bucketName "try-on" id
                (TryOn.extractImageUrl (ps_output ps)) (succeededVars g) w1)
      as (vars & out & rest & w2 & Hr & _ & T2 & _).
    rewrite Hr in Ha.
    pose proof (TryOn_GET_advanced env id g w ps w1 vars w2 Hid Hg Hf Hp Ha)
      as (imageUrl & signs & w'' & Hr' & _ & _ & T3 & _).
    rewrite HG in Hr'. inversion Hr'; subst.
    exists out, (rest ++ EvUpdate id (patchOf env vars (now w2)) :: signs)%list.
    rewrite T3, T2, <- app_assoc. reflexivity.
  - pose proof (TryOn_GET_advanced env id g w ps w1 _ w1 Hid Hg Hf Hp Ha) as Hadv.
    rewrite HG in Hadv. split.
    + exact (failedWith_advanced env _ id g _ _ w w1 _ _
               (TryOn_liveReply_members env id g _) Hadv eq_refl eq_refl).
    + destruct Hadv as (imageUrl & signs & w'' & Hr' & _ & _ & T3 & _ & Hn).
      inversion Hr'; subst. destruct (Hn eq_refl) as [_ ->].
      eexists. exact T3.
Qed.

Lemma Composite_outputPolicy :
  outputPolicy Composite.GET Composite.isFinal checkJobStatus
    (fun status => isString "completed" status || isString "succeeded" status)
    (fun _ => true) (fun output => output) (fun _ => Composite.noOutputImage).
Proof.
  intros env id g w ps w1 r w' Hid Hg Hf Hp Hs _ HG.
  pose proof (Composite_advance_succeeded env id g ps w1 Hs) as Ha.
  destruct (Js.truthy (ps_output ps)).
  - destruct (downloadAndStore_run env Composite.bucketName "composite" id
                (ps_output ps) (succeededVars g) w1)
      as (vars & out & rest & w2 & Hr & _ & T2 & _).
    rewrite Hr in Ha.
    pose proof (Composite_GET_advanced env id g w ps w1 vars w2 Hid Hg Hf Hp Ha)
      as (imageUrl & signs & w'' & Hr' & _ & _ & T3 & _).
    rewrite HG in Hr'. inversion Hr'; subst.
    exists out, (rest ++ EvUpdate id (patchOf env vars (now w2)) :: signs)%list.
    rewrite T3, T2, <- app_assoc. reflexivity.
  - pose proof (Composite_GET_advanced env id g w ps w1 _ w1 Hid Hg Hf Hp Ha) as Hadv.
    rewrite HG in Hadv. split.
    + exact (failedWith_advanced env _ id g _ _ w w1 _ _
               (Composite_liveReply_members env id g _) Hadv eq_refl eq_refl).
    + destruct Hadv as (imageUrl & signs & w'' & Hr' & _ & _ & T3 & _ & Hn).
      inversion Hr'; subst. destruct (Hn eq_refl) as [_ ->].
      eexists. exact T3.
Qed.

End Output.

(** C1, as the code has it.  When the poll of a processing generation
    reports success, the try-on status check takes as URL: the output
    itself when it is a non-empty string; the first element when it is a
    non-empty array; and for an object, or an empty array, the first of the
    members image, url, output, result, generated_image, in that order, that
    is a non-empty string or a non-empty array (then its first element).  A
    truthy URL is fetched next; otherwise the generation is failed with "No
    output image received from the API. Output format: " and the type of
    the output, as for an object with none of the five members and for an
    empty array.  This is for a poll result that has an output member.  The
    composite status check does not look into the output: a truthy output is
    fetched as it is, and a falsy one fails the generation with "No output
    image received from the API". *)
Theorem output_resolution :
  outputPolicy TryOn.GET TryOn.isFinal checkPredictionStatus
    (isString "succeeded") (fun output => negb (Js.isUndefined output))
    TryOn.extractImageUrl TryOn.noOutputImage /\
  outputPolicy Composite.GET Composite.isFinal checkJobStatus
    (fun status => isString "completed" status || isString "succeeded" status)
    (fun _ => true) (fun output => output) (fun _ => Composite.noOutputImage) /\
  (forall s, TryOn.extractImageUrl (JStr s) = if String.eqb s "" then JNull else JStr s) /\
  (forall x xs, TryOn.extractImageUrl (JArr (x :: xs)) = x) /\
  (forall fields,
     TryOn.extractImageUrl (JObj fields) =
     default JNull
       (head (omap usable (map (Js.get (JObj fields)) TryOn.possibleProps)))) /\
  (forall fields,
     (forall k, In k TryOn.possibleProps -> Js.get (JObj fields) k = JUndefined) ->
     TryOn.extractImageUrl (JObj fields) = JNull /\
     TryOn.noOutputImage (JObj fields) =
     "No output image received from the API. Output format: object") /\
  (TryOn.extractImageUrl (JArr []) = JNull /\
   TryOn.noOutputImage (JArr []) =
   "No output image received from the API. Output format: object") /\
  TryOn.possibleProps = ["image"; "url"; "output"; "result"; "generated_image"] /\
  Composite.noOutputImage = "No output image received from the API".
Proof.
  split; [exact TryOn_outputPolicy|].
  split; [exact Composite_outputPolicy|].
  split; [|split; [|split; [|split; [|split; [|split]]]]]; try reflexivity.
  - intros s. unfold TryOn.extractImageUrl. simpl.
    destruct (String.eqb s ""); reflexivity.
  - intros fields. apply probe_usable.
  - intros fields H. split; [|reflexivity].
    unfold TryOn.extractImageUrl. simpl Js.truthy. cbv iota.
    apply probe_none, H.
  - split; reflexivity.
Qed.

(** The composite status check fetches an object that carries the URL under
    [image] as it is, which fails as a download, and does the same with an
    empty array and with an object that has none of the five members: the
    error is that of a failed download, not that of a missing output image.
    The try-on status check finds no URL in an object whose [image] member is
    a number, nor in an empty string. *)
Lemma output_resolution_counterexample :
  (downloaded
     (newEvents (Scenario.world [Scenario.processing "g2" "composite"])
        (snd (Composite.GET
                (Scenario.done (JObj [("image", JStr "https://cdn/out.png")]))
                (mkGet (Some "g2"))
                (Scenario.world [Scenario.processing "g2" "composite"]))))
   = [JObj [("image", JStr "https://cdn/out.png")]] /\
   Js.get (bodyOf (Composite.GET
                     (Scenario.done (JObj [("image", JStr "https://cdn/out.png")]))
                     (mkGet (Some "g2"))
                     (Scenario.world [Scenario.processing "g2" "composite"])))
          "error"
   = JStr "Failed to download or process the generated image") /\
  Js.get (bodyOf (Composite.GET (Scenario.done (JArr [])) (mkGet (Some "g2"))
                    (Scenario.world [Scenario.processing "g2" "composite"])))
         "error"
  = JStr "Failed to download or process the generated image" /\
  Js.get (bodyOf (Composite.GET (Scenario.done (JObj [("foo", JStr "bar")]))
                    (mkGet (Some "g2"))
                    (Scenario.world [Scenario.processing "g2" "composite"])))
         "error"
  = JStr "Failed to download or process the generated image" /\
  Js.includes "output image" "Failed to download or process the generated image"
  = false /\
  Js.get (bodyOf (TryOn.GET (Scenario.done (JObj [("image", JNum 42)]))
                    (mkGet (Some "g1"))
                    (Scenario.world [Scenario.processing "g1" "try-on"])))
         "error"
  = JStr "No output image received from the API. Output format: object" /\
  Js.get (bodyOf (TryOn.GET (Scenario.done (JStr "")) (mkGet (Some "g1"))
                    (Scenario.world [Scenario.processing "g1" "try-on"])))
         "error"
  = JStr "No output image received from the API. Output format: string".
Proof. repeat split; by_computation. Qed.

Lemma output_resolution_witness :
  (exists out rest,
     trace (snd (TryOn.GET
                   (Scenario.done (JObj [("url", JStr "https://cdn/out.png")]))
                   (mkGet (Some "g1"))
                   (Scenario.world [Scenario.processing "g1" "try-on"])))
     = (trace (snd (checkPredictionStatus
                      (Scenario.done (JObj [("url", JStr "https://cdn/out.png")]))
                      (JStr "pred-1")
                      (record
                         (Scenario.done (JObj [("url", JStr "https://cdn/out.png")]))
                         (EvSelect "g1")
                         (Scenario.world [Scenario.processing "g1" "try-on"]))))
        ++ EvFetch (Download (JStr "https://cdn/out.png")) out :: rest)%list) /\
  failedWith
    (fst (Composite.GET (Scenario.done JNull) (mkGet (Some "g2"))
            (Scenario.world [Scenario.processing "g2" "composite"])))
    (snd (Composite.GET (Scenario.done JNull) (mkGet (Some "g2"))
            (Scenario.world [Scenario.processing "g2" "composite"])))
    "g2" "No output image received from the API".
Proof.
  destruct output_resolution as (HT & HC & _).
  split.
  - exact (HT (Scenario.done (JObj [("url", JStr "https://cdn/out.png")])) "g1"
              (Scenario.processing "g1" "try-on")
              (Scenario.world [Scenario.processing "g1" "try-on"])
              (mkStatus (JStr "succeeded")
                        (JObj [("url", JStr "https://cdn/out.png")]) JNull)
              _ _ _ eq_refl ltac:(by_computation) eq_refl
              ltac:(by_computation) eq_refl eq_refl (surjective_pairing _)).
  - exact (proj1 (HC (Scenario.done JNull) "g2"
                     (Scenario.processing "g2" "composite")
                     (Scenario.world [Scenario.processing "g2" "composite"])
                     (mkStatus (JStr "succeeded") JNull JNull)
                     (snd (checkJobStatus (Scenario.done JNull) (JStr "pred-1")
                             (record (Scenario.done JNull) (EvSelect "g2")
                                (Scenario.world [Scenario.processing "g2" "composite"]))))
                     _ _ eq_refl ltac:(by_computation) eq_refl
                     ltac:(by_computation) eq_refl eq_refl (surjective_pairing _))).
Defined.

(** ** Temporary images of the combiner *)

Section Temporaries.

Variable env : Env.

Lemma uploadImage_None bucket path w w' :
  uploadImage env bucket path w = (Ret None, w') ->
  objects w' = {[ (bucket, path) ]} ∪ objects w.
Proof.
  unfold uploadImage. unfold bind at 1, storageUpload.
  destruct (storage_upload env (now w) bucket path) as [u|message|t].
  - intros H. inversion H. reflexivity.
  - destruct (bucketMissing message); discriminate.
  - discriminate.
Qed.

Lemma getImageUrl_objects bucket path w :
  objects (snd (getImageUrl env bucket path w)) = objects w.
Proof.
  pose proof (does_getImageUrl env anyEvent true true bucket path
                (fun _ => eq_refl) w) as (_ & H & _).
  exact (H eq_refl).
Qed.

(** When both uploads have succeeded the two temporary objects are in the
    store, and their paths are handed back. *)
Lemma uploadImagesToSupabase_Ret a b w modelUrl sceneUrl paths w1 :
  uploadImagesToSupabase env a b w = (Ret (modelUrl, sceneUrl, paths), w1) ->
  paths = mkPaths (Some (tempModelPath env w)) (Some (tempScenePath env w)) /\
  holds w1 "temp-bucket" (tempModelPath env w) = true /\
  holds w1 "temp-bucket" (tempScenePath env w) = true.
Proof.
  unfold uploadImagesToSupabase. unfold bind at 1, Date_now.
  rewrite try_rethrow. intros H.
  apply bind_Ret_inv in H as (x1 & w2 & H1 & H).
  apply bind_Ret_inv in H as (x2 & w3 & H2 & H).
  assert (w2 = w) as ->.
  { unfold base64ToFile in H1. inversion H1; reflexivity. }
  assert (w3 = w) as ->.
  { unfold base64ToFile in H2. inversion H2; reflexivity. }
  apply bind_Ret_inv in H as (modelUpload & w4 & Hm & H).
  apply bind_Ret_inv in H as (sceneUpload & w5 & Hs & H).
  destruct modelUpload as [m|]; [discriminate|].
  destruct sceneUpload as [m|]; [discriminate|].
  apply uploadImage_None in Hm. apply uploadImage_None in Hs.
  apply bind_Ret_inv in H as (mu & w6 & Hu1 & H).
  apply bind_Ret_inv in H as (su & w7 & Hu2 & H).
  inversion H; subst.
  pose proof (getImageUrl_objects "temp-bucket"
                (Some ("temp/" +:+ generateId env (now w) +:+ "-model.jpg")) w5) as O1.
  rewrite Hu1 in O1. simpl in O1.
  pose proof (getImageUrl_objects "temp-bucket"
                (Some ("temp/" +:+ generateId env (now w) +:+ "-scene.jpg")) w6) as O2.
  rewrite Hu2 in O2. simpl in O2.
  split; [reflexivity|].
  unfold holds, tempModelPath, tempScenePath.
  rewrite O2, O1, Hs, Hm.
  split; apply bool_decide_eq_true.
  - apply elem_of_union_r, elem_of_union_l, elem_of_singleton_2. reflexivity.
  - apply elem_of_union_l, elem_of_singleton_2. reflexivity.
Qed.

Lemma prepareSources_Ret a b u w figureUrl sceneUrl paths w1 :
  (u && (Js.startsWith "data:" a || Js.startsWith "data:" b))%bool = true ->
  prepareSources env a b u w = (Ret (figureUrl, sceneUrl, paths), w1) ->
  uploadImagesToSupabase env a b w = (Ret (figureUrl, sceneUrl, paths), w1).
Proof.
  unfold prepareSources. intros ->.
  destruct (negb (hasKey env)); [discriminate|]. auto.
Qed.

(** [cleanupTempImages] returns, whatever the store answers. *)
Lemma cleanupTempImages_run mp sp w :
  nonEmpty (Some mp) = Some mp ->
  nonEmpty (Some sp) = Some sp ->
  exists w',
    cleanupIfAny env (mkPaths (Some mp) (Some sp)) w = (Ret tt, w') /\
    db w' = db w /\
    trace w' = (trace w ++ cleanupCalls env w mp sp)%list /\
    (removes env ->
     holds w' "temp-bucket" mp = false /\ holds w' "temp-bucket" sp = false).
Proof.
  intros Hm Hs. unfold cleanupIfAny.
  change (0 <? keyCount (mkPaths (Some mp) (Some sp)))%nat with true. cbv iota.
  unfold cleanupTempImages, cleanupCalls. cbn [modelPath scenePath].
  rewrite Hm, Hs. unfold deleteImage, try_catch, bind, storageRemove, holds, removes.
  cbn [now record objects trace db].
  destruct (storage_remove env (now w) "temp-bucket" mp) as [[]|m|t] eqn:E1;
    simpl.
  - destruct (storage_remove env (now w + latency env (now w)) "temp-bucket" sp)
      as [[]|m|t] eqn:E2; eexists; (split; [reflexivity|]); simpl;
      rewrite <- app_assoc; (split; [reflexivity|]); (split; [reflexivity|]);
      intros Hr; try (rewrite Hr in E2; discriminate);
      split; apply bool_decide_eq_false; intros H;
      apply elem_of_difference in H as [H Hsp];
      [ apply elem_of_difference in H as [_ Hmp];
        apply Hmp, elem_of_singleton_2; reflexivity
      | apply Hsp, elem_of_singleton_2; reflexivity ].
  - destruct (storage_remove env (now w + latency env (now w)) "temp-bucket" sp)
      as [[]|m'|t] eqn:E2; eexists; (split; [reflexivity|]); simpl;
      rewrite <- app_assoc; (split; [reflexivity|]); (split; [reflexivity|]);
      intros Hr; rewrite Hr in E1; discriminate.
  - eexists. split; [reflexivity|]. simpl. split; [reflexivity|].
    split; [reflexivity|]. intros Hr. rewrite Hr in E1. discriminate.
Qed.

Lemma append_inj_l (a b c : string) : a +:+ b = a +:+ c -> b = c.
Proof.
  induction a as [|x a IH]; intros H; [exact H|].
  change (String x (a +:+ b) = String x (a +:+ c)) in H.
  injection H as H. apply IH, H.
Qed.

Lemma temp_paths_differ w : tempModelPath env w <> tempScenePath env w.
Proof.
  unfold tempModelPath, tempScenePath. intros H.
  apply append_inj_l, append_inj_l in H. discriminate.
Qed.

(** What is left after the clean-up of two objects that the store holds. *)
Lemma cleanupTempImages_leaves mp sp w :
  nonEmpty (Some mp) = Some mp ->
  nonEmpty (Some sp) = Some sp ->
  mp <> sp ->
  holds w "temp-bucket" mp = true ->
  holds w "temp-bucket" sp = true ->
  holds (snd (cleanupIfAny env (mkPaths (Some mp) (Some sp)) w)) "temp-bucket" mp
    = modelLeft env w mp /\
  holds (snd (cleanupIfAny env (mkPaths (Some mp) (Some sp)) w)) "temp-bucket" sp
    = sceneLeft env w mp sp.
Proof.
  intros Hm Hs Hne Hhm Hhs. unfold cleanupIfAny.
  change (0 <? keyCount (mkPaths (Some mp) (Some sp)))%nat with true. cbv iota.
  unfold cleanupTempImages. cbn [modelPath scenePath].
  rewrite Hm, Hs.
  unfold deleteImage, try_catch, bind, storageRemove, modelLeft, sceneLeft.
  cbn [now record objects trace db].
  unfold holds in *.
  apply bool_decide_eq_true in Hhm. apply bool_decide_eq_true in Hhs.
  assert (Hpm : ("temp-bucket", mp) <> ("temp-bucket", sp))
    by (intros E; inversion E; contradiction).
  assert (Hps : ("temp-bucket", sp) <> ("temp-bucket", mp))
    by (intros E; inversion E; subst; contradiction).
  destruct (storage_remove env (now w) "temp-bucket" mp) as [[]|m|t] eqn:E1;
    simpl.
  - destruct (storage_remove env (now w + latency env (now w)) "temp-bucket" sp)
      as [[]|m|t] eqn:E2; simpl; split.
    + apply bool_decide_eq_false. intros H.
      apply elem_of_difference in H as [H _].
      apply elem_of_difference in H as [_ H]. apply H, elem_of_singleton_2. reflexivity.
    + apply bool_decide_eq_false. intros H.
      apply elem_of_difference in H as [_ H]. apply H, elem_of_singleton_2. reflexivity.
    + apply bool_decide_eq_false. intros H.
      apply elem_of_difference in H as [_ H]. apply H, elem_of_singleton_2. reflexivity.
    + apply bool_decide_eq_true. apply elem_of_difference. split; [exact Hhs|].
      intros H. apply elem_of_singleton_1 in H. contradiction.
    + apply bool_decide_eq_false. intros H.
      apply elem_of_difference in H as [_ H]. apply H, elem_of_singleton_2. reflexivity.
    + apply bool_decide_eq_true. apply elem_of_difference. split; [exact Hhs|].
      intros H. apply elem_of_singleton_1 in H. contradiction.
  - destruct (storage_remove env (now w + latency env (now w)) "temp-bucket" sp)
      as [[]|m'|t] eqn:E2; simpl; split.
    + apply bool_decide_eq_true. apply elem_of_difference. split; [exact Hhm|].
      intros H. apply elem_of_singleton_1 in H. contradiction.
    + apply bool_decide_eq_false. intros H.
      apply elem_of_difference in H as [_ H]. apply H, elem_of_singleton_2. reflexivity.
    + apply bool_decide_eq_true. exact Hhm.
    + apply bool_decide_eq_true. exact Hhs.
    + apply bool_decide_eq_true. exact Hhm.
    + apply bool_decide_eq_true. exact Hhs.
  - split; apply bool_decide_eq_true; assumption.
Qed.

(** Once the sources are prepared, [generateComposite] ends with the
    clean-up, whether the provider part returns or throws. *)
Lemma generateComposite_ends a b c u w figureUrl sceneUrl paths w1 :
  prepareSources env a b u w = (Ret (figureUrl, sceneUrl, paths), w1) ->
  (exists w3, cleanupIfAny env paths (snd (createAndPoll env figureUrl sceneUrl c w1))
              = (Ret tt, w3)) ->
  snd (generateComposite env a b c u w) =
  snd (cleanupIfAny env paths (snd (createAndPoll env figureUrl sceneUrl c w1))) /\
  match fst (createAndPoll env figureUrl sceneUrl c w1) with
  | Ret result => fst (generateComposite env a b c u w) = Ret result
  | Throw t => fst (generateComposite env a b c u w) = Throw t
  end.
Proof.
  intros Hp [w3 Hc].
  assert (generateComposite env a b c u w =
          match createAndPoll env figureUrl sceneUrl c w1 with
          | (Ret result, w2) => (Ret result, snd (cleanupIfAny env paths w2))
          | (Throw t, w2) => (Throw t, snd (cleanupIfAny env paths w2))
          end) as ->.
  { unfold generateComposite.
    erewrite bind_Ret by (apply try_Ret; exact Hp).
    unfold try_catch at 1. unfold bind at 1.
    destruct (createAndPoll env figureUrl sceneUrl c w1) as [[[result id]|t] w2];
      simpl in Hc |- *; unfold bind at 1; rewrite Hc; reflexivity. }
  destruct (createAndPoll env figureUrl sceneUrl c w1) as [[result|t] w2];
    split; reflexivity.
Qed.

End Temporaries.

(** ** The turns of the polling loop *)

Section Turns.

Variable env : Env.

(** A turn that goes round has let the call and [POLL_INTERVAL] pass. *)
Lemma pollOnce_None id w w1 :
  pollOnce env id w = (Ret None, w1) ->
  now w1 = (now w + latency env (now w) + POLL_INTERVAL)%N.
Proof.
  unfold pollOnce. rewrite try_rethrow. unfold bind at 1, fetch.
  destruct (http env (now w) (CombinerGet id)) as [r|t] eqn:Eh; [|discriminate].
  destruct (resp_ok r); cbn [negb].
  - unfold json, text.
    destruct (resp_bodyError r); [discriminate|].
    unfold bind at 1. unfold bind at 1. cbn [ret].
    destruct (resp_json r) as [prediction|t] eqn:Ej; [|discriminate].
    unfold bind at 1.
    destruct (member prediction "status" _) as [[status|t] w2] eqn:Em; [|discriminate].
    apply member_Ret in Em as [Hs Hw]. subst w2.
    unfold bind at 1.
    destruct (Object_keys prediction _) as [[u|t] w2] eqn:Ek; [|discriminate].
    assert (w2 = record env (EvFetch (CombinerGet id) (Ret r)) w) as Hw2.
    { unfold Object_keys in Ek. destruct prediction; inversion Ek; reflexivity. }
    subst w2.
    destruct (isString "succeeded" status) eqn:Es.
    + unfold bind at 1.
      destruct (member prediction "output" _) as [[o|t] w3] eqn:Eo; discriminate.
    + destruct (isString "failed" status).
      * unfold bind at 1.
        destruct (member prediction "error" _) as [[o|t] w3]; discriminate.
      * unfold bind, delay, ret. intros H. inversion H. reflexivity.
  - unfold bind at 1. destruct (text r _) as [[x|t] w2]; discriminate.
Qed.

(** Once the turns left cover the time left, more turns change nothing. *)
Lemma pollLoop_enough start id n :
  forall m w,
    (n <= m)%nat ->
    (start <= now w)%N ->
    (MAX_TIMEOUT <= now w - start + N.of_nat n * POLL_INTERVAL)%N ->
    pollLoop env n start id w = pollLoop env m start id w.
Proof.
  induction n as [|n IH]; intros m w Hnm Hs Ht.
  - destruct m as [|m]; [reflexivity|]. simpl.
    unfold bind at 1, Date_now.
    destruct (N.ltb_spec (now w - start) MAX_TIMEOUT) as [H|H]; [lia | reflexivity].
  - destruct m as [|m]; [lia|]. simpl.
    unfold bind at 1 3, Date_now.
    destruct (now w - start <? MAX_TIMEOUT)%N; [|reflexivity].
    unfold bind.
    destruct (pollOnce env id w) as [[[output|]|t] w1] eqn:Ep; try reflexivity.
    apply pollOnce_None in Ep. unfold POLL_INTERVAL in *.
    apply IH; lia.
Qed.

(** The loop of [pollForResults] ends by its own test on the clock: turns
    beyond [pollTurns] change nothing. *)
Lemma pollLoop_turns id w m :
  (pollTurns <= m)%nat ->
  pollLoop env m (now w) id w = pollLoop env pollTurns (now w) id w.
Proof.
  intros H. symmetry. apply pollLoop_enough; [exact H | lia |].
  unfold pollTurns, MAX_TIMEOUT, POLL_INTERVAL. lia.
Qed.

End Turns.

(** C9, as the code has it.  When [generateComposite] has uploaded inline
    sources, so that its first part returned with the two temporary objects
    in the store, it ends with the clean-up: after the provider calls, which
    leave the store as it is, it asks for the removal of the model image and
    then, unless that removal throws, of the scene image, and it returns what
    the provider part returned or throws what it threw (a rejected
    submission, a failed poll, the timeout).  It does not look at what the
    removals gave: when the call is over an object is gone exactly when its
    removal was asked for and the store carried it out.  With a store that
    carries out removals neither temporary object is left. *)
Theorem temporary_images_cleanup (env : Env)
  (figureImage sceneImage prompt : string) (useSupabaseUrls : bool)
  (w w1 : World) (figureUrl sceneUrl : string) (paths : TempPaths) :
  (useSupabaseUrls &&
   (Js.startsWith "data:" figureImage || Js.startsWith "data:" sceneImage))%bool
    = true ->
  prepareSources env figureImage sceneImage useSupabaseUrls w
    = (Ret (figureUrl, sceneUrl, paths), w1) ->
  let mp := tempModelPath env w in
  let sp := tempScenePath env w in
  let provider := createAndPoll env figureUrl sceneUrl prompt w1 in
  let r := generateComposite env figureImage sceneImage prompt useSupabaseUrls w in
  paths = mkPaths (Some mp) (Some sp) /\
  holds w1 "temp-bucket" mp = true /\
  holds w1 "temp-bucket" sp = true /\
  objects (snd provider) = objects w1 /\
  (exists polls,
     trace (snd provider) = (trace w1 ++ polls)%list /\
     forallb isProviderCall polls = true) /\
  trace (snd r) = (trace (snd provider) ++ cleanupCalls env (snd provider) mp sp)%list /\
  db (snd r) = db w /\
  match fst provider with
  | Ret result => fst r = Ret result
  | Throw t => fst r = Throw t
  end /\
  holds (snd r) "temp-bucket" mp = modelLeft env (snd provider) mp /\
  holds (snd r) "temp-bucket" sp = sceneLeft env (snd provider) mp sp /\
  (removes env ->
   holds (snd r) "temp-bucket" mp = false /\
   holds (snd r) "temp-bucket" sp = false).
Proof.
  intros Hu Hp mp sp provider r. subst mp sp.
  pose proof (prepareSources_Ret env _ _ _ _ _ _ _ _ Hu Hp) as Hup.
  destruct (uploadImagesToSupabase_Ret env _ _ _ _ _ _ _ Hup) as (-> & Hm & Hs).
  pose proof (createAndPoll_does env figureUrl sceneUrl prompt w1)
    as (Hd & Ho & polls & Ht & Hpolls).
  fold provider in Hd, Ho, Ht.
  destruct (cleanupTempImages_run env (tempModelPath env w) (tempScenePath env w)
              (snd provider) eq_refl eq_refl)
    as (w3 & Hc & Hd3 & Ht3 & Hr3).
  assert (Hhm : holds (snd provider) "temp-bucket" (tempModelPath env w) = true)
    by (unfold holds; rewrite (Ho eq_refl); exact Hm).
  assert (Hhs : holds (snd provider) "temp-bucket" (tempScenePath env w) = true)
    by (unfold holds; rewrite (Ho eq_refl); exact Hs).
  destruct (cleanupTempImages_leaves env (tempModelPath env w) (tempScenePath env w)
              (snd provider) eq_refl eq_refl (temp_paths_differ env w) Hhm Hhs)
    as [Hlm Hls].
  destruct (generateComposite_ends env figureImage sceneImage prompt useSupabaseUrls
              w figureUrl sceneUrl _ w1 Hp (ex_intro _ w3 Hc)) as [Hw Hf].
  fold provider in Hw, Hf. fold r in Hw, Hf.
  rewrite <- Hw in Hlm, Hls. rewrite Hc in Hw. simpl in Hw.
  pose proof (prepareSources_does env figureImage sceneImage useSupabaseUrls w)
    as (Hd1 & _).
  rewrite Hp in Hd1. simpl in Hd1.
  split; [reflexivity|]. split; [exact Hm|]. split; [exact Hs|].
  split; [exact (Ho eq_refl)|]. split; [exists polls; split; assumption|].
  split; [rewrite Hw; exact Ht3|].
  split; [rewrite Hw, Hd3, (Hd eq_refl); exact (Hd1 eq_refl)|].
  split; [exact Hf|]. split; [exact Hlm|]. split; [exact Hls|].
  rewrite Hw. exact Hr3.
Qed.

(** A store that refuses the removals: the call returns the output of the
    job and both temporary objects are still there.  A store whose removals
    throw: the removal of the scene image is not even asked for. *)
Lemma temporary_images_cleanup_counterexample :
  fst (Scenario.prepared Scenario.refusing)
  = Ret ("https://project.supabase.co/storage/v1/object/sign/temp-bucket/temp/gen-1000-model.jpg?token=1014",
         "https://project.supabase.co/storage/v1/object/sign/temp-bucket/temp/gen-1000-scene.jpg?token=1021",
         mkPaths (Some "temp/gen-1000-model.jpg") (Some "temp/gen-1000-scene.jpg")) /\
  fst (generateComposite Scenario.refusing Scenario.figure Scenario.scene
         "Standing in a park at noon" true (Scenario.world []))
  = Ret (JStr "https://cdn/out.png", JStr "pred-1") /\
  holds (snd (generateComposite Scenario.refusing Scenario.figure Scenario.scene
                "Standing in a park at noon" true (Scenario.world [])))
        "temp-bucket" "temp/gen-1000-model.jpg" = true /\
  holds (snd (generateComposite Scenario.refusing Scenario.figure Scenario.scene
                "Standing in a park at noon" true (Scenario.world [])))
        "temp-bucket" "temp/gen-1000-scene.jpg" = true /\
  removals (trace (snd (generateComposite Scenario.unreachableStore Scenario.figure
                          Scenario.scene "Standing in a park at noon" true
                          (Scenario.world []))))
  = [("temp-bucket", "temp/gen-1000-model.jpg")] /\
  holds (snd (generateComposite Scenario.unreachableStore Scenario.figure Scenario.scene
                "Standing in a park at noon" true (Scenario.world [])))
        "temp-bucket" "temp/gen-1000-scene.jpg" = true.
Proof. repeat split; by_computation. Qed.

Lemma temporary_images_cleanup_witness :
  (holds (snd (generateComposite (Scenario.finishingAt 1050)
                 Scenario.figure Scenario.scene
                 "Standing in a park at noon" true (Scenario.world [])))
         "temp-bucket" "temp/gen-1000-model.jpg" = false /\
   holds (snd (generateComposite (Scenario.finishingAt 1050)
                 Scenario.figure Scenario.scene
                 "Standing in a park at noon" true (Scenario.world [])))
         "temp-bucket" "temp/gen-1000-scene.jpg" = false) /\
  (holds (snd (generateComposite Scenario.rejecting
                 Scenario.figure Scenario.scene
                 "Standing in a park at noon" true (Scenario.world [])))
         "temp-bucket" "temp/gen-1000-model.jpg" = false /\
   holds (snd (generateComposite Scenario.rejecting
                 Scenario.figure Scenario.scene
                 "Standing in a park at noon" true (Scenario.world [])))
         "temp-bucket" "temp/gen-1000-scene.jpg" = false) /\
  (holds (snd (generateComposite Scenario.refusing
                 Scenario.figure Scenario.scene
                 "Standing in a park at noon" true (Scenario.world [])))
         "temp-bucket" "temp/gen-1000-model.jpg" = true /\
   holds (snd (generateComposite Scenario.refusing
                 Scenario.figure Scenario.scene
                 "Standing in a park at noon" true (Scenario.world [])))
         "temp-bucket" "temp/gen-1000-scene.jpg" = true).
Proof.
  split; [|split].
  - destruct (temporary_images_cleanup (Scenario.finishingAt 1050)
                Scenario.figure Scenario.scene
                "Standing in a park at noon" true (Scenario.world [])
                (snd (Scenario.prepared (Scenario.finishingAt 1050)))
                (fst (fst (Scenario.sources (Scenario.finishingAt 1050))))
                (snd (fst (Scenario.sources (Scenario.finishingAt 1050))))
                (snd (Scenario.sources (Scenario.finishingAt 1050)))
                eq_refl ltac:(by_computation))
      as (_ & _ & _ & _ & _ & _ & _ & _ & _ & _ & H).
    exact (H (fun _ _ _ => eq_refl)).
  - destruct (temporary_images_cleanup Scenario.rejecting
                Scenario.figure Scenario.scene
                "Standing in a park at noon" true (Scenario.world [])
                (snd (Scenario.prepared Scenario.rejecting))
                (fst (fst (Scenario.sources Scenario.rejecting)))
                (snd (fst (Scenario.sources Scenario.rejecting)))
                (snd (Scenario.sources Scenario.rejecting))
                eq_refl ltac:(by_computation))
      as (_ & _ & _ & _ & _ & _ & _ & _ & _ & _ & H).
    exact (H (fun _ _ _ => eq_refl)).
  - destruct (temporary_images_cleanup Scenario.refusing
                Scenario.figure Scenario.scene
                "Standing in a park at noon" true (Scenario.world [])
                (snd (Scenario.prepared Scenario.refusing))
                (fst (fst (Scenario.sources Scenario.refusing)))
                (snd (fst (Scenario.sources Scenario.refusing)))
                (snd (Scenario.sources Scenario.refusing))
                eq_refl ltac:(by_computation))
      as (_ & _ & _ & _ & _ & _ & _ & _ & Hm & Hs & _).
    split; [exact Hm | exact Hs].
Defined.

(** * Further properties of the code *)

(** ** Status checks that name no generation *)

(** X1.  A status check whose [id] parameter is missing or empty is answered
    with status 400 and the error "Missing generation ID" before anything is
    called: the world is what it was.  For the try-on and for the composite
    route. *)
Theorem status_check_without_id (env : Env) (id : option string) (w : World) :
  nonEmpty id = None ->
  TryOn.GET env (mkGet id) w = (Ret missingId, w) /\
  Composite.GET env (mkGet id) w = (Ret missingId, w) /\
  reply_status missingId = 400 /\
  reply_body missingId = JObj [("error", JStr "Missing generation ID")].
Proof.
  intros H. unfold TryOn.GET, Composite.GET. cbn [get_id].
  rewrite H. repeat split.
Qed.

Lemma status_check_without_id_witness :
  TryOn.GET Scenario.offline (mkGet (Some "")) (Scenario.world [])
    = (Ret missingId, Scenario.world []) /\
  Composite.GET Scenario.offline (mkGet None) (Scenario.world [])
    = (Ret missingId, Scenario.world []).
Proof.
  split.
  - exact (proj1 (status_check_without_id Scenario.offline (Some "")
                    (Scenario.world []) eq_refl)).
  - exact (proj1 (proj2 (status_check_without_id Scenario.offline None
                           (Scenario.world []) eq_refl))).
Defined.

(** X2.  A status check for an id that the record store does not hold is
    answered with status 404, the error "Generation not found" and the
    message of the store's error ("Unknown error" when that is empty).  Its
    only call is the select: no provider is asked, nothing is stored or
    written.  For the try-on and for the composite route. *)
Theorem status_check_of_unknown_id (env : Env) (id : string) (w : World) :
  nonEmpty (Some id) = Some id ->
  db w !! id = None ->
  TryOn.GET env (mkGet (Some id)) w = (Ret (notFound env), record env (EvSelect id) w) /\
  Composite.GET env (mkGet (Some id)) w
    = (Ret (notFound env), record env (EvSelect id) w) /\
  reply_status (notFound env) = 404 /\
  Js.get (reply_body (notFound env)) "error" = JStr "Generation not found" /\
  Js.get (reply_body (notFound env)) "message"
    = JStr (if String.eqb (noRowMessage env) "" then "Unknown error"
            else noRowMessage env) /\
  newEvents w (record env (EvSelect id) w) = [EvSelect id] /\
  db (record env (EvSelect id) w) = db w /\
  objects (record env (EvSelect id) w) = objects w.
Proof.
  intros Hid Hg.
  split; [|split].
  - unfold TryOn.GET. simpl get_id. rewrite Hid. apply try_Ret.
    rewrite (bind_Ret _ _ _ _ _ (select_run env id w)). rewrite Hg. reflexivity.
  - unfold Composite.GET. simpl get_id. rewrite Hid. apply try_Ret.
    rewrite (bind_Ret _ _ _ _ _ (select_run env id w)). rewrite Hg. reflexivity.
  - repeat split; try reflexivity.
    unfold newEvents. simpl. apply drop_app_length.
Qed.

Lemma status_check_of_unknown_id_witness :
  TryOn.GET Scenario.offline (mkGet (Some "g9"))
            (Scenario.world [Scenario.completed])
  = (Ret (notFound Scenario.offline),
     record Scenario.offline (EvSelect "g9") (Scenario.world [Scenario.completed])).
Proof.
  exact (proj1 (status_check_of_unknown_id Scenario.offline "g9"
                  (Scenario.world [Scenario.completed]) eq_refl
                  ltac:(by_computation))).
Defined.

(** ** Create requests that cannot be served *)

Section Bodies.

Variable env : Env.

Lemma zstring_issues checks v msgs : Zod.zstring checks v = inr msgs -> msgs <> [].
Proof.
  unfold Zod.zstring. destruct v; try (intros H; inversion H; discriminate).
  destruct (List.filter _ checks) as [|c rest]; [discriminate|].
  intros H. inversion H. discriminate.
Qed.

Lemma required_string message v x :
  Zod.zstring [Zod.min 1 message] v = inl x -> Js.truthy x = true.
Proof.
  unfold Zod.zstring. destruct v as [| | | |s| |]; try discriminate.
  simpl. destruct s as [|c s]; simpl; [discriminate|].
  intros H. inversion H. reflexivity.
Qed.

Lemma zstring_neverSilent checks : neverSilent (Zod.zstring checks).
Proof. intros v msgs. apply zstring_issues. Qed.

Lemma optional_neverSilent inner : neverSilent inner -> neverSilent (Zod.optional inner).
Proof. intros H v msgs. unfold Zod.optional. destruct v; try apply H. discriminate. Qed.

Lemma default_neverSilent inner d : neverSilent inner -> neverSilent (Zod.default inner d).
Proof. intros H v msgs. unfold Zod.default. destruct v; apply H. Qed.

(** When no member has an issue, the data has every member of the shape, in
    the order of the shape, with its parsed value. *)
Lemma parseMembers_clean shape input :
  Forall (fun ks => neverSilent (snd ks)) shape ->
  forall data,
    Zod.parseMembers shape input = (data, []) ->
    Forall2 (fun ks kv => fst kv = fst ks /\
                          snd ks (Js.get input (fst ks)) = inl (snd kv))
            shape data.
Proof.
  induction 1 as [|[k schema] shape Hk Hshape IH]; intros data; simpl.
  - intros H. inversion H. constructor.
  - destruct (Zod.parseMembers shape input) as [d iss].
    destruct (schema (Js.get input k)) as [v|msgs] eqn:E.
    + intros H. inversion H; subst. constructor; [split; [reflexivity | exact E]|].
      apply IH. reflexivity.
    + intros H. inversion H as [[Hd Hi]].
      apply app_eq_nil in Hi as [Hm _]. apply map_eq_nil in Hm.
      destruct (Hk _ _ E Hm).
Qed.

(** A request that passed [TryOnRequestSchema] carries both images. *)
Lemma TryOn_parsed_images body data :
  Zod.safeParse TryOnRequestSchema body = Zod.Success data ->
  Js.truthy (Js.assoc "modelImageBase64" data) = true /\
  Js.truthy (Js.assoc "clothingImageBase64" data) = true.
Proof.
  unfold Zod.safeParse. destruct body as [| | | | | |fields]; try discriminate.
  destruct (Zod.parseMembers TryOnRequestSchema (JObj fields)) as [d iss] eqn:E.
  destruct iss; [|discriminate]. intros H. inversion H; subst d.
  apply parseMembers_clean in E.
  - unfold TryOnRequestSchema in E.
    inversion E as [|? [k1 v1] ? ? [K1 V1] E1]; subst.
    inversion E1 as [|? [k2 v2] ? ? [K2 V2] E2]; subst.
    simpl in K1, K2, V1, V2. subst k1 k2. simpl.
    split; eapply required_string; eassumption.
  - unfold TryOnRequestSchema.
    repeat constructor; simpl;
      auto using zstring_neverSilent, optional_neverSilent, default_neverSilent.
Qed.

Lemma Composite_parsed_images body data :
  Zod.safeParse CompositeRequestSchema body = Zod.Success data ->
  Js.truthy (Js.assoc "figureImageBase64" data) = true /\
  Js.truthy (Js.assoc "sceneImageBase64" data) = true.
Proof.
  unfold Zod.safeParse. destruct body as [| | | | | |fields]; try discriminate.
  destruct (Zod.parseMembers CompositeRequestSchema (JObj fields)) as [d iss] eqn:E.
  destruct iss; [|discriminate]. intros H. inversion H; subst d.
  apply parseMembers_clean in E.
  - unfold CompositeRequestSchema in E.
    inversion E as [|? [k1 v1] ? ? [K1 V1] E1]; subst.
    inversion E1 as [|? [k2 v2] ? ? [K2 V2] E2]; subst.
    simpl in K1, K2, V1, V2. subst k1 k2. simpl.
    split; eapply required_string; eassumption.
  - unfold CompositeRequestSchema.
    repeat constructor; simpl;
      auto using zstring_neverSilent, optional_neverSilent, default_neverSilent.
Qed.

(** What the inner [try] of a create request comes to: no early reply, or
    the reply for a failed submission. *)
Lemma TryOn_submit_replies id user a b c metadata w :
  exists failure w1,
    TryOn.submit env id user a b c metadata w = (Ret failure, w1) /\
    (failure = None \/ exists message, failure = Some (TryOn.submitError message)).
Proof.
  destruct (generateTryOn env a b c w) as [[pid|t] w1] eqn:E.
  - eexists _, _. split; [apply TryOn_submit_returns, E | left; reflexivity].
  - eexists _, _. split; [apply TryOn_submit_throws, E | right; eauto].
Qed.

Lemma Composite_submit_replies id user a b c metadata w :
  exists failure w1,
    Composite.submit env id user a b c metadata w = (Ret failure, w1) /\
    (failure = None \/ exists message, failure = Some (Composite.submitError message)).
Proof.
  destruct (generateComposite env a b c true w) as [[[url jid]|t] w1] eqn:E.
  - eexists _, _. split; [eapply Composite_submit_returns, E | left; reflexivity].
  - eexists _, _. split; [apply Composite_submit_throws, E | right; eauto].
Qed.

End Bodies.

(** X3.  The replies "Missing image data" of the two create handlers are
    never sent: a body that passed validation carries both images as
    non-empty strings, so the test after validation cannot fail.  Whatever
    the request and the world, the reply of a create request is not that
    one. *)
Theorem missing_image_reply_is_never_sent (env : Env) (request : PostRequest)
  (w : World) :
  fst (TryOn.POST env request w) <> Ret TryOn.missingImages /\
  fst (Composite.POST env request w) <> Ret Composite.missingImages.
Proof.
  split.
  - unfold TryOn.POST, try_catch. unfold bind at 1.
    destruct (post_json request) as [body|t]; [|simpl; discriminate].
    destruct (Zod.safeParse TryOnRequestSchema body) as [data|issues] eqn:Ep.
    + destruct (TryOn_parsed_images _ _ Ep) as [H1 H2].
      unfold bind at 1, Date_now. unfold bind at 1, logGeneration, ret.
      rewrite H1, H2. cbn [negb orb].
      destruct (TryOn_submit_replies env (generateId env (now w)) (post_user request)
                  (stringOf (Js.assoc "modelImageBase64" data))
                  (stringOf (Js.assoc "clothingImageBase64" data))
                  (stringOf (Js.assoc "prompt" data))
                  (TryOn.metadataOf (Js.assoc "modelImageId" data)
                     (Js.assoc "clothingImageId" data)
                     (stringOf (Js.assoc "prompt" data))) w)
        as (failure & w1 & Hs & [->|[message ->]]);
        unfold bind at 1; rewrite Hs; simpl; discriminate.
    + simpl. discriminate.
  - unfold Composite.POST, try_catch. unfold bind at 1.
    destruct (post_json request) as [body|t]; [|simpl; discriminate].
    destruct (Zod.safeParse CompositeRequestSchema body) as [data|issues] eqn:Ep.
    + destruct (Composite_parsed_images _ _ Ep) as [H1 H2].
      unfold bind at 1, Date_now. unfold bind at 1, logGeneration, ret.
      rewrite H1, H2. cbn [negb orb].
      destruct (Composite_submit_replies env (generateId env (now w))
                  (post_user request)
                  (stringOf (Js.assoc "figureImageBase64" data))
                  (stringOf (Js.assoc "sceneImageBase64" data))
                  (stringOf (Js.assoc "prompt" data))
                  (Composite.metadataOf (Js.assoc "figureImageId" data)
                     (Js.assoc "sceneImageId" data)
                     (stringOf (Js.assoc "prompt" data))) w)
        as (failure & w1 & Hs & [->|[message ->]]);
        unfold bind at 1; rewrite Hs; simpl; discriminate.
    + simpl. discriminate.
Qed.

(** ** File names *)

Section FileNames.

Lemma append_assoc (a b c : string) : (a +:+ b) +:+ c = a +:+ (b +:+ c).
Proof.
  induction a as [|x a IH]; [reflexivity|].
  change (String x ((a +:+ b) +:+ c) = String x (a +:+ (b +:+ c))).
  rewrite IH. reflexivity.
Qed.

Lemma append_empty (a : string) : a +:+ "" = a.
Proof.
  induction a as [|x a IH]; [reflexivity|].
  change (String x (a +:+ "") = String x a). rewrite IH. reflexivity.
Qed.

Lemma rev_app_append cur : forall acc s,
  String.rev_app cur acc +:+ s = String.rev_app cur (acc +:+ s).
Proof.
  induction cur as [|c cur IH]; intros acc s; cbn [String.rev_app];
    [reflexivity | apply IH].
Qed.

(** A string without the separator is one piece. *)
Lemma split_go_whole sep s : forall cur,
  without sep s = true -> Js.split_go sep cur s = [String.rev cur +:+ s].
Proof.
  induction s as [|c s IH]; intros cur H; simpl.
  - rewrite append_empty. reflexivity.
  - cbn [without] in H. apply andb_prop in H as [Hc Hs].
    apply negb_true_iff in Hc. rewrite Hc, (IH _ Hs).
    unfold String.rev. cbn [String.rev_app]. rewrite !rev_app_append. reflexivity.
Qed.

Lemma split_go_pieces sep s : forall cur, Js.split_go sep cur s <> [].
Proof.
  induction s as [|c s IH]; intros cur; simpl; [discriminate|].
  destruct (Ascii.eqb c sep); [discriminate | apply IH].
Qed.

(** The last piece is what follows the last separator. *)
Lemma split_go_last sep base ext : forall cur,
  without sep ext = true ->
  List.last (Js.split_go sep cur (base +:+ String sep ext)) "" = ext.
Proof.
  induction base as [|c base IH]; intros cur H; simpl.
  - rewrite Ascii.eqb_refl. rewrite (split_go_whole _ _ "" H). reflexivity.
  - destruct (Ascii.eqb c sep).
    + specialize (IH "" H).
      destruct (Js.split_go sep "" (base +:+ String sep ext)) eqn:E.
      * destruct (split_go_pieces _ _ _ E).
      * exact IH.
    + apply IH, H.
Qed.

Lemma extensionOf_kept base ext :
  without "." ext = true -> ext <> "" ->
  extensionOf (base +:+ "." +:+ ext) = ext.
Proof.
  intros H Hne. unfold extensionOf, Js.split.
  change (base +:+ "." +:+ ext) with (base +:+ String "." ext).
  rewrite (split_go_last _ _ _ _ H).
  destruct ext; [contradiction | reflexivity].
Qed.

Lemma extensionOf_whole name :
  without "." name = true ->
  extensionOf name = if String.eqb name "" then "jpg" else name.
Proof.
  intros H. unfold extensionOf, Js.split.
  rewrite (split_go_whole _ _ "" H). reflexivity.
Qed.

Lemma extensionOf_trailing base : extensionOf (base +:+ ".") = "jpg".
Proof.
  unfold extensionOf, Js.split.
  change (base +:+ ".") with (base +:+ String "." "").
  rewrite (split_go_last "." base "" "" eq_refl). reflexivity.
Qed.

End FileNames.

(** X4.  [generateUniqueFilename] names a file by the clock and a random
    string and keeps the extension of the original name: what follows its
    last dot.  A name that ends with a dot, and the empty name, get "jpg"; a
    name without any dot is taken whole as the extension.  The function
    calls nothing. *)
Theorem unique_filename_extension (env : Env) (w : World) :
  (forall base ext,
     without "." ext = true -> ext <> "" ->
     generateUniqueFilename env (base +:+ "." +:+ ext) w
       = (Ret (uniqueName env (now w) ext), w)) /\
  (forall base,
     generateUniqueFilename env (base +:+ ".") w
       = (Ret (uniqueName env (now w) "jpg"), w)) /\
  (forall name,
     without "." name = true ->
     generateUniqueFilename env name w
       = (Ret (uniqueName env (now w) (if String.eqb name "" then "jpg" else name)),
          w)).
Proof.
  unfold generateUniqueFilename, uniqueName, bind, Date_now, ret.
  split; [|split].
  - intros base ext H Hne. rewrite (extensionOf_kept _ _ H Hne). reflexivity.
  - intros base. rewrite extensionOf_trailing. reflexivity.
  - intros name H. rewrite (extensionOf_whole _ H). reflexivity.
Qed.

Lemma unique_filename_extension_witness :
  generateUniqueFilename Scenario.offline ("holiday.2024" +:+ "." +:+ "jpeg")
                         (Scenario.world [])
    = (Ret "1000-k3j9x2m7.jpeg", Scenario.world []) /\
  generateUniqueFilename Scenario.offline "portrait" (Scenario.world [])
    = (Ret "1000-k3j9x2m7.portrait", Scenario.world []).
Proof.
  split.
  - exact (proj1 (unique_filename_extension Scenario.offline (Scenario.world []))
             "holiday.2024" "jpeg" eq_refl ltac:(discriminate)).
  - exact (proj2 (proj2 (unique_filename_extension Scenario.offline (Scenario.world [])))
             "portrait" eq_refl).
Defined.

(** ** A status check that completes the generation *)

Section Completion.

Variable env : Env.

Lemma path_not_empty id name : String.eqb (id +:+ "/" +:+ name) "" = false.
Proof. destruct id; reflexivity. Qed.

(** Download and upload both succeed. *)
Lemma downloadAndStore_ok bucket prefix id url vars w response :
  http env (now w) (Download url) = Ret response ->
  resp_bodyError response = None ->
  storage_upload env (now w + latency env (now w)) bucket
    (outputPath env id (now w + latency env (now w))) = StorageOk tt ->
  exists w2,
    downloadAndStore env bucket prefix id url vars w =
    (Ret (mkVars (newStatus vars) (progress vars)
            (Some (outputPath env id (now w + latency env (now w)))) (error vars)),
     w2) /\
    db w2 = db w /\
    objects w2 =
      {[ (bucket, outputPath env id (now w + latency env (now w))) ]} ∪ objects w.
Proof.
  intros Eh Eb Eu. unfold downloadAndStore.
  set (w1 := record env (EvFetch (Download url) (Ret response)) w).
  assert (extensionOf (prefix +:+ "-" +:+ id +:+ ".png") = "png") as Hx.
  { replace (prefix +:+ "-" +:+ id +:+ ".png")
      with ((prefix +:+ "-" +:+ id) +:+ "." +:+ "png")
      by (rewrite !append_assoc; reflexivity).
    exact (extensionOf_kept (prefix +:+ "-" +:+ id) "png" eq_refl ltac:(discriminate)). }
  eexists. split; [|split].
  - apply try_Ret.
    erewrite bind_Ret by (unfold fetch; rewrite Eh; reflexivity).
    erewrite bind_Ret by (unfold blob, text; rewrite Eb; reflexivity).
    erewrite bind_Ret by reflexivity.
    unfold uploadImage. unfold bind at 1. unfold bind at 1, storageUpload.
    fold w1. rewrite Hx. unfold outputPath, uniqueName in Eu.
    change (now w1) with (now w + latency env (now w))%N.
    rewrite Eu. reflexivity.
  - reflexivity.
  - reflexivity.
Qed.

(** The end of a try-on status check that has stored the output. *)
Lemma TryOn_finish_completed id g vars w p :
  newStatus vars = "completed" ->
  storagePath vars = Some p ->
  String.eqb p "" = false ->
  exists t2 w',
    TryOn.finish env id g vars w =
    (Ret (TryOn.liveReply env id g vars
            (TryOn.lastResort env (Some p) (signedAt env TryOn.bucketName p t2))
            (now w')), w') /\
    db w' = db (snd (persist env id vars w)) /\
    objects w' = objects w.
Proof.
  intros Hs Hp Hne. unfold TryOn.finish.
  rewrite (bind_Ret _ _ _ _ _ (persist_run env id vars w)).
  set (w1 := snd (db_update env id (patchOf env vars (now w)) w)).
  rewrite Hs, Hp. cbn [String.eqb Ascii.eqb Bool.eqb andb].
  rewrite (bind_Ret _ _ _ _ _
             (bind_Ret _ _ _ _ _ (getImageUrl_run env _ _ w1))).
  unfold ret at 1. unfold bind at 1, updateGeneration, ret at 1.
  erewrite bind_Ret
    by (apply TryOn_resolve_signed; simpl; rewrite Hne; reflexivity).
  eexists _, _. split; [reflexivity|]. split; reflexivity.
Qed.

Lemma Composite_finish_completed id g vars w p :
  newStatus vars = "completed" ->
  storagePath vars = Some p ->
  exists t2 w',
    Composite.finish env id g vars w =
    (Ret (Composite.liveReply env id g vars
            (JStr (signedAt env Composite.bucketName p t2)) (now w')), w') /\
    db w' = db (snd (persist env id vars w)) /\
    objects w' = objects w.
Proof.
  intros Hs Hp. unfold Composite.finish.
  rewrite (bind_Ret _ _ _ _ _ (persist_run env id vars w)).
  set (w1 := snd (db_update env id (patchOf env vars (now w)) w)).
  rewrite Hs, Hp.
  erewrite bind_Ret by (apply Composite_resolve_signed; reflexivity).
  unfold bind at 1, updateGeneration, ret at 1.
  erewrite bind_Ret by (apply Composite_resolve_signed; reflexivity).
  eexists _, _. split; [reflexivity|]. split; reflexivity.
Qed.

Lemma liveReply_imageUrl id g vars (imageUrl : JsVal) t :
  Js.isUndefined imageUrl = false ->
  Js.get (reply_body (TryOn.liveReply env id g vars imageUrl t)) "imageUrl" = imageUrl /\
  Js.get (reply_body (Composite.liveReply env id g vars imageUrl t)) "imageUrl"
    = imageUrl.
Proof.
  intros H. unfold TryOn.liveReply, Composite.liveReply, corsNextResponse,
    projection, Js.object. simpl. rewrite H. split; reflexivity.
Qed.

Lemma lastResort_defined path url :
  Js.isUndefined (TryOn.lastResort env path url) = false.
Proof.
  unfold TryOn.lastResort. destruct (String.eqb url ""); [|reflexivity].
  destruct (nonEmpty _); reflexivity.
Qed.

Lemma extracted_is_defined output :
  Js.truthy (TryOn.extractImageUrl output) = true -> Js.isUndefined output = false.
Proof. destruct output; [discriminate|..]; reflexivity. Qed.

End Completion.

Section Completion2.

Lemma TryOn_completionPolicy :
  completionPolicy TryOn.GET TryOn.isFinal checkPredictionStatus
    (isString "succeeded") TryOn.extractImageUrl "try-on-images"
    (fun env path url => TryOn.lastResort env (Some path) url).
Proof.
  intros env id g w ps w1 response r w' Hid Hg Hf Hp Hs Hu Eh Eb Eu HG.
  pose proof (checkPredictionStatus_does env (g_external_id g)
                (record env (EvSelect id) w)) as (Hd1 & Ho1 & _).
  rewrite Hp in Hd1, Ho1. specialize (Hd1 eq_refl). specialize (Ho1 eq_refl).
  simpl in Hd1, Ho1.
  pose proof (TryOn_advance_succeeded env id g ps w1 Hs (extracted_is_defined _ Hu))
    as Ha.
  rewrite Hu in Ha.
  destruct (downloadAndStore_ok env TryOn.bucketName "try-on" id
              (TryOn.extractImageUrl (ps_output ps)) (succeededVars g) w1 response
              Eh Eb Eu) as (w2 & Hds & Hd2 & Ho2).
  rewrite Hds in Ha. cbn [succeededVars newStatus progress error] in Ha.
  set (path := outputPath env id (now w1 + latency env (now w1))) in *.
  set (vars := mkVars "completed" 100 (Some path) (g_error g)) in *.
  destruct (TryOn_finish_completed env id g vars w2 path eq_refl eq_refl
              (path_not_empty id _)) as (t2 & w3 & Hfin & Hd3 & Ho3).
  assert (TryOn.GET env (mkGet (Some id)) w
          = (Ret (TryOn.liveReply env id g vars
                    (TryOn.lastResort env (Some path)
                       (signedAt env TryOn.bucketName path t2)) (now w3)), w3)) as HG'.
  { eapply TryOn_GET_live; eauto. unfold TryOn.liveStatus. apply try_Ret.
    rewrite (bind_Ret _ _ _ _ _ Hp), (bind_Ret _ _ _ _ _ Ha). exact Hfin. }
  rewrite HG' in HG. inversion HG; subst r w'. clear HG.
  destruct (TryOn_liveReply_members env id g vars
              (TryOn.lastResort env (Some path) (signedAt env TryOn.bucketName path t2))
              (now w3)) as (M1 & M2 & _ & M4).
  destruct (liveReply_imageUrl env id g vars
              (TryOn.lastResort env (Some path) (signedAt env TryOn.bucketName path t2))
              (now w3) (lastResort_defined env _ _)) as [M5 _].
  exists (TryOn.liveReply env id g vars
            (TryOn.lastResort env (Some path) (signedAt env TryOn.bucketName path t2))
            (now w3)),
    (applyPatch (patchOf env vars (now w2)) g), t2.
  split; [reflexivity|]. split; [exact M4|]. split; [exact M1|].
  split; [exact M2|]. split; [exact M5|].
  split.
  { rewrite Hd3, (persist_db env id vars w2 g) by (rewrite Hd2, Hd1; exact Hg).
    rewrite Hd2, Hd1. reflexivity. }
  do 4 (split; [reflexivity|]).
  assert (objects w3 = {[ ("try-on-images", path) ]} ∪ objects w) as Ho.
  { rewrite Ho3, Ho2, Ho1. reflexivity. }
  split; [exact Ho|]. split; [|reflexivity].
  unfold holds. rewrite Ho. apply bool_decide_eq_true.
  apply elem_of_union_l, elem_of_singleton_2. reflexivity.
Qed.

Lemma Composite_completionPolicy :
  completionPolicy Composite.GET Composite.isFinal checkJobStatus
    (fun status => isString "completed" status || isString "succeeded" status)
    (fun output => output) "composite-images"
    (fun env path url => JStr url).
Proof.
  intros env id g w ps w1 response r w' Hid Hg Hf Hp Hs Hu Eh Eb Eu HG.
  pose proof (checkJobStatus_does env (g_external_id g)
                (record env (EvSelect id) w)) as (Hd1 & Ho1 & _).
  rewrite Hp in Hd1, Ho1. specialize (Hd1 eq_refl). specialize (Ho1 eq_refl).
  simpl in Hd1, Ho1.
  pose proof (Composite_advance_succeeded env id g ps w1 Hs) as Ha.
  rewrite Hu in Ha.
  destruct (downloadAndStore_ok env Composite.bucketName "composite" id
              (ps_output ps) (succeededVars g) w1 response
              Eh Eb Eu) as (w2 & Hds & Hd2 & Ho2).
  rewrite Hds in Ha. cbn [succeededVars newStatus progress error] in Ha.
  set (path := outputPath env id (now w1 + latency env (now w1))) in *.
  set (vars := mkVars "completed" 100 (Some path) (g_error g)) in *.
  destruct (Composite_finish_completed env id g vars w2 path eq_refl eq_refl)
    as (t2 & w3 & Hfin & Hd3 & Ho3).
  assert (Composite.GET env (mkGet (Some id)) w
          = (Ret (Composite.liveReply env id g vars
                    (JStr (signedAt env Composite.bucketName path t2)) (now w3)), w3))
    as HG'.
  { eapply Composite_GET_live; eauto. unfold Composite.liveStatus. apply try_Ret.
    rewrite (bind_Ret _ _ _ _ _ Hp), (bind_Ret _ _ _ _ _ Ha). exact Hfin. }
  rewrite HG' in HG. inversion HG; subst r w'. clear HG.
  destruct (Composite_liveReply_members env id g vars
              (JStr (signedAt env Composite.bucketName path t2))
              (now w3)) as (M1 & M2 & _ & M4).
  destruct (liveReply_imageUrl env id g vars
              (JStr (signedAt env Composite.bucketName path t2))
              (now w3) eq_refl) as [_ M5].
  exists (Composite.liveReply env id g vars
            (JStr (signedAt env Composite.bucketName path t2)) (now w3)),
    (applyPatch (patchOf env vars (now w2)) g), t2.
  split; [reflexivity|]. split; [exact M4|]. split; [exact M1|].
  split; [exact M2|]. split; [exact M5|].
  split.
  { rewrite Hd3, (persist_db env id vars w2 g) by (rewrite Hd2, Hd1; exact Hg).
    rewrite Hd2, Hd1. reflexivity. }
  do 4 (split; [reflexivity|]).
  assert (objects w3 = {[ ("composite-images", path) ]} ∪ objects w) as Ho.
  { rewrite Ho3, Ho2, Ho1. reflexivity. }
  split; [exact Ho|]. split; [|reflexivity].
  unfold holds. rewrite Ho. apply bool_decide_eq_true.
  apply elem_of_union_l, elem_of_singleton_2. reflexivity.
Qed.

End Completion2.

(** X5.  A status check that finds the job done, fetches the resolved output
    and stores it makes the generation completed: the record gets status
    "completed", progress 100 and the new storage path, which is the id of
    the generation, a slash and a unique file name ending in ".png"; the
    object is in the bucket of the route; and the reply is a 200 with the
    same status and progress and, as image URL, what signing the new path
    gave (the public URL when signing failed).  The generation is then in a
    final state.  For the try-on and for the composite route. *)
Theorem completed_generation :
  completionPolicy TryOn.GET TryOn.isFinal checkPredictionStatus
    (isString "succeeded") TryOn.extractImageUrl "try-on-images"
    (fun env path url => TryOn.lastResort env (Some path) url) /\
  completionPolicy Composite.GET Composite.isFinal checkJobStatus
    (fun status => isString "completed" status || isString "succeeded" status)
    (fun output => output) "composite-images"
    (fun env path url => JStr url) /\
  (forall env id t,
     outputPath env id t =
     id +:+ "/" +:+ pretty t +:+ "-" +:+ String.substring 2 8 (random36 env t)
        +:+ ".png").
Proof.
  split; [exact TryOn_completionPolicy|].
  split; [exact Composite_completionPolicy | reflexivity].
Qed.

Lemma completed_generation_witness :
  exists reply g',
    fst (TryOn.GET Scenario.succeeding (mkGet (Some "g1"))
           (Scenario.world [Scenario.processing "g1" "try-on"])) = Ret reply /\
    Js.get (reply_body reply) "status" = JStr "completed" /\
    db (snd (TryOn.GET Scenario.succeeding (mkGet (Some "g1"))
               (Scenario.world [Scenario.processing "g1" "try-on"])))
    = <["g1" := g']> (db (Scenario.world [Scenario.processing "g1" "try-on"])) /\
    g_storage_path g' = Some (outputPath Scenario.succeeding "g1" 1021) /\
    holds (snd (TryOn.GET Scenario.succeeding (mkGet (Some "g1"))
                  (Scenario.world [Scenario.processing "g1" "try-on"])))
          "try-on-images" (outputPath Scenario.succeeding "g1" 1021) = true.
Proof.
  destruct (proj1 completed_generation Scenario.succeeding "g1"
              (Scenario.processing "g1" "try-on")
              (Scenario.world [Scenario.processing "g1" "try-on"])
              (mkStatus (JStr "succeeded") (JStr "https://cdn/out.png") JNull)
              (snd (checkPredictionStatus Scenario.succeeding (JStr "pred-1")
                      (record Scenario.succeeding (EvSelect "g1")
                         (Scenario.world [Scenario.processing "g1" "try-on"]))))
              (mkResponse true 200 "OK" "" (Throw (ThrownError "Unexpected token")) None)
              _ _
              eq_refl ltac:(by_computation) eq_refl ltac:(by_computation)
              eq_refl eq_refl ltac:(by_computation) eq_refl ltac:(by_computation)
              (surjective_pairing _))
    as (reply & g' & t2 & H1 & _ & H3 & _ & _ & H6 & _ & _ & H9 & _ & _ & H12 & _).
  exists reply, g'. repeat split; assumption.
Defined.

(** ** A job that the provider reports failed *)

Section ProviderFailure.

Lemma TryOn_providerFailurePolicy :
  providerFailurePolicy TryOn.GET TryOn.isFinal checkPredictionStatus
    (isString "succeeded").
Proof.
  intros env id g w ps w1 r w' Hid Hg Hf Hp Hs Hfail HG.
  pose proof (checkPredictionStatus_does env (g_external_id g)
                (record env (EvSelect id) w)) as (_ & Ho1 & _).
  rewrite Hp in Ho1. specialize (Ho1 eq_refl). simpl in Ho1.
  pose proof (TryOn_advance_failed env id g ps w1 Hs Hfail) as Ha.
  set (vars := mkVars "failed" (progressOr0 (g_progress g)) (g_storage_path g)
                 (Js.or (ps_error ps) (JStr "Generation failed"))) in *.
  pose proof (TryOn_GET_advanced env id g w ps w1 vars w1 Hid Hg Hf Hp Ha)
    as (imageUrl & signs & w3 & Hr & Hd & Ho & Ht & _ & Hn).
  rewrite HG in Hr. inversion Hr; subst r w'.
  destruct (Hn eq_refl) as [-> ->].
  destruct (TryOn_liveReply_members env id g vars JUndefined (now w3))
    as (M1 & _ & M3 & M4).
  eexists _, _, _. split; [reflexivity|]. split; [exact M4|].
  split; [exact M1|]. split; [exact M3|]. split; [exact Hd|].
  do 3 (split; [reflexivity|]). split; [rewrite Ho; exact Ho1 | exact Ht].
Qed.

Lemma Composite_providerFailurePolicy :
  providerFailurePolicy Composite.GET Composite.isFinal checkJobStatus
    (fun status => isString "completed" status || isString "succeeded" status).
Proof.
  intros env id g w ps w1 r w' Hid Hg Hf Hp Hs Hfail HG.
  pose proof (checkJobStatus_does env (g_external_id g)
                (record env (EvSelect id) w)) as (_ & Ho1 & _).
  rewrite Hp in Ho1. specialize (Ho1 eq_refl). simpl in Ho1.
  pose proof (Composite_advance_failed env id g ps w1 Hs Hfail) as Ha.
  set (vars := mkVars "failed" (progressOr0 (g_progress g)) (g_storage_path g)
                 (Js.or (ps_error ps) (JStr "Generation failed"))) in *.
  pose proof (Composite_GET_advanced env id g w ps w1 vars w1 Hid Hg Hf Hp Ha)
    as (imageUrl & signs & w3 & Hr & Hd & Ho & Ht & _ & Hn).
  rewrite HG in Hr. inversion Hr; subst r w'.
  destruct (Hn eq_refl) as [-> ->].
  destruct (Composite_liveReply_members env id g vars JUndefined (now w3))
    as (M1 & _ & M3 & M4).
  eexists _, _, _. split; [reflexivity|]. split; [exact M4|].
  split; [exact M1|]. split; [exact M3|]. split; [exact Hd|].
  do 3 (split; [reflexivity|]). split; [rewrite Ho; exact Ho1 | exact Ht].
Qed.

End ProviderFailure.

(** X6.  When the poll of a status check reports the job failed, the
    generation becomes failed with the error the provider gave, or with
    "Generation failed" when it gave none (a missing, null or empty error):
    in the record and in the reply, which is a 200.  Nothing is fetched or
    stored, the stored path stays, and the update of the record is the only
    call after the poll.  For the try-on and for the composite route. *)
Theorem provider_failure_is_recorded :
  providerFailurePolicy TryOn.GET TryOn.isFinal checkPredictionStatus
    (isString "succeeded") /\
  providerFailurePolicy Composite.GET Composite.isFinal checkJobStatus
    (fun status => isString "completed" status || isString "succeeded" status) /\
  (forall message,
     String.eqb message "" = false ->
     Js.or (JStr message) (JStr "Generation failed") = JStr message) /\
  Js.or JUndefined (JStr "Generation failed") = JStr "Generation failed" /\
  Js.or JNull (JStr "Generation failed") = JStr "Generation failed" /\
  Js.or (JStr "") (JStr "Generation failed") = JStr "Generation failed".
Proof.
  split; [exact TryOn_providerFailurePolicy|].
  split; [exact Composite_providerFailurePolicy|].
  split; [|repeat split].
  intros message H. unfold Js.or. simpl. rewrite H. reflexivity.
Qed.

Lemma provider_failure_is_recorded_witness :
  exists reply g',
    fst (Composite.GET
           (Scenario.deployment
              (Scenario.reports "failed" JNull (JStr "face not detected")))
           (mkGet (Some "g2"))
           (Scenario.world [Scenario.processing "g2" "composite"])) = Ret reply /\
    Js.get (reply_body reply) "error" = JStr "face not detected" /\
    db (snd (Composite.GET
               (Scenario.deployment
                  (Scenario.reports "failed" JNull (JStr "face not detected")))
               (mkGet (Some "g2"))
               (Scenario.world [Scenario.processing "g2" "composite"])))
    = <["g2" := g']> (db (Scenario.world [Scenario.processing "g2" "composite"])) /\
    g_status g' = "failed".
Proof.
  destruct (proj1 (proj2 provider_failure_is_recorded)
              (Scenario.deployment
                 (Scenario.reports "failed" JNull (JStr "face not detected")))
              "g2" (Scenario.processing "g2" "composite")
              (Scenario.world [Scenario.processing "g2" "composite"])
              (mkStatus (JStr "failed") JNull (JStr "face not detected"))
              (snd (checkJobStatus
                      (Scenario.deployment
                         (Scenario.reports "failed" JNull (JStr "face not detected")))
                      (JStr "pred-1")
                      (record
                         (Scenario.deployment
                            (Scenario.reports "failed" JNull (JStr "face not detected")))
                         (EvSelect "g2")
                         (Scenario.world [Scenario.processing "g2" "composite"]))))
              _ _
              eq_refl ltac:(by_computation) eq_refl ltac:(by_computation)
              eq_refl eq_refl (surjective_pairing _))
    as (reply & g' & patch & H1 & _ & _ & H4 & H5 & H6 & _).
  exists reply, g'. repeat split; assumption.
Defined.

(** ** The combiner without its key *)

(** X7.  Without the key of the combiner API (missing or empty) neither
    [generateComposite] nor [checkJobStatus] calls anything: both throw the
    error that names the missing variable and leave the world as it is.  A
    create request that passed validation is then answered with status 500
    and that message, with no record written, and a status check of a
    generation that is not final with status 500 and that message, its
    record unchanged. *)
Theorem combiner_needs_its_key (env : Env) (w : World) :
  hasKey env = false ->
  (forall figureImage sceneImage prompt useSupabaseUrls,
     generateComposite env figureImage sceneImage prompt useSupabaseUrls w
       = (Throw (ThrownError missingKey), w)) /\
  (forall jobId, checkJobStatus env jobId w = (Throw (ThrownError missingKey), w)) /\
  (forall user fields prompt,
     validComposite fields = Some prompt ->
     Composite.POST env (mkPost (Ret (JObj fields)) user) w
       = (Ret (Composite.submitError missingKey), w) /\
     reply_status (Composite.submitError missingKey) = 500) /\
  (forall id g,
     nonEmpty (Some id) = Some id ->
     db w !! id = Some g ->
     Composite.isFinal (g_status g) = false ->
     Composite.GET env (mkGet (Some id)) w
       = (Ret (statusError missingKey), record env (EvSelect id) w) /\
     reply_status (statusError missingKey) = 500).
Proof.
  intros Hk.
  assert (forall a b c u w0,
            generateComposite env a b c u w0 = (Throw (ThrownError missingKey), w0))
    as Hg.
  { intros a b c u w0. unfold generateComposite, prepareSources.
    rewrite Hk. reflexivity. }
  assert (forall jobId w0,
            checkJobStatus env jobId w0 = (Throw (ThrownError missingKey), w0)) as Hc.
  { intros jobId w0. unfold checkJobStatus. rewrite Hk. reflexivity. }
  split; [intros; apply Hg|]. split; [intros; apply Hc|]. split.
  - intros user fields prompt Hv. split; [|reflexivity].
    exact (Composite_POST_submitted env user fields prompt w _ w Hv
             (Composite_submit_throws env _ _ _ _ _ _ w _ w (Hg _ _ _ _ _))).
  - intros id g Hid Hdb Hf. split; [|reflexivity].
    apply (Composite_GET_live env id g w _ _ Hid Hdb Hf).
    exact (Composite_live_poll_throws env id g _ _ _ (Hc _ _)).
Qed.

Lemma combiner_needs_its_key_witness :
  generateComposite (withoutKey Scenario.succeeding) Scenario.figure Scenario.scene
    "Standing in a park at noon" true (Scenario.world [])
  = (Throw (ThrownError missingKey), Scenario.world []).
Proof.
  exact (proj1 (combiner_needs_its_key (withoutKey Scenario.succeeding)
                  (Scenario.world []) eq_refl)
           Scenario.figure Scenario.scene "Standing in a park at noon" true).
Defined.

(** ** Temporary images that stay behind *)

Section PartialUpload.

Variable env : Env.

Lemma base64ToFile_world s w : snd (base64ToFile env s w) = w.
Proof. reflexivity. Qed.

Lemma base64ToFile_Ret s w :
  fst (base64ToFile env s w) = Ret tt -> base64ToFile env s w = (Ret tt, w).
Proof.
  intros H. rewrite (surjective_pairing (base64ToFile env s w)), H. reflexivity.
Qed.

Lemma uploadImage_stored bucket path w :
  storage_upload env (now w) bucket path = StorageOk tt ->
  uploadImage env bucket path w =
  (Ret None,
   {| db := db w; objects := {[ (bucket, path) ]} ∪ objects w;
      now := (now w + latency env (now w))%N;
      trace := (trace w ++ [EvUpload bucket path (StorageOk tt)])%list |}).
Proof.
  intros H. unfold uploadImage. unfold bind at 1, storageUpload.
  rewrite H. reflexivity.
Qed.

Lemma uploadImage_failed bucket path w m :
  uploadErrorOf bucket (storage_upload env (now w) bucket path) = Some m ->
  exists diag w',
    uploadImage env bucket path w = (Ret (Some m), w') /\
    db w' = db w /\ objects w' = objects w /\
    trace w' =
      (trace w ++ EvUpload bucket path (storage_upload env (now w) bucket path)
                  :: diag)%list /\
    (diag = [] \/ diag = [EvListBuckets]).
Proof.
  unfold uploadImage, uploadErrorOf. unfold bind at 1, storageUpload.
  destruct (storage_upload env (now w) bucket path) as [u|message|t];
    [discriminate| |].
  - destruct (bucketMissing message); intros H; inversion H; subst.
    + eexists [EvListBuckets], _. split; [reflexivity|]. simpl.
      rewrite <- app_assoc. auto.
    + eexists [], _. split; [reflexivity|]. simpl. auto.
  - intros H. inversion H; subst.
    eexists [], _. split; [reflexivity|]. simpl. auto.
Qed.

End PartialUpload.

(** X8.  When the model image has been uploaded and the upload of the scene
    image fails, [generateComposite] throws "Failed to upload scene image: "
    with the message of the upload error, and the temporary model image
    stays in the store: the paths are recorded only once both uploads have
    succeeded, so the clean-up of the [catch] clause has nothing to remove.
    The calls are the two uploads, and the listing of the buckets when the
    error points at the bucket; the provider is not called. *)
Theorem partial_upload_is_left_behind (env : Env)
  (figureImage sceneImage prompt : string) (w : World) (m : string) :
  hasKey env = true ->
  (Js.startsWith "data:" figureImage || Js.startsWith "data:" sceneImage)%bool = true ->
  fst (base64ToFile env figureImage w) = Ret tt ->
  fst (base64ToFile env sceneImage w) = Ret tt ->
  storage_upload env (now w) "temp-bucket" (tempModelPath env w) = StorageOk tt ->
  uploadErrorOf "temp-bucket"
    (storage_upload env (now w + latency env (now w)) "temp-bucket"
       (tempScenePath env w)) = Some m ->
  fst (generateComposite env figureImage sceneImage prompt true w)
    = Throw (ThrownError ("Failed to upload scene image: " +:+ m)) /\
  holds (snd (generateComposite env figureImage sceneImage prompt true w))
        "temp-bucket" (tempModelPath env w) = true /\
  exists diag,
    trace (snd (generateComposite env figureImage sceneImage prompt true w)) =
    (trace w ++
     EvUpload "temp-bucket" (tempModelPath env w) (StorageOk tt) ::
     EvUpload "temp-bucket" (tempScenePath env w)
       (storage_upload env (now w + latency env (now w)) "temp-bucket"
          (tempScenePath env w)) :: diag)%list /\
    (diag = [] \/ diag = [EvListBuckets]).
Proof.
  intros Hk Hd Hf Hs Hu1 Hu2.
  apply base64ToFile_Ret in Hf. apply base64ToFile_Ret in Hs.
  set (w1 := {| db := db w;
                objects := {[ ("temp-bucket", tempModelPath env w) ]} ∪ objects w;
                now := (now w + latency env (now w))%N;
                trace := (trace w ++ [EvUpload "temp-bucket" (tempModelPath env w)
                                        (StorageOk tt)])%list |}).
  destruct (uploadImage_failed env "temp-bucket" (tempScenePath env w) w1 m Hu2)
    as (diag & w2 & Hup2 & _ & Ho2 & Ht2 & Hdiag).
  assert (generateComposite env figureImage sceneImage prompt true w
          = (Throw (ThrownError ("Failed to upload scene image: " +:+ m)), w2)) as HG.
  { unfold generateComposite.
    apply bind_Throw. unfold cleanupIfAny.
    erewrite try_Throw; [reflexivity|].
    unfold prepareSources. rewrite Hk. cbn [negb andb]. rewrite Hd.
    unfold uploadImagesToSupabase. unfold bind at 1, Date_now.
    rewrite try_rethrow.
    rewrite (bind_Ret _ _ _ _ _ Hf), (bind_Ret _ _ _ _ _ Hs).
    fold (tempModelPath env w). fold (tempScenePath env w).
    rewrite (bind_Ret _ _ _ _ _ (uploadImage_stored env _ _ w Hu1)).
    fold w1. rewrite (bind_Ret _ _ _ _ _ Hup2). reflexivity. }
  rewrite HG. cbn [fst snd].
  split; [reflexivity|]. split.
  - unfold holds. rewrite Ho2. apply bool_decide_eq_true.
    apply elem_of_union_l, elem_of_singleton_2. reflexivity.
  - exists diag. split; [|exact Hdiag].
    rewrite Ht2. unfold w1. cbn [trace now]. rewrite <- app_assoc. reflexivity.
Qed.

Lemma partial_upload_is_left_behind_witness :
  fst (generateComposite
         (withUploadsFrom 1005 (StorageError "Quota exceeded") Scenario.succeeding)
         Scenario.figure Scenario.scene "Standing in a park at noon" true
         (Scenario.world []))
  = Throw (ThrownError "Failed to upload scene image: Quota exceeded") /\
  holds (snd (generateComposite
                (withUploadsFrom 1005 (StorageError "Quota exceeded")
                   Scenario.succeeding)
                Scenario.figure Scenario.scene "Standing in a park at noon" true
                (Scenario.world [])))
        "temp-bucket"
        (tempModelPath
           (withUploadsFrom 1005 (StorageError "Quota exceeded") Scenario.succeeding)
           (Scenario.world [])) = true.
Proof.
  destruct (partial_upload_is_left_behind
              (withUploadsFrom 1005 (StorageError "Quota exceeded") Scenario.succeeding)
              Scenario.figure Scenario.scene "Standing in a park at noon"
              (Scenario.world []) "Quota exceeded"
              eq_refl eq_refl eq_refl eq_refl eq_refl eq_refl) as (H1 & H2 & _).
  split; assumption.
Defined.

(** ** The budget of the polling loop *)

Section Budget.

Variable env : Env.

(** A turn of the loop makes one request, the poll. *)
Lemma pollOnce_trace id w :
  trace (snd (pollOnce env id w)) =
  (trace w ++ [EvFetch (CombinerGet id) (http env (now w) (CombinerGet id))])%list.
Proof.
  unfold pollOnce. rewrite try_rethrow.
  unfold bind at 1, fetch.
  destruct (http env (now w) (CombinerGet id)) as [r|t]; [|reflexivity].
  match goal with
  | |- trace (snd (?k ?w1)) = _ =>
      assert (respects (only (fun _ => false) true true) k) as Hk
  end.
  { frame. }
  rewrite (only_nothing _ _ _ _ (Hk _)). reflexivity.
Qed.

(** With the time that is left covered by [n] intervals, the loop makes at
    most [n] requests, whatever the number of turns it is given. *)
Lemma pollLoop_count start id m :
  forall n w,
    (start <= now w)%N ->
    (MAX_TIMEOUT <= now w - start + N.of_nat n * POLL_INTERVAL)%N ->
    exists evs,
      trace (snd (pollLoop env m start id w)) = (trace w ++ evs)%list /\
      (length evs <= n)%nat /\
      Forall (isPollOf id) evs.
Proof.
  induction m as [|m IH]; intros n w Hs Ht.
  - exists []. simpl. rewrite app_nil_r. repeat split; [lia | constructor].
  - simpl. unfold bind at 1, Date_now.
    destruct (N.ltb_spec (now w - start) MAX_TIMEOUT) as [Hc|Hc].
    + assert (1 <= n)%nat as Hn.
      { destruct n; [|lia]. simpl in Ht. lia. }
      unfold bind.
      pose proof (pollOnce_trace id w) as Hp.
      destruct (pollOnce env id w) as [[[output|]|t] w1] eqn:Ep; simpl in Hp.
      * eexists [_]. split; [exact Hp|]. split; [exact Hn|].
        repeat constructor. eexists. reflexivity.
      * apply pollOnce_None in Ep. unfold POLL_INTERVAL in *.
        destruct (IH (n - 1)%nat w1) as (evs & He & Hl & Hf); [lia | lia |].
        eexists (_ :: evs). split; [|split].
        -- rewrite He, Hp, <- app_assoc. reflexivity.
        -- simpl. lia.
        -- constructor; [eexists; reflexivity | exact Hf].
      * eexists [_]. split; [exact Hp|]. split; [exact Hn|].
        repeat constructor. eexists. reflexivity.
    + exists []. simpl. rewrite app_nil_r. repeat split; [lia | constructor].
Qed.

End Budget.

(** X9.  [pollForResults] asks the provider at most 300 times, each time for
    the prediction it was given, and does nothing else: record store and
    stored objects are what they were.  When it returns an output, one of
    its polls was answered with the status "succeeded". *)
Theorem polling_budget (env : Env) (predictionId : JsVal) (w : World) :
  exists polls,
    trace (snd (pollForResults env predictionId w)) = (trace w ++ polls)%list /\
    (length polls <= 300)%nat /\
    Forall (isPollOf predictionId) polls /\
    db (snd (pollForResults env predictionId w)) = db w /\
    objects (snd (pollForResults env predictionId w)) = objects w /\
    (forall output,
       fst (pollForResults env predictionId w) = Ret output ->
       exists e, succeededPoll predictionId e /\ In e polls).
Proof.
  pose proof (pollForResults_does env predictionId w) as (Hd & Ho & _).
  unfold pollForResults in *. unfold bind, Date_now in *.
  destruct (pollLoop_count env (now w) predictionId pollTurns 300%nat w)
    as (polls & Ht & Hl & Hf).
  - lia.
  - unfold MAX_TIMEOUT, POLL_INTERVAL. lia.
  - exists polls. split; [exact Ht|]. split; [exact Hl|]. split; [exact Hf|].
    split; [exact (Hd eq_refl)|]. split; [exact (Ho eq_refl)|].
    intros output Hr.
    destruct (pollLoop env pollTurns (now w) predictionId w) as [r w1] eqn:E.
    simpl in Hr. subst r.
    destruct (pollLoop_Ret env _ _ _ _ _ _ E) as (e & He & Hi).
    exists e. split; [exact He|].
    simpl in Ht. rewrite (newEvents_app _ _ _ Ht) in Hi. exact Hi.
Qed.

(** ** What the combiner is sent *)

Section Sources.

Variable env : Env.

(** The first call of the provider part is the creation of the prediction
    with the sources it was given. *)
Lemma createAndPoll_first a b c w :
  exists rest,
    trace (snd (createAndPoll env a b c w)) =
    (trace w ++ EvFetch (CombinerCreate a b c) (http env (now w) (CombinerCreate a b c))
             :: rest)%list /\
    forallb isProviderCall rest = true.
Proof.
  unfold createAndPoll. unfold bind at 1, fetch.
  destruct (http env (now w) (CombinerCreate a b c)) as [r|t].
  - match goal with
    | |- context [trace (snd (?k ?w1))] =>
        assert (respects (only isProviderCall true true) k) as Hk
    end.
    { frame. apply pollForResults_does. }
    destruct (Hk (record env (EvFetch (CombinerCreate a b c) (Ret r)) w))
      as (_ & _ & rest & Ht & Hr).
    exists rest. split; [|exact Hr].
    rewrite Ht. simpl. rewrite <- app_assoc. reflexivity.
  - exists []. split; reflexivity.
Qed.

(** The URLs that [uploadImagesToSupabase] hands back are what
    [getImageUrl] gave for the two temporary paths. *)
Lemma uploadImagesToSupabase_urls a b w modelUrl sceneUrl paths w1 :
  uploadImagesToSupabase env a b w = (Ret (modelUrl, sceneUrl, paths), w1) ->
  exists t1 t2,
    modelUrl = signedAt env "temp-bucket" (tempModelPath env w) t1 /\
    sceneUrl = signedAt env "temp-bucket" (tempScenePath env w) t2.
Proof.
  unfold uploadImagesToSupabase. unfold bind at 1, Date_now.
  rewrite try_rethrow. intros H.
  apply bind_Ret_inv in H as (x1 & w2 & _ & H).
  apply bind_Ret_inv in H as (x2 & w3 & _ & H).
  apply bind_Ret_inv in H as (modelUpload & w4 & _ & H).
  apply bind_Ret_inv in H as (sceneUpload & w5 & _ & H).
  destruct modelUpload as [m|]; [discriminate|].
  destruct sceneUpload as [m|]; [discriminate|].
  apply bind_Ret_inv in H as (mu & w6 & Hu1 & H).
  apply bind_Ret_inv in H as (su & w7 & Hu2 & H).
  rewrite getImageUrl_run in Hu1, Hu2.
  inversion Hu1; subst. inversion Hu2; subst. inversion H; subst.
  eexists _, _. split; reflexivity.
Qed.

End Sources.

(** X10.  What [generateComposite] submits.  Sources that are not inline
    data (or with the upload switched off) go to the provider as they are,
    and the artifact store is not touched: every call is a provider call.
    Inline sources that were uploaded are replaced: the creation request
    carries what [getImageUrl] gave for the two temporary paths, not the
    data.  The creation request is the first call after the sources are
    prepared. *)
Theorem combiner_sources (env : Env) (figureImage sceneImage prompt : string)
  (useSupabaseUrls : bool) (w : World) :
  hasKey env = true ->
  ((useSupabaseUrls &&
    (Js.startsWith "data:" figureImage || Js.startsWith "data:" sceneImage))%bool
     = false ->
   exists rest,
     trace (snd (generateComposite env figureImage sceneImage prompt
                   useSupabaseUrls w)) =
     (trace w ++
      EvFetch (CombinerCreate figureImage sceneImage prompt)
        (http env (now w) (CombinerCreate figureImage sceneImage prompt))
      :: rest)%list /\
     forallb isProviderCall rest = true /\
     objects (snd (generateComposite env figureImage sceneImage prompt
                     useSupabaseUrls w)) = objects w) /\
  (forall figureUrl sceneUrl paths w1,
     (useSupabaseUrls &&
      (Js.startsWith "data:" figureImage || Js.startsWith "data:" sceneImage))%bool
       = true ->
     prepareSources env figureImage sceneImage useSupabaseUrls w
       = (Ret (figureUrl, sceneUrl, paths), w1) ->
     (exists t1 t2,
        figureUrl = signedAt env "temp-bucket" (tempModelPath env w) t1 /\
        sceneUrl = signedAt env "temp-bucket" (tempScenePath env w) t2) /\
     exists rest,
       trace (snd (generateComposite env figureImage sceneImage prompt
                     useSupabaseUrls w)) =
       (trace w1 ++
        EvFetch (CombinerCreate figureUrl sceneUrl prompt)
          (http env (now w1) (CombinerCreate figureUrl sceneUrl prompt))
        :: rest)%list).
Proof.
  intros Hk. split.
  - intros Hc.
    assert (prepareSources env figureImage sceneImage useSupabaseUrls w
            = (Ret (figureImage, sceneImage, mkPaths None None), w)) as Hp.
    { unfold prepareSources. rewrite Hk, Hc. reflexivity. }
    destruct (generateComposite_ends env figureImage sceneImage prompt useSupabaseUrls
                w _ _ _ w Hp (ex_intro _ _ eq_refl)) as [Hw _].
    rewrite Hw. cbn [cleanupIfAny keyCount modelPath scenePath option_list length
                     Nat.add Nat.ltb Nat.leb ret snd].
    destruct (createAndPoll_first env figureImage sceneImage prompt w)
      as (rest & Ht & Hr).
    exists rest. split; [exact Ht|]. split; [exact Hr|].
    pose proof (createAndPoll_does env figureImage sceneImage prompt w) as (_ & Ho & _).
    exact (Ho eq_refl).
  - intros figureUrl sceneUrl paths w1 Hc Hp.
    pose proof (prepareSources_Ret env _ _ _ _ _ _ _ _ Hc Hp) as Hup.
    split; [exact (uploadImagesToSupabase_urls env _ _ _ _ _ _ _ Hup)|].
    destruct (uploadImagesToSupabase_Ret env _ _ _ _ _ _ _ Hup) as (-> & _ & _).
    destruct (cleanupTempImages_run env (tempModelPath env w) (tempScenePath env w)
                (snd (createAndPoll env figureUrl sceneUrl prompt w1))
                eq_refl eq_refl) as (w3 & Hcl & _ & Ht3 & _).
    destruct (generateComposite_ends env figureImage sceneImage prompt useSupabaseUrls
                w _ _ _ w1 Hp (ex_intro _ w3 Hcl)) as [Hw _].
    rewrite Hw, Hcl. cbn [snd].
    destruct (createAndPoll_first env figureUrl sceneUrl prompt w1)
      as (rest & Ht & _).
    eexists. rewrite Ht3, Ht, <- app_assoc. reflexivity.
Qed.

Lemma combiner_sources_witness :
  exists rest,
    trace (snd (generateComposite Scenario.succeeding
                  "https://cdn/figure.png" "https://cdn/scene.png"
                  "Standing in a park at noon" true (Scenario.world []))) =
    (trace (Scenario.world []) ++
     EvFetch (CombinerCreate "https://cdn/figure.png" "https://cdn/scene.png"
                "Standing in a park at noon")
       (http Scenario.succeeding (now (Scenario.world []))
          (CombinerCreate "https://cdn/figure.png" "https://cdn/scene.png"
             "Standing in a park at noon"))
     :: rest)%list /\
    forallb isProviderCall rest = true.
Proof.
  destruct (proj1 (combiner_sources Scenario.succeeding
                     "https://cdn/figure.png" "https://cdn/scene.png"
                     "Standing in a park at noon" true (Scenario.world []) eq_refl)
              eq_refl) as (rest & H1 & H2 & _).
  exists rest. split; assumption.
Defined.

(** ** Checks of image files *)

(** X11.  [validateImageDimensions] accepts exactly the sizes within the
    bounds, the bounds included, and a size that is too small in one
    direction is reported as too small even when it is too large in the
    other.  [validateImageFileSize] accepts exactly the sizes up to the
    limit in megabytes times 1048576 bytes, the limit included.  Both give
    an error exactly when they reject. *)
Theorem image_limits :
  (forall width height minWidth minHeight maxWidth maxHeight,
     ImageProcessing.valid
       (ImageProcessing.validateImageDimensions width height minWidth minHeight
          maxWidth maxHeight) = true <->
     minWidth <= width <= maxWidth /\ minHeight <= height <= maxHeight) /\
  (forall width height minWidth minHeight maxWidth maxHeight,
     width < minWidth \/ height < minHeight ->
     ImageProcessing.validateImageDimensions width height minWidth minHeight
       maxWidth maxHeight
     = ImageProcessing.mkVerdict false
         (Some ("Image dimensions too small. Minimum size is " +:+ pretty minWidth +:+
                "x" +:+ pretty minHeight +:+ " pixels."))) /\
  (forall fileSize maxSizeInMB,
     ImageProcessing.valid (ImageProcessing.validateImageFileSize fileSize maxSizeInMB)
       = true <->
     fileSize <= maxSizeInMB * 1048576) /\
  (forall width height minWidth minHeight maxWidth maxHeight,
     ImageProcessing.error
       (ImageProcessing.validateImageDimensions width height minWidth minHeight
          maxWidth maxHeight) = None <->
     ImageProcessing.valid
       (ImageProcessing.validateImageDimensions width height minWidth minHeight
          maxWidth maxHeight) = true) /\
  (forall fileSize maxSizeInMB,
     ImageProcessing.error (ImageProcessing.validateImageFileSize fileSize maxSizeInMB)
       = None <->
     ImageProcessing.valid (ImageProcessing.validateImageFileSize fileSize maxSizeInMB)
       = true).
Proof.
  unfold ImageProcessing.validateImageDimensions, ImageProcessing.validateImageFileSize.
  split; [|split; [|split; [|split]]].
  - intros w h a b c d.
    destruct (Z.ltb_spec w a), (Z.ltb_spec h b); simpl;
      try (split; [discriminate | lia]).
    destruct (Z.gtb_spec w c), (Z.gtb_spec h d); simpl;
      split; try discriminate; try lia; reflexivity.
  - intros w h a b c d H.
    destruct (Z.ltb_spec w a), (Z.ltb_spec h b); simpl; try reflexivity; lia.
  - intros s m. destruct (Z.gtb_spec s (m * 1024 * 1024)); simpl;
      split; try discriminate; try lia; reflexivity.
  - intros w h a b c d.
    destruct ((w <? a) || (h <? b))%bool; simpl; [split; discriminate|].
    destruct ((w >? c) || (h >? d))%bool; simpl; split; try discriminate; reflexivity.
  - intros s m. destruct (s >? m * 1024 * 1024); simpl;
      split; try discriminate; reflexivity.
Qed.

Section ImageChecks.

Import ImageProcessing.

Lemma fileSize_valid s m :
  valid (validateImageFileSize s m) = true <-> s <= m * 1048576.
Proof.
  unfold validateImageFileSize.
  destruct (Z.gtb_spec s (m * 1024 * 1024)); simpl;
    split; try discriminate; try lia; reflexivity.
Qed.

Lemma dimensions_valid w h a b c d :
  valid (validateImageDimensions w h a b c d) = true <->
  a <= w <= c /\ b <= h <= d.
Proof.
  unfold validateImageDimensions.
  destruct (Z.ltb_spec w a), (Z.ltb_spec h b); simpl;
    try (split; [discriminate | lia]).
  destruct (Z.gtb_spec w c), (Z.gtb_spec h d); simpl;
    split; try discriminate; try lia; reflexivity.
Qed.

Lemma validateImageForAI_valid file options :
  valid (validateImageForAI file options) = true <->
  includes (file_type file) (allowedTypes options) = true /\
  file_size file <= maxSizeInMB options * 1048576 /\
  exists width height,
    file_image file = Some (width, height) /\
    minWidth options <= width <= maxWidth options /\
    minHeight options <= height <= maxHeight options.
Proof.
  unfold validateImageForAI, getImageDimensions.
  destruct (includes (file_type file) (allowedTypes options)); simpl;
    [|split; [discriminate | intros [H _]; discriminate]].
  pose proof (fileSize_valid (file_size file) (maxSizeInMB options)) as Hs.
  destruct (valid (validateImageFileSize (file_size file) (maxSizeInMB options)))
    eqn:Es; simpl.
  - destruct (file_image file) as [[w h]|]; simpl.
    + pose proof (dimensions_valid w h (minWidth options) (minHeight options)
                    (maxWidth options) (maxHeight options)) as Hd.
      destruct (valid (validateImageDimensions w h _ _ _ _)) eqn:Ed; simpl.
      * split; [|reflexivity]. intros _. split; [reflexivity|].
        split; [apply Hs; reflexivity|]. exists w, h.
        split; [reflexivity | apply Hd; reflexivity].
      * rewrite Ed. split; [discriminate|].
        intros (_ & _ & w' & h' & Hi & Hb). inversion Hi; subst.
        apply Hd in Hb. discriminate.
    + split; [discriminate|]. intros (_ & _ & w' & h' & Hi & _). discriminate.
  - rewrite Es. split; [discriminate|]. intros (_ & H & _).
    apply Hs in H. discriminate.
Qed.

End ImageChecks.

(** X12.  [validateImageForAI] accepts a file exactly when its type is one
    of the allowed types, its size is within the limit, it loads as an
    image and its dimensions are within the bounds.  The checks run in that
    order and the first that fails gives the error: a file of a type that
    is not allowed is rejected for its type whatever its size, and a file
    that is too large is not loaded.  A file that does not load is rejected
    with "Failed to validate image dimensions"; the function never
    rejects its promise. *)
Theorem image_for_ai (file : ImageProcessing.File) (options : ImageProcessing.Options) :
  (ImageProcessing.valid (ImageProcessing.validateImageForAI file options) = true <->
   ImageProcessing.includes (ImageProcessing.file_type file)
     (ImageProcessing.allowedTypes options) = true /\
   ImageProcessing.file_size file <= ImageProcessing.maxSizeInMB options * 1048576 /\
   exists width height,
     ImageProcessing.file_image file = Some (width, height) /\
     ImageProcessing.minWidth options <= width <= ImageProcessing.maxWidth options /\
     ImageProcessing.minHeight options <= height <= ImageProcessing.maxHeight options) /\
  (ImageProcessing.includes (ImageProcessing.file_type file)
     (ImageProcessing.allowedTypes options) = false ->
   ImageProcessing.validateImageForAI file options =
   ImageProcessing.mkVerdict false
     (Some ("Invalid file type. Allowed types: " +:+
            Js.join ", " (ImageProcessing.allowedTypes options)))) /\
  (ImageProcessing.includes (ImageProcessing.file_type file)
     (ImageProcessing.allowedTypes options) = true ->
   ImageProcessing.maxSizeInMB options * 1048576 < ImageProcessing.file_size file ->
   ImageProcessing.validateImageForAI file options =
   ImageProcessing.validateImageFileSize (ImageProcessing.file_size file)
     (ImageProcessing.maxSizeInMB options)) /\
  (ImageProcessing.includes (ImageProcessing.file_type file)
     (ImageProcessing.allowedTypes options) = true ->
   ImageProcessing.file_size file <= ImageProcessing.maxSizeInMB options * 1048576 ->
   ImageProcessing.file_image file = None ->
   ImageProcessing.validateImageForAI file options =
   ImageProcessing.mkVerdict false (Some "Failed to validate image dimensions")).
Proof.
  split; [apply validateImageForAI_valid|].
  unfold ImageProcessing.validateImageForAI, ImageProcessing.getImageDimensions.
  split; [|split].
  - intros ->. reflexivity.
  - intros -> H. simpl.
    destruct (ImageProcessing.valid _) eqn:E; [|reflexivity].
    apply fileSize_valid in E. lia.
  - intros -> H Hi. simpl.
    apply fileSize_valid in H. rewrite H, Hi. reflexivity.
Qed.

Lemma image_for_ai_witness :
  ImageProcessing.validateImageForAI
    (ImageProcessing.mkFile "scan.gif" "image/gif" 2048 0 (Some (800, 600)))
    ImageProcessing.defaultOptions
  = ImageProcessing.mkVerdict false
      (Some "Invalid file type. Allowed types: image/jpeg, image/png, image/svg+xml").
Proof.
  exact (proj1 (proj2 (image_for_ai
                         (ImageProcessing.mkFile "scan.gif" "image/gif" 2048 0
                            (Some (800, 600)))
                         ImageProcessing.defaultOptions)) eq_refl).
Defined.

(** X13.  [validateImageFile] returns [true] exactly for a file of one of
    its five types whose size is at most 10485760 bytes, the limit included;
    otherwise it throws, for the type first; it never returns [false].
    Every file that [validateImageForAI] accepts with its default options
    passes [validateImageFile], and not the other way round: a WebP image
    passes [validateImageFile] and is rejected by [validateImageForAI]. *)
Theorem image_file_check :
  (forall file,
     ImageUtils.validateImageFile file = Ret true <->
     ImageProcessing.includes (ImageProcessing.file_type file)
       ["image/jpeg"; "image/png"; "image/svg+xml"; "image/webp"; "image/gif"] = true /\
     ImageProcessing.file_size file <= 10485760) /\
  (forall file, ImageUtils.validateImageFile file <> Ret false) /\
  (forall file,
     ImageProcessing.includes (ImageProcessing.file_type file)
       ["image/jpeg"; "image/png"; "image/svg+xml"; "image/webp"; "image/gif"] = false ->
     ImageUtils.validateImageFile file
       = Throw (ThrownError "File must be an image (JPEG, PNG, SVG, WEBP, or GIF)")) /\
  (forall file,
     ImageProcessing.valid
       (ImageProcessing.validateImageForAI file ImageProcessing.defaultOptions) = true ->
     ImageUtils.validateImageFile file = Ret true) /\
  (forall name size lastModified width height,
     size <= 10485760 ->
     ImageUtils.validateImageFile
       (ImageProcessing.mkFile name "image/webp" size lastModified
          (Some (width, height))) = Ret true /\
     ImageProcessing.valid
       (ImageProcessing.validateImageForAI
          (ImageProcessing.mkFile name "image/webp" size lastModified
             (Some (width, height)))
          ImageProcessing.defaultOptions) = false).
Proof.
  assert (forall file,
     ImageUtils.validateImageFile file = Ret true <->
     ImageProcessing.includes (ImageProcessing.file_type file)
       ["image/jpeg"; "image/png"; "image/svg+xml"; "image/webp"; "image/gif"] = true /\
     ImageProcessing.file_size file <= 10485760) as Hfile.
  { intros file. unfold ImageUtils.validateImageFile.
    destruct (ImageProcessing.includes _ _); cbn [negb];
      [|split; [discriminate | intros [H _]; discriminate]].
    change (10 * 1024 * 1024) with 10485760.
    destruct (Z.gtb_spec (ImageProcessing.file_size file) 10485760).
    - split; [discriminate|]. intros [_ H']. lia.
    - split; [|reflexivity]. intros _. split; [reflexivity | lia]. }
  split; [exact Hfile|]. split; [|split; [|split]].
  - intros file. unfold ImageUtils.validateImageFile.
    destruct (negb _); [discriminate|].
    destruct (_ >? _); discriminate.
  - intros file H. unfold ImageUtils.validateImageFile. rewrite H. reflexivity.
  - intros file H. apply validateImageForAI_valid in H as (Ht & Hs & _).
    apply Hfile. split; [|exact Hs].
    unfold ImageProcessing.includes in *. simpl in *.
    destruct (String.eqb (ImageProcessing.file_type file) "image/jpeg"); [reflexivity|].
    destruct (String.eqb (ImageProcessing.file_type file) "image/png"); [reflexivity|].
    destruct (String.eqb (ImageProcessing.file_type file) "image/svg+xml");
      [reflexivity | discriminate].
  - intros name size lastModified width height H. split.
    + apply Hfile. split; [reflexivity | exact H].
    + reflexivity.
Qed.

Lemma image_file_check_witness :
  ImageUtils.validateImageFile
    (ImageProcessing.mkFile "photo.png" "image/png" 10485760 0 (Some (1024, 768)))
  = Ret true.
Proof.
  exact (proj1 (proj2 (proj2 (proj2 image_file_check)))
           (ImageProcessing.mkFile "photo.png" "image/png" 10485760 0
              (Some (1024, 768)))
           eq_refl).
Defined.

(** X14.  [ensureBase64ForServer] gives back every string that is not a
    blob URL as it is, without looking at where it runs.  In a browser it
    agrees with [blobUrlToBase64] on every input.  Outside a browser
    [blobUrlToBase64] gives back data URLs and throws for every other
    string, also for one that is no blob URL, which
    [ensureBase64ForServer] gives back. *)
Theorem base64_for_server (browser : ImageUtils.Browser) (imageUrl : string) :
  (Js.startsWith "blob:" imageUrl = false ->
   ImageUtils.ensureBase64ForServer browser imageUrl = Ret imageUrl) /\
  (ImageUtils.isBrowser browser = true ->
   ImageUtils.ensureBase64ForServer browser imageUrl
   = ImageUtils.blobUrlToBase64 browser imageUrl) /\
  (ImageUtils.isBrowser browser = false ->
   (Js.startsWith "data:" imageUrl = true ->
    ImageUtils.blobUrlToBase64 browser imageUrl = Ret imageUrl) /\
   (Js.startsWith "data:" imageUrl = false ->
    ImageUtils.blobUrlToBase64 browser imageUrl =
    Throw (ThrownError
             "Failed to convert image: Cannot convert blob URLs in a server context. Convert to base64 on the client before sending to the server."))) /\
  (forall result,
     ImageUtils.ensureBase64ForServer browser imageUrl = Ret result ->
     result = imageUrl \/
     (Js.startsWith "blob:" imageUrl = true /\
      ImageUtils.fetchBlob browser imageUrl = inr (ImageUtils.ReadString result))).
Proof.
  unfold ImageUtils.ensureBase64ForServer, ImageUtils.blobUrlToBase64.
  split; [|split; [|split]].
  - intros ->. destruct (Js.startsWith "data:" imageUrl); reflexivity.
  - intros ->. destruct (Js.startsWith "data:" imageUrl); [reflexivity|].
    destruct (Js.startsWith "blob:" imageUrl); reflexivity.
  - intros ->. split; intros ->; reflexivity.
  - intros result.
    destruct (Js.startsWith "data:" imageUrl) eqn:Ed.
    { intros H. inversion H. left. reflexivity. }
    destruct (Js.startsWith "blob:" imageUrl) eqn:Eb.
    + destruct (ImageUtils.isBrowser browser); [|discriminate]. simpl.
      destruct (ImageUtils.fetchBlob browser imageUrl) as [[m|s]|[s| |]];
        try discriminate.
      intros H. inversion H; subst. right. split; reflexivity.
    + intros H. inversion H. left. reflexivity.
Qed.

Lemma base64_for_server_witness :
  ImageUtils.ensureBase64ForServer (ImageUtils.mkBrowser false (fun _ => inr ImageUtils.ReadFailed))
    "iVBORw0KGgo=" = Ret "iVBORw0KGgo=" /\
  ImageUtils.blobUrlToBase64 (ImageUtils.mkBrowser false (fun _ => inr ImageUtils.ReadFailed))
    "iVBORw0KGgo=" =
  Throw (ThrownError
           "Failed to convert image: Cannot convert blob URLs in a server context. Convert to base64 on the client before sending to the server.").
Proof.
  split.
  - exact (proj1 (base64_for_server
                    (ImageUtils.mkBrowser false (fun _ => inr ImageUtils.ReadFailed))
                    "iVBORw0KGgo=") eq_refl).
  - exact (proj2 (proj1 (proj2 (proj2 (base64_for_server
                    (ImageUtils.mkBrowser false (fun _ => inr ImageUtils.ReadFailed))
                    "iVBORw0KGgo="))) eq_refl) eq_refl).
Defined.

(** ** CORS headers *)

Section CorsHeaders.

Lemma setAll_valid entries : forall headers,
  forallb validEntry entries = true ->
  exists headers',
    Cors.setAll entries headers = (Some tt, headers') /\
    forall name, Cors.get name headers' =
      match lastOf name entries with
      | Some v => Some v
      | None => Cors.get name headers
      end.
Proof.
  induction entries as [|[key value] rest IH]; intros headers Hv.
  - exists headers. split; [reflexivity|]. intros name. reflexivity.
  - cbn [forallb] in Hv. apply andb_true_iff in Hv as [Hk Hrest].
    cbn [Cors.setAll]. unfold Cors.set.
    unfold validEntry in Hk. cbn [fst snd] in Hk. rewrite Hk.
    destruct (IH (<[Cors.lower key := Cors.normalize value]> headers) Hrest)
      as (headers' & Hrun & Hget).
    exists headers'. split; [exact Hrun|].
    intros name. rewrite Hget. cbn [lastOf].
    destruct (lastOf name rest) as [v|]; [reflexivity|].
    unfold Cors.get.
    destruct (String.eqb_spec (Cors.lower key) (Cors.lower name)) as [E|E].
    + rewrite E. apply lookup_insert_eq.
    + apply lookup_insert_ne. exact E.
Qed.

Lemma setAll_invalid entries : forall headers,
  forallb validEntry entries = false ->
  fst (Cors.setAll entries headers) = None.
Proof.
  induction entries as [|[key value] rest IH]; intros headers Hv.
  - discriminate.
  - cbn [forallb] in Hv. cbn [Cors.setAll]. unfold Cors.set.
    unfold validEntry in Hv. cbn [fst snd] in Hv.
    destruct (Cors.validName key && Cors.validValue (Cors.normalize value)).
    + apply IH. exact Hv.
    + reflexivity.
Qed.

Lemma defaults_valid : forallb validEntry defaultCorsHeaders = true.
Proof. vm_compute. reflexivity. Qed.

End CorsHeaders.

(** X15.  [addCorsHeadersToNextResponse] with custom headers returns exactly
    when every custom entry is one that [Headers.set] accepts; status and body
    of the response are never touched.  When it returns, a header asked for
    under any case shows the value of the last custom entry of that name, else
    the value of [defaultCorsHeaders], else what the response had before: a
    custom entry overrides a default also when its name is written in another
    case. *)
Theorem cors_headers_added {Body : Type} (response : Cors.Response Body)
    (custom : list (string * string)) :
  let result := Cors.addCorsHeadersToNextResponse response (Some custom) in
  (fst result = Some tt <-> forallb validEntry custom = true) /\
  Cors.status (snd result) = Cors.status response /\
  Cors.statusText (snd result) = Cors.statusText response /\
  Cors.body (snd result) = Cors.body response /\
  (forallb validEntry custom = true ->
   forall name,
     Cors.get name (Cors.headers (snd result)) =
       match lastOf name custom with
       | Some v => Some v
       | None =>
           match corsHeader name with
           | Some v => Some v
           | None => Cors.get name (Cors.headers response)
           end
       end).
Proof.
  intros result. subst result.
  unfold Cors.addCorsHeadersToNextResponse, Cors.withCors.
  destruct (setAll_valid defaultCorsHeaders (Cors.headers response) defaults_valid)
    as (h1 & Hrun1 & Hget1).
  rewrite Hrun1.
  destruct (forallb validEntry custom) eqn:Hv.
  - destruct (setAll_valid custom h1 Hv) as (h2 & Hrun2 & Hget2).
    rewrite Hrun2. cbn [fst snd Cors.status Cors.statusText Cors.body Cors.headers].
    repeat split; try reflexivity.
    intros _ name. rewrite Hget2, Hget1. reflexivity.
  - pose proof (setAll_invalid custom h1 Hv) as Hno.
    destruct (Cors.setAll custom h1) as [returned h2]. cbn [fst] in Hno. subst returned.
    cbn [fst snd Cors.status Cors.statusText Cors.body Cors.headers].
    repeat split; try reflexivity; try discriminate.
Qed.

(** X16.  The middleware answers a request itself only when it is an OPTIONS
    request for a path under /api/, with status 204 and the four CORS headers
    and no other header.  Every other request is passed on with the status of
    the response it was to get: for a path under /api/ with the four CORS
    headers set to the default values and every other header as it was,
    otherwise with the response unchanged. *)
Theorem middleware_cors (next : Cors.Response unit) (req : Cors.MiddlewareRequest) :
  match Cors.middleware next req with
  | Cors.Answered response =>
      Cors.method req = "OPTIONS" /\
      Js.startsWith "/api/" (Cors.pathname req) = true /\
      Cors.status response = 204 /\
      allowsAnyOrigin (Cors.headers response) /\
      forall name, corsHeader name = None ->
                   Cors.get name (Cors.headers response) = None
  | Cors.Passed response =>
      Cors.status response = Cors.status next /\
      if Js.startsWith "/api/" (Cors.pathname req) then
        String.eqb (Cors.method req) "OPTIONS" = false /\
        allowsAnyOrigin (Cors.headers response) /\
        forall name, corsHeader name = None ->
                     Cors.get name (Cors.headers response)
                       = Cors.get name (Cors.headers next)
      else response = next
  end.
Proof.
  unfold Cors.middleware.
  destruct (Js.startsWith "/api/" (Cors.pathname req)) eqn:Hapi.
  - destruct (String.eqb_spec (Cors.method req) "OPTIONS") as [Hm|Hm];
      cbn [andb].
    + split; [exact Hm|]. split; [reflexivity|]. split; [reflexivity|].
      cbn [Cors.handleCorsPreflightRequest Cors.headers].
      unfold Cors.defaultHeaders.
      destruct (setAll_valid defaultCorsHeaders ∅ defaults_valid)
        as (h & Hrun & Hget).
      rewrite Hrun. cbn [snd].
      split.
      * unfold allowsAnyOrigin. rewrite !Hget. repeat split; reflexivity.
      * intros name Hn. rewrite Hget. unfold corsHeader in Hn. rewrite Hn.
        unfold Cors.get. apply lookup_empty.
    + unfold Cors.addCorsHeadersToNextResponse, Cors.withCors.
      destruct (setAll_valid defaultCorsHeaders (Cors.headers next) defaults_valid)
        as (h & Hrun & Hget).
      rewrite Hrun. cbn [snd Cors.status Cors.headers].
      split; [reflexivity|]. split; [reflexivity|]. split.
      * unfold allowsAnyOrigin. rewrite !Hget. repeat split; reflexivity.
      * intros name Hn. rewrite Hget. unfold corsHeader in Hn. rewrite Hn.
        reflexivity.
  - rewrite andb_false_r. split; reflexivity.
Qed.

(** ** The API test script *)

Section Script.

Lemma parseMembers_issue_in shape input k schema msgs i :
  In (k, schema) shape ->
  schema (Js.get input k) = inr msgs ->
  In i (map (Zod.mkIssue k) msgs) ->
  In i (snd (Zod.parseMembers shape input)).
Proof.
  induction shape as [|[k' schema'] rest IH]; intros Hin Hs Hi; [contradiction|].
  cbn [Zod.parseMembers].
  destruct (Zod.parseMembers rest input) as [data issues] eqn:E.
  destruct Hin as [Heq|Hin].
  - inversion Heq; subst. rewrite Hs. cbn [snd].
    apply in_or_app. left. exact Hi.
  - specialize (IH Hin Hs Hi). cbn [snd] in IH.
    destruct (schema' (Js.get input k')); cbn [snd]; [exact IH|].
    apply in_or_app. right. exact IH.
Qed.

Lemma safeParse_missing shape fields k schema msgs i :
  In (k, schema) shape ->
  schema (Js.assoc k fields) = inr msgs ->
  In i (map (Zod.mkIssue k) msgs) ->
  isFailure (Zod.safeParse shape (JObj fields)) = true /\
  In i (issuesOf (Zod.safeParse shape (JObj fields))).
Proof.
  intros Hin Hs Hi. unfold Zod.safeParse.
  pose proof (parseMembers_issue_in shape (JObj fields) k schema msgs i Hin Hs Hi) as H.
  destruct (Zod.parseMembers shape (JObj fields)) as [d iss].
  cbn [snd] in H. destruct iss; [contradiction | split; [reflexivity | exact H]].
Qed.

End Script.

Section Script2.

Lemma TryOn_missing fields k message :
  In (k, Zod.zstring [Zod.min 1 message]) TryOnRequestSchema ->
  Js.assoc k fields = JUndefined ->
  rejected TryOn.POST TryOnRequestSchema fields (Zod.mkIssue k "Required").
Proof.
  intros Hin Hk.
  destruct (safeParse_missing TryOnRequestSchema fields k _ ["Required"]
              (Zod.mkIssue k "Required") Hin) as [Hf Hi].
  { rewrite Hk. reflexivity. }
  { left. reflexivity. }
  split; [exact Hi|]. intros env user w. split; [|reflexivity].
  apply TryOn_POST_invalid. exact Hf.
Qed.

Lemma Composite_missing fields k message :
  In (k, Zod.zstring [Zod.min 1 message]) CompositeRequestSchema ->
  Js.assoc k fields = JUndefined ->
  rejected Composite.POST CompositeRequestSchema fields (Zod.mkIssue k "Required").
Proof.
  intros Hin Hk.
  destruct (safeParse_missing CompositeRequestSchema fields k _ ["Required"]
              (Zod.mkIssue k "Required") Hin) as [Hf Hi].
  { rewrite Hk. reflexivity. }
  { left. reflexivity. }
  split; [exact Hi|]. intros env user w. split; [|reflexivity].
  apply Composite_POST_invalid. exact Hf.
Qed.

End Script2.

(** X17.  A create request that lacks one of its two image members is
    rejected with status 400 and the issue "Required" on that member, before
    any call and with the world as it was.  The bodies that the test script
    sends carry image ids only, so both routes reject every request of the
    script, whatever the ids and the prompt; and the reply to a rejected
    request has no [message] member, which is the member the script reads for
    its error text. *)
Theorem requests_without_image_data :
  (forall fields,
      Js.assoc "modelImageBase64" fields = JUndefined ->
      rejected TryOn.POST TryOnRequestSchema fields
        (Zod.mkIssue "modelImageBase64" "Required")) /\
  (forall fields,
      Js.assoc "clothingImageBase64" fields = JUndefined ->
      rejected TryOn.POST TryOnRequestSchema fields
        (Zod.mkIssue "clothingImageBase64" "Required")) /\
  (forall fields,
      Js.assoc "figureImageBase64" fields = JUndefined ->
      rejected Composite.POST CompositeRequestSchema fields
        (Zod.mkIssue "figureImageBase64" "Required")) /\
  (forall fields,
      Js.assoc "sceneImageBase64" fields = JUndefined ->
      rejected Composite.POST CompositeRequestSchema fields
        (Zod.mkIssue "sceneImageBase64" "Required")) /\
  (forall modelImageId clothingImageId,
      rejected TryOn.POST TryOnRequestSchema
        (TestScript.tryOnBody modelImageId clothingImageId)
        (Zod.mkIssue "modelImageBase64" "Required")) /\
  (forall tryOnImageId sceneImageId prompt,
      rejected Composite.POST CompositeRequestSchema
        (TestScript.compositeBody tryOnImageId sceneImageId prompt)
        (Zod.mkIssue "figureImageBase64" "Required")) /\
  (forall issues,
      Js.get (reply_body (invalidRequest issues)) "message" = JUndefined).
Proof.
  repeat apply conj.
  - intros fields H. apply (TryOn_missing fields _ "Model image data is required");
      [left; reflexivity | exact H].
  - intros fields H. apply (TryOn_missing fields _ "Clothing image data is required");
      [right; left; reflexivity | exact H].
  - intros fields H. apply (Composite_missing fields _ "Figure image data is required");
      [left; reflexivity | exact H].
  - intros fields H. apply (Composite_missing fields _ "Scene image data is required");
      [right; left; reflexivity | exact H].
  - intros a b. apply (TryOn_missing _ _ "Model image data is required");
      [left; reflexivity | reflexivity].
  - intros a b p. apply (Composite_missing _ _ "Figure image data is required");
      [left; reflexivity | reflexivity].
  - intros issues. reflexivity.
Qed.

Section Polling.

Context {T : Type} (statusOf : T -> string).
Variable generationId : string.
Variable checkStatusFn : string -> nat -> Outcome T.
Variable maxAttempts : Z.

Lemma pollFrom_spec turns : forall attempts,
  let result := TestScript.pollFrom statusOf turns attempts generationId
                  checkStatusFn maxAttempts in
  (attempts <= snd result <= attempts + turns)%nat /\
  (forall k, (attempts <= k)%nat -> (S k < snd result)%nat ->
             pending statusOf checkStatusFn generationId k) /\
  (((attempts < snd result)%nat /\
    checkStatusFn generationId (snd result - 1)%nat = fst result /\
    (forall status, fst result = Ret status ->
                    TestScript.final statusOf status = true)) \/
   (fst result = Throw (ThrownError (TestScript.didNotComplete maxAttempts)) /\
    snd result = (attempts + turns)%nat /\
    forall k, (attempts <= k)%nat -> (k < snd result)%nat ->
              pending statusOf checkStatusFn generationId k)).
Proof.
  induction turns as [|turns IH]; intros attempts; cbn [TestScript.pollFrom].
  - cbn [fst snd]. split; [lia|]. split; [intros; lia|].
    right. split; [reflexivity|]. split; [lia|]. intros; lia.
  - destruct (checkStatusFn generationId attempts) as [status|error] eqn:E.
    + destruct (TestScript.final statusOf status) eqn:F.
      * cbn [fst snd]. split; [lia|]. split; [intros; lia|].
        left. split; [lia|]. split.
        -- replace (S attempts - 1)%nat with attempts by lia. exact E.
        -- intros s Hs. inversion Hs; subst. exact F.
      * specialize (IH (S attempts)). cbn zeta in IH.
        destruct IH as (Hb & Hp & Hend).
        assert (Hhere : pending statusOf checkStatusFn generationId attempts)
          by (exists status; split; assumption).
        assert (Hall : forall k, (attempts <= k)%nat -> k = attempts \/ (S attempts <= k)%nat)
          by (intros; lia).
        split; [lia|]. split.
        -- intros k Hk Hlt. destruct (Hall k Hk) as [->|Hk']; [exact Hhere|].
           apply Hp; assumption.
        -- destruct Hend as [(Hlt & Hc & Hf)|(Ht & Hn & Hpend)].
           ++ left. split; [lia|]. split; assumption.
           ++ right. split; [exact Ht|]. split; [lia|].
              intros k Hk Hlt. destruct (Hall k Hk) as [->|Hk']; [exact Hhere|].
              apply Hpend; assumption.
    + cbn [fst snd]. split; [lia|]. split; [intros; lia|].
      left. split; [lia|]. split.
      * replace (S attempts - 1)%nat with attempts by lia. exact E.
      * intros s Hs. discriminate.
Qed.

End Polling.

(** X18.  [pollGenerationStatus] calls the status function at most
    [maxAttempts] times (never, when [maxAttempts] is not positive), and every
    call but its last gave a status that was not final.  Either its result is
    what the last call gave, a status that is completed or failed or the
    error that the call threw; or it made all [maxAttempts] calls, none gave
    a final status, and it throws "Generation did not complete after
    [maxAttempts] polling attempts". *)
Theorem polling_of_the_test_script {T : Type} (statusOf : T -> string)
    (generationId : string) (checkStatusFn : string -> nat -> Outcome T)
    (maxAttempts : Z) :
  let result := TestScript.pollGenerationStatus statusOf generationId
                  checkStatusFn maxAttempts in
  (snd result <= Z.to_nat maxAttempts)%nat /\
  (forall k, (S k < snd result)%nat -> pending statusOf checkStatusFn generationId k) /\
  (((0 < snd result)%nat /\
    checkStatusFn generationId (snd result - 1)%nat = fst result /\
    (forall status, fst result = Ret status ->
                    statusOf status = "completed" \/ statusOf status = "failed")) \/
   (fst result = Throw (ThrownError
      ("Generation did not complete after " +:+ pretty maxAttempts +:+
       " polling attempts")) /\
    snd result = Z.to_nat maxAttempts /\
    forall k, (k < snd result)%nat -> pending statusOf checkStatusFn generationId k)).
Proof.
  intros result. subst result. unfold TestScript.pollGenerationStatus.
  pose proof (pollFrom_spec statusOf generationId checkStatusFn maxAttempts
                (Z.to_nat maxAttempts) 0) as H.
  cbn zeta in H. destruct H as (Hb & Hp & Hend).
  split; [lia|]. split.
  - intros k Hk. apply Hp; [lia | exact Hk].
  - destruct Hend as [(Hlt & Hc & Hf)|(Ht & Hn & Hpend)].
    + left. split; [exact Hlt|]. split; [exact Hc|].
      intros status Hs. specialize (Hf status Hs).
      unfold TestScript.final in Hf. apply orb_true_iff in Hf.
      destruct Hf as [Hf|Hf]; apply String.eqb_eq in Hf; [left | right]; exact Hf.
    + right. split; [exact Ht|]. split; [lia|].
      intros k Hk. apply Hpend; [lia | exact Hk].
Qed.

(** ** A create request whose record is refused *)

Section Refused.

Variable env : Env.

Lemma insert_taken row old w w1 :
  db w1 = db w -> db w !! g_id row = Some old ->
  db (snd (db_insert env row w1)) = db w /\
  objects (snd (db_insert env row w1)) = objects w1 /\
  trace (snd (db_insert env row w1)) = (trace w1 ++ [EvInsert row])%list.
Proof.
  intros Hd Ht. unfold db_insert. simpl. rewrite Hd, Ht. repeat split.
Qed.

End Refused.

(** X19.  The create handlers do not look at the result of the insert.  When
    the id allocated for a generation is already taken, the job is submitted
    to the provider all the same and the caller is answered 200 with that id
    and the status "processing", but the record store is left as it was: the
    id still names the earlier generation, and no record holds the new job. *)
Theorem refused_insert_is_not_reported (env : Env) (user : option string)
  (fields : list (string * JsVal)) (prompt : string) (w w1 : World)
  (output providerId : JsVal) (old : Generation) :
  db w !! generateId env (now w) = Some old ->
  (validTryOn fields = Some prompt ->
   generateTryOn env (stringOf (Js.assoc "modelImageBase64" fields))
     (stringOf (Js.assoc "clothingImageBase64" fields)) prompt w
     = (Ret providerId, w1) ->
   exists reply row w2,
     TryOn.POST env (mkPost (Ret (JObj fields)) user) w = (Ret reply, w2) /\
     reply_status reply = 200 /\
     Js.get (reply_body reply) "id" = JStr (generateId env (now w)) /\
     Js.get (reply_body reply) "status" = JStr "processing" /\
     db w2 = db w /\
     db w2 !! generateId env (now w) = Some old /\
     g_external_id row = column providerId /\
     trace w2 = (trace w1 ++ [EvInsert row])%list) /\
  (validComposite fields = Some prompt ->
   generateComposite env (stringOf (Js.assoc "figureImageBase64" fields))
     (stringOf (Js.assoc "sceneImageBase64" fields)) prompt true w
     = (Ret (output, providerId), w1) ->
   exists reply row w2,
     Composite.POST env (mkPost (Ret (JObj fields)) user) w = (Ret reply, w2) /\
     reply_status reply = 200 /\
     Js.get (reply_body reply) "id" = JStr (generateId env (now w)) /\
     Js.get (reply_body reply) "status" = JStr "processing" /\
     db w2 = db w /\
     db w2 !! generateId env (now w) = Some old /\
     g_external_id row = column providerId /\
     trace w2 = (trace w1 ++ [EvInsert row])%list).
Proof.
  intros Htaken. split; intros Hv Hg.
  - set (row := TryOn.newRow env (now w1) (generateId env (now w)) user providerId
                  (TryOn.metadataOf (Js.assoc "modelImageId" fields)
                     (Js.assoc "clothingImageId" fields) prompt)).
    pose proof (generateTryOn_does env
                  (stringOf (Js.assoc "modelImageBase64" fields))
                  (stringOf (Js.assoc "clothingImageBase64" fields)) prompt w) as Hd.
    rewrite Hg in Hd.
    destruct Hd as (Hdb & _ & _). specialize (Hdb eq_refl). simpl in Hdb.
    destruct (insert_taken env row old w w1 Hdb Htaken) as (Hi1 & Hi2 & Hi3).
    eexists _, row, (snd (db_insert env row w1)).
    split.
    { rewrite (TryOn_POST_submitted env user fields prompt w _ _ Hv
                 (TryOn_submit_returns env _ _ _ _ _ _ _ _ _ Hg)).
      reflexivity. }
    split; [reflexivity|]. split; [reflexivity|]. split; [reflexivity|].
    split; [exact Hi1|]. split; [rewrite Hi1; exact Htaken|].
    split; [reflexivity | exact Hi3].
  - set (row := Composite.newRow env (now w1) (generateId env (now w)) user providerId
                  (Composite.metadataOf (Js.assoc "figureImageId" fields)
                     (Js.assoc "sceneImageId" fields) prompt)).
    pose proof (generateComposite_does env
                  (stringOf (Js.assoc "figureImageBase64" fields))
                  (stringOf (Js.assoc "sceneImageBase64" fields)) prompt true w) as Hd.
    rewrite Hg in Hd.
    destruct Hd as (Hdb & _ & _). specialize (Hdb eq_refl). simpl in Hdb.
    destruct (insert_taken env row old w w1 Hdb Htaken) as (Hi1 & Hi2 & Hi3).
    eexists _, row, (snd (db_insert env row w1)).
    split.
    { rewrite (Composite_POST_submitted env user fields prompt w _ _ Hv
                 (Composite_submit_returns env _ _ _ _ _ _ _ _ _ _ Hg)).
      reflexivity. }
    split; [reflexivity|]. split; [reflexivity|]. split; [reflexivity|].
    split; [exact Hi1|]. split; [rewrite Hi1; exact Htaken|].
    split; [reflexivity | exact Hi3].
Qed.

Lemma refused_insert_is_not_reported_witness :
  exists reply w2,
    TryOn.POST Scenario.accepting Scenario.tryOnRequest
      (Scenario.world [Scenario.row "gen-1000" "try-on" "completed" None JNull (Some 100)]) = (Ret reply, w2) /\
    Js.get (reply_body reply) "id" = JStr "gen-1000" /\
    db w2 !! "gen-1000"
      = Some (Scenario.row "gen-1000" "try-on" "completed" None JNull (Some 100)).
Proof.
  unfold Scenario.tryOnRequest.
  destruct (proj1 (refused_insert_is_not_reported Scenario.accepting None
               (Scenario.tryOnBody (JStr "A person wearing a red jacket"))
               "A person wearing a red jacket"
               (Scenario.world [Scenario.row "gen-1000" "try-on" "completed" None JNull (Some 100)])
               (snd (generateTryOn Scenario.accepting
                       "data:image/png;base64,iVBORw0KGgo="
                       "data:image/png;base64,R0lGODlhAQ=="
                       "A person wearing a red jacket"
                       (Scenario.world [Scenario.row "gen-1000" "try-on" "completed" None JNull (Some 100)])))
               JUndefined (JStr "pred-1") (Scenario.row "gen-1000" "try-on" "completed" None JNull (Some 100))
               ltac:(vm_compute; reflexivity))
             ltac:(vm_compute; reflexivity) ltac:(vm_compute; reflexivity))
    as (reply & row & w2 & H1 & _ & H2 & _ & _ & H3 & _).
  exists reply, w2. split; [exact H1|]. split; [exact H2 | exact H3].
Defined.

(** ** From the create request to the first status check *)

Section RoundTrip.

Variable env : Env.

Lemma Composite_liveStatus_polls id g w :
  hasKey env = true ->
  exists rest,
    trace (snd (Composite.liveStatus env id g w)) =
    (trace w ++ EvFetch (CombinerGet (g_external_id g))
                  (http env (now w) (CombinerGet (g_external_id g))) :: rest)%list.
Proof.
  intros Hkey.
  unfold Composite.liveStatus, try_catch. unfold bind at 1.
  pose proof (checkJobStatus_trace env (g_external_id g) w Hkey) as Ht.
  destruct (checkJobStatus env (g_external_id g) w) as [[ps|t] w1];
    simpl in Ht.
  - match goal with
    | |- context [match ?k w1 with _ => _ end] =>
        assert (respects (only anyEvent false false) k) as Hk
    end.
    { frame.
      - eapply anyEvent_weaken, Composite_advance_does.
      - eapply anyEvent_weaken, Composite_finish_does. }
    specialize (Hk w1). destruct Hk as (_ & _ & evs & He & _).
    match goal with
    | |- context [match ?k w1 with _ => _ end] => destruct (k w1) as [[a|t] w2]
    end; simpl in *; exists evs; rewrite He, Ht, <- app_assoc; reflexivity.
  - exists []. simpl. exact Ht.
Qed.

Lemma generateComposite_hasKey a b c u w r w1 :
  generateComposite env a b c u w = (Ret r, w1) -> hasKey env = true.
Proof.
  destruct (hasKey env) eqn:Hk; [reflexivity|].
  unfold generateComposite, prepareSources. rewrite Hk. discriminate.
Qed.

Lemma TryOn_GET_polls id g w :
  nonEmpty (Some id) = Some id ->
  db w !! id = Some g ->
  TryOn.isFinal (g_status g) = false ->
  exists rest,
    trace (snd (TryOn.GET env (mkGet (Some id)) w)) =
    (trace w ++
     EvSelect id ::
     EvFetch (ReplicateGet (g_external_id g))
       (http env (now (record env (EvSelect id) w))
          (ReplicateGet (g_external_id g))) :: rest)%list.
Proof.
  intros Hid Hg Hf.
  destruct (TryOn_liveStatus_polls env id g (record env (EvSelect id) w))
    as [rest Hr].
  exists rest.
  assert (snd (TryOn.GET env (mkGet (Some id)) w) =
          snd (TryOn.liveStatus env id g (record env (EvSelect id) w))) as ->.
  { unfold TryOn.GET. cbn [get_id]. rewrite Hid. unfold try_catch at 1.
    rewrite (bind_Ret _ _ _ _ _ (select_run env id w)). rewrite Hg, Hf.
    destruct (TryOn.liveStatus env id g (record env (EvSelect id) w))
      as [[reply|t] w']; reflexivity. }
  rewrite Hr. cbn [record trace]. rewrite <- app_assoc. reflexivity.
Qed.

Lemma Composite_GET_polls id g w :
  hasKey env = true ->
  nonEmpty (Some id) = Some id ->
  db w !! id = Some g ->
  Composite.isFinal (g_status g) = false ->
  exists rest,
    trace (snd (Composite.GET env (mkGet (Some id)) w)) =
    (trace w ++
     EvSelect id ::
     EvFetch (CombinerGet (g_external_id g))
       (http env (now (record env (EvSelect id) w))
          (CombinerGet (g_external_id g))) :: rest)%list.
Proof.
  intros Hkey Hid Hg Hf.
  destruct (Composite_liveStatus_polls id g (record env (EvSelect id) w) Hkey)
    as [rest Hr].
  exists rest.
  assert (snd (Composite.GET env (mkGet (Some id)) w) =
          snd (Composite.liveStatus env id g (record env (EvSelect id) w))) as ->.
  { unfold Composite.GET. cbn [get_id]. rewrite Hid. unfold try_catch at 1.
    rewrite (bind_Ret _ _ _ _ _ (select_run env id w)). rewrite Hg, Hf.
    destruct (Composite.liveStatus env id g (record env (EvSelect id) w))
      as [[reply|t] w']; reflexivity. }
  rewrite Hr. cbn [record trace]. rewrite <- app_assoc. reflexivity.
Qed.

End RoundTrip.

(** X20.  From a create request to the status check of its reply.  When a
    create request has stored its record, a status check for the id of the
    reply finds the record and asks the provider about the job that the
    create request started: the check reads the record and its next call is
    the poll for the id that the provider returned on submission (stored as
    [null] when the provider returned none). *)
Theorem created_generation_is_polled (env : Env) (user : option string)
  (fields : list (string * JsVal)) (prompt : string) (w w1 : World)
  (output providerId : JsVal) :
  db w !! generateId env (now w) = None ->
  nonEmpty (Some (generateId env (now w))) = Some (generateId env (now w)) ->
  (validTryOn fields = Some prompt ->
   generateTryOn env (stringOf (Js.assoc "modelImageBase64" fields))
     (stringOf (Js.assoc "clothingImageBase64" fields)) prompt w
     = (Ret providerId, w1) ->
   exists reply w2 rest,
     TryOn.POST env (mkPost (Ret (JObj fields)) user) w = (Ret reply, w2) /\
     Js.get (reply_body reply) "id" = JStr (generateId env (now w)) /\
     trace (snd (TryOn.GET env (mkGet (Some (generateId env (now w)))) w2)) =
     (trace w2 ++
      EvSelect (generateId env (now w)) ::
      EvFetch (ReplicateGet (column providerId))
        (http env (now (record env (EvSelect (generateId env (now w))) w2))
           (ReplicateGet (column providerId))) :: rest)%list) /\
  (validComposite fields = Some prompt ->
   generateComposite env (stringOf (Js.assoc "figureImageBase64" fields))
     (stringOf (Js.assoc "sceneImageBase64" fields)) prompt true w
     = (Ret (output, providerId), w1) ->
   exists reply w2 rest,
     Composite.POST env (mkPost (Ret (JObj fields)) user) w = (Ret reply, w2) /\
     Js.get (reply_body reply) "id" = JStr (generateId env (now w)) /\
     trace (snd (Composite.GET env (mkGet (Some (generateId env (now w)))) w2)) =
     (trace w2 ++
      EvSelect (generateId env (now w)) ::
      EvFetch (CombinerGet (column providerId))
        (http env (now (record env (EvSelect (generateId env (now w))) w2))
           (CombinerGet (column providerId))) :: rest)%list).
Proof.
  intros Hfresh Hid. split; intros Hv Hg.
  - set (row := TryOn.newRow env (now w1) (generateId env (now w)) user providerId
                  (TryOn.metadataOf (Js.assoc "modelImageId" fields)
                     (Js.assoc "clothingImageId" fields) prompt)).
    pose proof (generateTryOn_does env
                  (stringOf (Js.assoc "modelImageBase64" fields))
                  (stringOf (Js.assoc "clothingImageBase64" fields)) prompt w) as Hd.
    rewrite Hg in Hd.
    destruct Hd as (Hdb & _ & _). specialize (Hdb eq_refl). simpl in Hdb.
    destruct (insert_fresh env row w w1 Hdb Hfresh) as (Hi1 & _ & _).
    assert (db (snd (db_insert env row w1)) !! generateId env (now w) = Some row)
      as Hrow.
    { rewrite Hi1. apply lookup_insert_eq. }
    destruct (TryOn_GET_polls env (generateId env (now w)) row
                (snd (db_insert env row w1)) Hid Hrow eq_refl) as [rest Hr].
    eexists _, (snd (db_insert env row w1)), rest.
    split.
    { rewrite (TryOn_POST_submitted env user fields prompt w _ _ Hv
                 (TryOn_submit_returns env _ _ _ _ _ _ _ _ _ Hg)).
      reflexivity. }
    split; [reflexivity | exact Hr].
  - set (row := Composite.newRow env (now w1) (generateId env (now w)) user providerId
                  (Composite.metadataOf (Js.assoc "figureImageId" fields)
                     (Js.assoc "sceneImageId" fields) prompt)).
    pose proof (generateComposite_does env
                  (stringOf (Js.assoc "figureImageBase64" fields))
                  (stringOf (Js.assoc "sceneImageBase64" fields)) prompt true w) as Hd.
    rewrite Hg in Hd.
    destruct Hd as (Hdb & _ & _). specialize (Hdb eq_refl). simpl in Hdb.
    destruct (insert_fresh env row w w1 Hdb Hfresh) as (Hi1 & _ & _).
    assert (db (snd (db_insert env row w1)) !! generateId env (now w) = Some row)
      as Hrow.
    { rewrite Hi1. apply lookup_insert_eq. }
    destruct (Composite_GET_polls env (generateId env (now w)) row
                (snd (db_insert env row w1))
                (generateComposite_hasKey env _ _ _ _ _ _ _ Hg)
                Hid Hrow eq_refl) as [rest Hr].
    eexists _, (snd (db_insert env row w1)), rest.
    split.
    { rewrite (Composite_POST_submitted env user fields prompt w _ _ Hv
                 (Composite_submit_returns env _ _ _ _ _ _ _ _ _ _ Hg)).
      reflexivity. }
    split; [reflexivity | exact Hr].
Qed.

Lemma created_generation_is_polled_witness :
  exists reply w2 rest,
    TryOn.POST Scenario.accepting Scenario.tryOnRequest (Scenario.world [])
      = (Ret reply, w2) /\
    Js.get (reply_body reply) "id" = JStr "gen-1000" /\
    trace (snd (TryOn.GET Scenario.accepting (Scenario.get "gen-1000") w2)) =
    (trace w2 ++
     EvSelect "gen-1000" ::
     EvFetch (ReplicateGet (JStr "pred-1"))
       (http Scenario.accepting
          (now (record Scenario.accepting (EvSelect "gen-1000") w2))
          (ReplicateGet (JStr "pred-1"))) :: rest)%list.
Proof.
  unfold Scenario.tryOnRequest, Scenario.get.
  exact (proj1 (created_generation_is_polled Scenario.accepting None
               (Scenario.tryOnBody (JStr "A person wearing a red jacket"))
               "A person wearing a red jacket" (Scenario.world [])
               (snd (generateTryOn Scenario.accepting
                       "data:image/png;base64,iVBORw0KGgo="
                       "data:image/png;base64,R0lGODlhAQ=="
                       "A person wearing a red jacket" (Scenario.world [])))
               JUndefined (JStr "pred-1")
               ltac:(vm_compute; reflexivity) ltac:(vm_compute; reflexivity))
             ltac:(vm_compute; reflexivity) ltac:(vm_compute; reflexivity)).
Defined.
